(** * WhatsAppWebAPI: session lifecycle, message dispatch and auto-responders

    A shallow embedding of class WhatsAppService ([src/whatsappService.js]),
    of class MessageHandler (the module that registers itself with
    [addMessageHandler]), of [utils/validator] and of the [messages] table of
    [db/whatsapp.db], followed by the properties of the specification
    checked against that embedding.

    Conventions of the embedding.
    - A JavaScript string is a [string]; a character is one code unit in the
      range U+0000..U+00FF.
    - A JavaScript exception is an [Error] object carrying a message; a
      computation ends in a [completion]: [Normal v] or [Throw e].
    - Mutable objects ([this] of the service, [this] of the message handler,
      the database table, the session directory) are fields of one [World]
      which every method threads; what the outside answers (the messaging
      client, the clock, the HTTP client, the QR renderer, the SQL engine)
      is read from an [Env].
    - Every observable call to a collaborator is recorded as an [Effect]. *)

From Stdlib Require Import ZArith String Ascii List Bool Lia DecimalString.
From stdpp Require Import base gmap strings list.

Open Scope string_scope.

(* ================================================================== *)
(** ** JavaScript values and strings *)
(* ================================================================== *)

Module Js.

(** The values that the untyped parameters of the service can receive.
    Numbers are integers here. *)
Inductive jsval : Type :=
| VUndefined
| VNull
| VBool (b : bool)
| VNumber (z : Z)
| VString (s : string).

(** [ToBoolean]. *)
Definition truthy (v : jsval) : bool :=
  match v with
  | VUndefined | VNull => false
  | VBool b => b
  | VNumber z => negb (z =? 0)%Z
  | VString s => negb (s =? "")
  end.

Record Error : Type := mkError { message : string }.

Inductive completion (A : Type) : Type :=
| Normal (a : A)
| Throw (e : Error).
Arguments Normal {A} a.
Arguments Throw {A} e.

(** Template-literal rendering of an integer, as in [`pending-${Date.now()}`]. *)
Definition Z_to_string (z : Z) : string := NilZero.string_of_int (Z.to_int z).

(** [String.prototype.startsWith]. *)
Fixpoint startsWith (s p : string) {struct p} : bool :=
  match p with
  | EmptyString => true
  | String c p' =>
      match s with
      | EmptyString => false
      | String d s' => Ascii.eqb c d && startsWith s' p'
      end
  end.

Fixpoint drop_chars (n : nat) (s : string) : string :=
  match n, s with
  | O, _ => s
  | S n', String _ s' => drop_chars n' s'
  | S _, EmptyString => EmptyString
  end.

(** [String.prototype.substring(n)]. *)
Definition substring_from (n : nat) (s : string) : string := drop_chars n s.

(** [String.prototype.includes]. *)
Fixpoint includes (s sub : string) : bool :=
  startsWith s sub ||
  match s with
  | EmptyString => false
  | String _ s' => includes s' sub
  end.

(** [String.prototype.replace] with a string pattern: only the first
    occurrence is replaced. *)
Fixpoint replace (s pat rep : string) : string :=
  if startsWith s pat then rep +:+ drop_chars (String.length pat) s
  else match s with
       | EmptyString => EmptyString
       | String c s' => String c (replace s' pat rep)
       end.

Definition is_digit (c : ascii) : bool :=
  let n := nat_of_ascii c in (48 <=? n)%nat && (n <=? 57)%nat.

(** [s.replace(/\D/g, '')]. *)
Fixpoint remove_non_digits (s : string) : string :=
  match s with
  | EmptyString => EmptyString
  | String c s' =>
      if is_digit c then String c (remove_non_digits s') else remove_non_digits s'
  end.

(** WhiteSpace and LineTerminator code units below U+0100: TAB, LF, VT, FF,
    CR, SP and NBSP. *)
Definition is_whitespace (c : ascii) : bool :=
  let n := nat_of_ascii c in
  ((9 <=? n)%nat && (n <=? 13)%nat) || (n =? 32)%nat || (n =? 160)%nat.

Fixpoint trimStart (s : string) : string :=
  match s with
  | EmptyString => EmptyString
  | String c s' => if is_whitespace c then trimStart s' else s
  end.

Fixpoint trimEnd (s : string) : string :=
  match s with
  | EmptyString => EmptyString
  | String c s' =>
      match trimEnd s' with
      | EmptyString => if is_whitespace c then EmptyString else String c EmptyString
      | r => String c r
      end
  end.

(** [String.prototype.trim]. *)
Definition trim (s : string) : string := trimEnd (trimStart s).

Definition lower_char (c : ascii) : ascii :=
  let n := nat_of_ascii c in
  if ((65 <=? n)%nat && (n <=? 90)%nat)
     || ((192 <=? n)%nat && (n <=? 222)%nat && negb (n =? 215)%nat)
  then ascii_of_nat (n + 32) else c.

(** [String.prototype.toLowerCase]. *)
Fixpoint toLowerCase (s : string) : string :=
  match s with
  | EmptyString => EmptyString
  | String c s' => String (lower_char c) (toLowerCase s')
  end.

(** The text is made of whitespace only (the empty text included). *)
Fixpoint whitespace_only (s : string) : bool :=
  match s with
  | EmptyString => true
  | String c s' => is_whitespace c && whitespace_only s'
  end.

End Js.
Import Js.

(* ================================================================== *)
(** ** utils/validator.js *)
(* ================================================================== *)

Module Validator.

Definition validatePhoneNumber (phoneNumber : jsval) : bool :=
  match phoneNumber with
  | VString p =>
      if negb (truthy phoneNumber) then false else
      let cleaned := remove_non_digits p in
      let len := String.length cleaned in
      if (len <? 9)%nat || (12 <? len)%nat then false
      else if startsWith cleaned "0" then (len =? 10)%nat && startsWith cleaned "05"
      else if startsWith cleaned "5" then (len =? 9)%nat
      else if startsWith cleaned "972" then (len =? 12)%nat
      else true
  | _ => false
  end.

Definition formatPhoneNumber (phoneNumber : jsval) (countryCode : string)
  : completion string :=
  if negb (truthy phoneNumber) then Throw (mkError "Phone number is required")
  else match phoneNumber with
  | VString p =>
      let cleaned := remove_non_digits p in
      if countryCode =? "972" then
        let cleaned := if startsWith cleaned "0" then substring_from 1 cleaned else cleaned in
        let cleaned := if startsWith cleaned "972" then substring_from 3 cleaned else cleaned in
        if (String.length cleaned =? 9)%nat && startsWith cleaned "5"
        then Normal ("972" +:+ cleaned +:+ "@c.us")
        else Throw (mkError "Invalid Israeli mobile number format")
      else if startsWith cleaned countryCode then Normal (cleaned +:+ "@c.us")
      else Normal (countryCode +:+ cleaned +:+ "@c.us")
  | _ => Throw (mkError "phoneNumber.replace is not a function")
  end.

End Validator.

(* ================================================================== *)
(** ** Data carried between the components *)
(* ================================================================== *)

(** The message object that whatsapp-web.js hands to the [message] event;
    [id] is [message.id.id] and [id_serialized] is [message.id._serialized]. *)
Module Message.
Record t : Type := mk {
  id : string;
  id_serialized : string;
  from : option string;
  to : option string;
  body : option string;
  timestamp : Z;
  type : string;
  isGroupMsg : bool;
  author : option string;
  notifyName : option string;
  fromMe : bool
}.
End Message.

(** [messageData], the record built by [handleIncomingMessage]. *)
Module MessageData.
Record t : Type := mk {
  id : string;
  from : option string;
  to : option string;
  body : option string;
  timestamp : Z;
  type : string;
  isGroupMsg : bool;
  author : option string;
  notifyName : option string;
  fromMe : bool
}.
End MessageData.

(** The [payload] member of the webhook envelope [{event: 'message', payload}]. *)
Module WebhookPayload.
Record t : Type := mk {
  id : string;
  from : option string;
  to : option string;
  body : option string;
  timestamp : Z;
  fromMe : bool;
  isGroupMsg : bool;
  author : option string;
  notifyName : option string;
  type : string
}.
End WebhookPayload.

(** A row of the [messages] table of db/whatsapp.db.js, [id TEXT PRIMARY KEY]. *)
Module Row.
Record t : Type := mk {
  id : string;
  fromNumber : option string;
  toNumber : option string;
  body : option string;
  timestamp : Z;
  type : string;
  isGroupMsg : Z;
  processed : Z
}.
End Row.

(** What [client.sendMessage] resolves to: [result.id.id], [result.timestamp]. *)
Record SendAck : Type := { ack_id : string; ack_timestamp : Z }.

(** The object returned by [sendMessage] and [sendToChat]; a member that the
    returned literal does not have is [None]. *)
Module SendResult.
Record t : Type := mk {
  success : bool;
  messageId : option string;
  timestamp : option Z;
  to : jsval;
  originalNumber : option jsval;
  message : jsval;
  countryCode : option string;
  note : option string;
  error : option string
}.
End SendResult.

Inductive ConnectionStatus : Type :=
| disconnected
| connecting
| connected
| authenticated.

(** A registered message handler: the bound [processMessage] of the
    MessageHandler instance, or any other callable, of which only the
    completion is known. *)
Inductive Handler : Type :=
| ProcessMessage
| External (run : MessageData.t -> completion unit).

(** A trigger: a plain value, a RegExp or a function. Of a RegExp and of a
    function the embedding keeps the answer to one call; what they keep
    from one call to the next (the [lastIndex] of a pattern with the flag
    [g] or [y], the variables of a closure) is not part of the [World]. *)
Inductive Trigger : Type :=
| TPrimitive (v : jsval)
| TRegExp (source : string) (test : string -> bool)
| TFunction (f : string -> completion jsval).

Inductive Response : Type :=
| RPrimitive (v : jsval)
| RFunction (f : MessageData.t -> completion jsval).

Module Responder.
Record t : Type := mk {
  id : string;
  trigger : Trigger;
  response : Response;
  enabled : bool;
  createdAt : Z;
  description : string
}.
End Responder.

(** The [options] argument of [addAutoResponder]; an absent key is [None]. *)
Module Options.
Record t : Type := mk {
  id : option string;
  enabled : option bool;
  description : option string
}.
Definition empty : t := mk None None None.
End Options.

(** An element of [messageLog]: [{...messageData, processedAt}]. *)
Record LogEntry : Type := { entry : MessageData.t; processedAt : Z }.

(** The session directory, as far as [cleanupStaleLocks] can tell: the
    entries by name, and whether entries can be removed from it at all. *)
Inductive Entry : Type := RegularFile | Directory.

Record Dir : Type := { entries : gmap string Entry; writable : bool }.

Record WhatsAppService : Type := {
  client : option nat;
  isReady : bool;
  qrCode : option string;
  connectionStatus : ConnectionStatus;
  messageHandlers : list Handler
}.

Record MessageHandler : Type := {
  autoResponders : list (string * Responder.t);
  messageLog : list LogEntry;
  maxLogSize : nat
}.

Record World : Type := {
  service : WhatsAppService;
  handler : MessageHandler;
  messages : list Row.t;
  sessionDir : Dir
}.

(** The object returned by [getStatus]. *)
Module Status.
Record t : Type := mk {
  isReady : bool;
  connectionStatus : ConnectionStatus;
  hasQrCode : bool;
  handlersCount : nat;
  timestamp : Z
}.
End Status.

(** Answers of the collaborators during one method call. [dateNow k] is the
    k-th reading of the clock inside the method. *)
Record Env : Type := {
  WEBHOOK_URL : option string;
  dateNow : nat -> Z;
  new_Client : completion nat;
  client_initialize : completion unit;
  client_destroy : completion unit;
  client_getNumberId : string -> completion (option string);
  client_sendMessage : string -> jsval -> completion SendAck;
  axios_post : string -> WebhookPayload.t -> completion unit;
  insert_run : Row.t -> completion unit;
  QRCode_toDataURL : string -> completion string;
  QRCode_toString : string -> completion string
}.

Module Level.
Inductive t : Type := info | warn | error | debug.
End Level.

(** The calls that leave the two classes: the logger (with the fixed part of
    its text), the file system, the messaging client, the SQL statement, the
    HTTP client, a handler of another module. [TriggerTest] and
    [ServiceSendMessage] mark two calls between the classes: the evaluation
    of the trigger of a rule by [matchesTrigger], and the call of
    [whatsappService.sendMessage] by [executeAutoResponder]. *)
Inductive Effect : Type :=
| Log (level : Level.t) (text : string)
| Unlink (name : string)
| ClientNew
| ClientInitialize
| ClientDestroy
| ClientGetNumberId (number : string)
| ClientSendMessage (chatId : string) (content : jsval)
| DbRun (row : Row.t)
| HttpPost (url : string) (payload : WebhookPayload.t)
| HandlerCall (messageId : string)
| TriggerTest (responderId : string)
| ServiceSendMessage (phoneNumber : jsval) (content : jsval) (countryCode : string).

(* ================================================================== *)
(** ** Methods as state-passing computations that may throw *)
(* ================================================================== *)

Definition M (A : Type) : Type := World -> World * list Effect * completion A.

Definition ret {A} (a : A) : M A := fun w => (w, [], Normal a).

Definition throw {A} (e : Error) : M A := fun w => (w, [], Throw e).

Definition bind {A B} (m : M A) (k : A -> M B) : M B :=
  fun w =>
    match m w with
    | (w1, t1, Normal a) =>
        match k a w1 with
        | (w2, t2, r) => (w2, (t1 ++ t2)%list, r)
        end
    | (w1, t1, Throw e) => (w1, t1, Throw e)
    end.

(** [try { body } catch (e) { handle e }]. *)
Definition try_catch {A} (body : M A) (handle : Error -> M A) : M A :=
  fun w =>
    match body w with
    | (w1, t1, Throw e) =>
        match handle e w1 with
        | (w2, t2, r) => (w2, (t1 ++ t2)%list, r)
        end
    | done => done
    end.

Definition emit (e : Effect) : M unit := fun w => (w, [e], Normal tt).

Definition lift {A} (c : completion A) : M A := fun w => (w, [], c).

Definition gets {A} (f : World -> A) : M A := fun w => (w, [], Normal (f w)).

Definition modify (f : World -> World) : M unit := fun w => (f w, [], Normal tt).

Notation "x <- c ;; k" := (bind c (fun x => k))
  (at level 100, c at next level, right associativity).
Notation "c ;; k" := (bind c (fun _ => k))
  (at level 100, right associativity).

Definition logger (level : Level.t) (text : string) : M unit := emit (Log level text).

Definition with_service (f : WhatsAppService -> WhatsAppService) (w : World) : World :=
  {| service := f (service w); handler := handler w;
     messages := messages w; sessionDir := sessionDir w |}.

Definition with_handler (f : MessageHandler -> MessageHandler) (w : World) : World :=
  {| service := service w; handler := f (handler w);
     messages := messages w; sessionDir := sessionDir w |}.

Definition with_messages (f : list Row.t -> list Row.t) (w : World) : World :=
  {| service := service w; handler := handler w;
     messages := f (messages w); sessionDir := sessionDir w |}.

Definition with_sessionDir (f : Dir -> Dir) (w : World) : World :=
  {| service := service w; handler := handler w;
     messages := messages w; sessionDir := f (sessionDir w) |}.

Definition set_client (c : option nat) (s : WhatsAppService) : WhatsAppService :=
  {| client := c; isReady := isReady s; qrCode := qrCode s;
     connectionStatus := connectionStatus s; messageHandlers := messageHandlers s |}.

Definition set_isReady (b : bool) (s : WhatsAppService) : WhatsAppService :=
  {| client := client s; isReady := b; qrCode := qrCode s;
     connectionStatus := connectionStatus s; messageHandlers := messageHandlers s |}.

Definition set_qrCode (q : option string) (s : WhatsAppService) : WhatsAppService :=
  {| client := client s; isReady := isReady s; qrCode := q;
     connectionStatus := connectionStatus s; messageHandlers := messageHandlers s |}.

Definition set_connectionStatus (c : ConnectionStatus) (s : WhatsAppService) : WhatsAppService :=
  {| client := client s; isReady := isReady s; qrCode := qrCode s;
     connectionStatus := c; messageHandlers := messageHandlers s |}.

Definition set_messageHandlers (h : list Handler) (s : WhatsAppService) : WhatsAppService :=
  {| client := client s; isReady := isReady s; qrCode := qrCode s;
     connectionStatus := connectionStatus s; messageHandlers := h |}.

Definition set_autoResponders (r : list (string * Responder.t)) (h : MessageHandler) : MessageHandler :=
  {| autoResponders := r; messageLog := messageLog h; maxLogSize := maxLogSize h |}.

Definition set_messageLog (l : list LogEntry) (h : MessageHandler) : MessageHandler :=
  {| autoResponders := autoResponders h; messageLog := l; maxLogSize := maxLogSize h |}.

(* ================================================================== *)
(** ** class WhatsAppService (whatsappService.js) *)
(* ================================================================== *)

Definition lockFiles : list string :=
  ["lockfile"; "DevToolsActivePort"; "SingletonLock"; "SingletonSocket"; "SingletonCookie"].

(** [fs.existsSync(path.join(sessionDir, name))]. *)
Definition existsSync (name : string) : M bool :=
  gets (fun w => bool_decide (is_Some (entries (sessionDir w) !! name))).

Definition remove_entry (name : string) (d : Dir) : Dir :=
  {| entries := delete name (entries d); writable := writable d |}.

(** [fs.unlinkSync(path.join(sessionDir, name))]: it removes a regular file
    of a directory that allows it, and throws otherwise. *)
Definition unlinkSync (name : string) : M unit :=
  d <- gets sessionDir ;;
  match entries d !! name with
  | None => throw (mkError "ENOENT: no such file or directory")
  | Some Directory => throw (mkError "EISDIR: illegal operation on a directory")
  | Some RegularFile =>
      if writable d
      then modify (with_sessionDir (remove_entry name)) ;; emit (Unlink name)
      else throw (mkError "EACCES: permission denied")
  end.

(** [for (const x of l) { body x }]. *)
Fixpoint for_of {A} (l : list A) (body : A -> M unit) : M unit :=
  match l with
  | [] => ret tt
  | x :: l' => body x ;; for_of l' body
  end.

(** The body of the loop of [cleanupStaleLocks]. *)
Definition remove_stale (lockFile : string) : M unit :=
  present <- existsSync lockFile ;;
  if (present : bool)
  then unlinkSync lockFile ;;
       logger Level.info ("Removed stale lock file: " +:+ lockFile)
  else ret tt.

Definition cleanupStaleLocks : M unit :=
  try_catch
    (for_of lockFiles remove_stale)
    (fun error => logger Level.warn "Could not clean up some lock files:").

Section Service.

Variable env : Env.

(** The search for a Chrome executable only selects an option handed to the
    client's constructor and is left out; [setupEventHandlers] registers the
    callbacks that [dispatch_event] below runs. *)
Definition initializeClient : M unit :=
  try_catch
    (cleanupStaleLocks ;;
     emit ClientNew ;;
     c <- lift (new_Client env) ;;
     modify (with_service (set_client (Some c))) ;;
     logger Level.info "WhatsApp client initialized successfully")
    (fun error =>
       logger Level.error "Failed to initialize WhatsApp client:" ;;
       throw (mkError "Client initialization failed")).

(** A method call on [this.client]; a [null] client makes it a TypeError. *)
Definition on_client {A} (call : Effect) (answer : completion A) : M A :=
  c <- gets (fun w => client (service w)) ;;
  match c with
  | None => throw (mkError "Cannot read properties of null")
  | Some _ => emit call ;; lift answer
  end.

Definition reset_session (s : WhatsAppService) : WhatsAppService :=
  set_qrCode None (set_connectionStatus disconnected (set_isReady false s)).

Definition start : M unit :=
  try_catch
    (c <- gets (fun w => client (service w)) ;;
     (match c with
      | Some _ =>
          try_catch
            (logger Level.info "Destroying existing client before reconnecting..." ;;
             on_client ClientDestroy (client_destroy env))
            (fun destroyError =>
               logger Level.warn "Could not destroy existing client (may not be running):") ;;
          modify (with_service (fun s => set_client None (reset_session s))) ;;
          cleanupStaleLocks
      | None => ret tt
      end) ;;
     logger Level.info "Reinitializing WhatsApp client..." ;;
     initializeClient ;;
     logger Level.info "Starting WhatsApp client..." ;;
     on_client ClientInitialize (client_initialize env) ;;
     logger Level.info "WhatsApp client initialization completed")
    (fun error =>
       logger Level.error "Failed to start WhatsApp client:" ;;
       throw error).

Definition stop : M unit :=
  try_catch
    (c <- gets (fun w => client (service w)) ;;
     match c with
     | Some _ =>
         on_client ClientDestroy (client_destroy env) ;;
         modify (with_service reset_session) ;;
         logger Level.info "WhatsApp client stopped successfully"
     | None => ret tt
     end)
    (fun error =>
       logger Level.error "Failed to stop WhatsApp client:" ;;
       throw error).

(** The callbacks installed by [setupEventHandlers], except [message]. *)
Definition on_qr (qr : string) : M unit :=
  try_catch
    (modify (with_service (set_connectionStatus connecting)) ;;
     url <- lift (QRCode_toDataURL env qr) ;;
     modify (with_service (set_qrCode (Some url))) ;;
     logger Level.info "QR Code generated successfully" ;;
     qrTerminal <- lift (QRCode_toString env qr) ;;
     logger Level.info "QR Code for terminal:")
    (fun error => logger Level.error "Failed to generate QR code:").

Definition on_ready : M unit :=
  modify (with_service (fun s =>
    set_qrCode None (set_connectionStatus authenticated (set_isReady true s)))) ;;
  logger Level.info "WhatsApp client is ready and authenticated".

Definition on_authenticated : M unit :=
  modify (with_service (set_connectionStatus connected)) ;;
  logger Level.info "WhatsApp client authenticated successfully".

Definition on_auth_failure (msg : string) : M unit :=
  modify (with_service (fun s => set_isReady false (set_connectionStatus disconnected s))) ;;
  logger Level.error "Authentication failed:".

Definition on_disconnected (reason : string) : M unit :=
  modify (with_service reset_session) ;;
  logger Level.warn "WhatsApp client disconnected:".

Definition on_error (e : Error) : M unit :=
  logger Level.error "WhatsApp client error:".

(** The template-literal rendering of a value. *)
Definition display (v : jsval) : string :=
  match v with
  | VUndefined => "undefined"
  | VNull => "null"
  | VBool true => "true"
  | VBool false => "false"
  | VNumber z => Z_to_string z
  | VString s => s
  end.

(** [!message || message.trim().length === 0]; a truthy value that is not a
    string has no [trim]. *)
Definition message_is_empty (message : jsval) : completion bool :=
  if negb (truthy message) then Normal true
  else match message with
       | VString m => Normal (String.length (trim m) =? 0)%nat
       | _ => Throw (mkError "message.trim is not a function")
       end.

Definition not_ready : Error :=
  mkError "WhatsApp client is not ready. Please authenticate first.".

Definition markedUnread_note : string :=
  "Message likely delivered (markedUnread bug workaround)".

(** The inner [try]/[catch] around [client.sendMessage]: [inl] carries the
    client's result on, [inr] is the object that the [catch] block returns
    from the method. *)
Definition guarded_send (chatId : string) (message : jsval) (pending : SendResult.t)
  : M (SendAck + SendResult.t) :=
  try_catch
    (result <- on_client (ClientSendMessage chatId message)
                         (client_sendMessage env chatId message) ;;
     ret (inl result))
    (fun sendError =>
       if negb (Js.message sendError =? "") && includes (Js.message sendError) "markedUnread"
       then logger Level.warn "markedUnread bug encountered - message likely sent" ;;
            ret (inr pending)
       else throw sendError).

Definition sendMessage (phoneNumber message : jsval) (countryCode : string)
  : M SendResult.t :=
  try_catch
    (ready <- gets (fun w => isReady (service w)) ;;
     if negb ready then throw not_ready else
     if negb (Validator.validatePhoneNumber phoneNumber)
     then throw (mkError "Invalid phone number format") else
     empty <- lift (message_is_empty message) ;;
     if (empty : bool) then throw (mkError "Message cannot be empty") else
     formattedNumber <- lift (Validator.formatPhoneNumber phoneNumber countryCode) ;;
     numberId <- on_client (ClientGetNumberId formattedNumber)
                           (client_getNumberId env formattedNumber) ;;
     match numberId with
     | None =>
         throw (mkError ("Phone number " +:+ display phoneNumber
                         +:+ " is not registered on WhatsApp"))
     | Some serialized =>
         sent <- guarded_send serialized message
                   (SendResult.mk true
                      (Some ("pending-" +:+ Z_to_string (dateNow env 0)))
                      (Some (dateNow env 1 / 1000)%Z)
                      (VString formattedNumber) (Some phoneNumber) message
                      (Some countryCode) (Some markedUnread_note) None) ;;
         match sent with
         | inr early => ret early
         | inl result =>
             logger Level.info "Message sent successfully" ;;
             ret (SendResult.mk true (Some (ack_id result)) (Some (ack_timestamp result))
                    (VString formattedNumber) (Some phoneNumber) message
                    (Some countryCode) None None)
         end
     end)
    (fun error =>
       logger Level.error "Failed to send message:" ;;
       ret (SendResult.mk false None None phoneNumber None message None None
              (Some (Js.message error)))).

Definition sendToChat (chatId : string) (message : jsval) : M SendResult.t :=
  try_catch
    (ready <- gets (fun w => isReady (service w)) ;;
     if negb ready then throw not_ready else
     empty <- lift (message_is_empty message) ;;
     if (empty : bool) then throw (mkError "Message cannot be empty") else
     sent <- guarded_send chatId message
               (SendResult.mk true
                  (Some ("pending-" +:+ Z_to_string (dateNow env 0)))
                  (Some (dateNow env 1 / 1000)%Z)
                  (VString chatId) None message None (Some markedUnread_note) None) ;;
     match sent with
     | inr early => ret early
     | inl result =>
         logger Level.info "Message sent successfully to chat" ;;
         ret (SendResult.mk true (Some (ack_id result)) (Some (ack_timestamp result))
                (VString chatId) None message None None None)
     end)
    (fun error =>
       logger Level.error "Failed to send message to chat:" ;;
       ret (SendResult.mk false None None (VString chatId) None message None None
              (Some (Js.message error)))).

(** [new WhatsAppService()]: the fields of the constructor, then
    [initializeClient()]. *)
Definition fresh_service : WhatsAppService :=
  {| client := None; isReady := false; qrCode := None;
     connectionStatus := disconnected; messageHandlers := [] |}.

Definition addMessageHandler (handler : Handler + jsval) : M unit :=
  match handler with
  | inl f =>
      modify (with_service (fun s => set_messageHandlers (messageHandlers s ++ [f])%list s)) ;;
      logger Level.info "Message handler registered"
  | inr _ => throw (mkError "Handler must be a function")
  end.

Definition getStatus (w : World) : Status.t :=
  let s := service w in
  Status.mk (isReady s) (connectionStatus s)
    (match qrCode s with Some q => truthy (VString q) | None => false end)
    (length (messageHandlers s)) (dateNow env 0).

Definition getQrCode (w : World) : option string := qrCode (service w).

(* ------------------------------------------------------------------ *)
(** *** class MessageHandler (messageHandler.js) *)
(* ------------------------------------------------------------------ *)

Definition fresh_handler : MessageHandler :=
  {| autoResponders := []; messageLog := []; maxLogSize := 1000 |}.

(** [l.slice(-n)]: the last [n] elements, and the whole array when [n] is 0. *)
Definition slice_last {A} (n : nat) (l : list A) : list A :=
  if (n =? 0)%nat then l else drop (length l - n) l.

Definition addToMessageLog (messageData : MessageData.t) : M unit :=
  modify (with_handler (fun h =>
    set_messageLog
      (messageLog h ++ [{| entry := messageData; processedAt := dateNow env 0 |}])%list h)) ;;
  h <- gets handler ;;
  if (maxLogSize h <? length (messageLog h))%nat
  then modify (with_handler (set_messageLog (slice_last (maxLogSize h) (messageLog h))))
  else ret tt.

Definition isOwnMessage (messageData : MessageData.t) : bool :=
  MessageData.fromMe messageData || false.

Definition shouldProcessGroupMessages : bool := false.

(** [new Date(timestamp * 1000).toISOString()] throws a RangeError outside
    the range of Date. *)
Definition logMessageDetails (messageData : MessageData.t) : M unit :=
  if (8640000000000000 <? Z.abs (MessageData.timestamp messageData * 1000))%Z
  then throw (mkError "Invalid time value")
  else logger Level.info "Message processed:".

Definition matchesTrigger (messageText : string) (trigger : Trigger) : M jsval :=
  try_catch
    (match trigger with
     | TPrimitive (VString t) => ret (VBool (includes messageText (toLowerCase t)))
     | TRegExp _ test => ret (VBool (test messageText))
     | TFunction f => lift (f messageText)
     | TPrimitive _ => ret (VBool false)
     end)
    (fun error =>
       logger Level.error "Error matching trigger:" ;;
       ret (VBool false)).

(** The two blocks of [executeAutoResponder]: the response of the rule, and
    the body of [if (response) { ... }]. *)
Definition resolve_response (responder : Responder.t) (messageData : MessageData.t)
  : M jsval :=
  match Responder.response responder with
  | RPrimitive (VString r) => ret (VString r)
  | RFunction f => lift (f messageData)
  | RPrimitive _ => ret (VString "")
  end.

Definition send_response (messageData : MessageData.t) (response : jsval) : M unit :=
  senderNumber <- match MessageData.from messageData with
                  | Some f => ret (replace (replace f "@c.us" "") "972" "")
                  | None => throw (mkError "Cannot read properties of undefined")
                  end ;;
  emit (ServiceSendMessage (VString senderNumber) response "972") ;;
  result <- sendMessage (VString senderNumber) response "972" ;;
  if SendResult.success result
  then logger Level.info "Auto-response sent"
  else logger Level.error "Failed to send auto-response".

Definition executeAutoResponder (responder : Responder.t) (messageData : MessageData.t)
  : M unit :=
  try_catch
    (response <- resolve_response responder messageData ;;
     if truthy response then send_response messageData response else ret tt)
    (fun error => logger Level.error "Error executing auto-responder:").

(** The loop of [checkAutoResponders] over the entries of the Map, in
    insertion order; [break] after the first responder run. *)
Fixpoint responders_loop (rules : list (string * Responder.t)) (messageText : string)
  (messageData : MessageData.t) : M unit :=
  match rules with
  | [] => ret tt
  | (key, responder) :: rest =>
      matched <- (if Responder.enabled responder
                  then emit (TriggerTest key) ;;
                       v <- matchesTrigger messageText (Responder.trigger responder) ;;
                       ret (truthy v)
                  else ret false) ;;
      if (matched : bool)
      then executeAutoResponder responder messageData
      else responders_loop rest messageText messageData
  end.

Definition checkAutoResponders (messageData : MessageData.t) : M unit :=
  try_catch
    (if negb (MessageData.type messageData =? "chat") then ret tt else
     messageText <- match MessageData.body messageData with
                    | Some b => ret (trim (toLowerCase b))
                    | None => throw (mkError "Cannot read properties of undefined")
                    end ;;
     rules <- gets (fun w => autoResponders (handler w)) ;;
     responders_loop rules messageText messageData)
    (fun error => logger Level.error "Error in auto-responder processing:").

Definition processMessage (messageData : MessageData.t) : M unit :=
  try_catch
    (addToMessageLog messageData ;;
     if MessageData.isGroupMsg messageData && negb shouldProcessGroupMessages
     then logger Level.debug "Skipping group message processing"
     else if isOwnMessage messageData
     then logger Level.debug "Skipping own message"
     else checkAutoResponders messageData ;;
          if negb (MessageData.fromMe messageData)
          then logMessageDetails messageData
          else ret tt)
    (fun error => logger Level.error "Error in message processing:").

(** [Map.prototype.set]: an existing key keeps its place. *)
Fixpoint map_set {V} (key : string) (v : V) (m : list (string * V)) : list (string * V) :=
  match m with
  | [] => [(key, v)]
  | (k, x) :: m' => if k =? key then (key, v) :: m' else (k, x) :: map_set key v m'
  end.

(** [Map.prototype.get]. *)
Fixpoint map_get {V} (key : string) (m : list (string * V)) : option V :=
  match m with
  | [] => None
  | (k, x) :: m' => if k =? key then Some x else map_get key m'
  end.

Definition addAutoResponder (trigger : Trigger) (response : Response) (options : Options.t)
  : M string :=
  try_catch
    (let responderId :=
       match Options.id options with
       | Some i => if truthy (VString i) then i
                   else "responder_" +:+ Z_to_string (dateNow env 0)
       | None => "responder_" +:+ Z_to_string (dateNow env 0)
       end in
     let enabled := match Options.enabled options with Some false => false | _ => true end in
     let description :=
       match Options.description options with
       | Some d => if truthy (VString d) then d else ""
       | None => ""
       end in
     (* the members of [options] are spread last and win *)
     let responder :=
       Responder.mk
         (match Options.id options with Some i => i | None => responderId end)
         trigger response
         (match Options.enabled options with Some b => b | None => enabled end)
         (dateNow env 1)
         (match Options.description options with Some d => d | None => description end) in
     modify (with_handler (fun h =>
       set_autoResponders (map_set responderId responder (autoResponders h)) h)) ;;
     logger Level.info ("Auto-responder added: " +:+ responderId) ;;
     ret responderId)
    (fun error =>
       logger Level.error "Error adding auto-responder:" ;;
       throw error).

(* ------------------------------------------------------------------ *)
(** *** Dispatch of an inbound message (whatsappService.js) *)
(* ------------------------------------------------------------------ *)

(** [INSERT OR REPLACE INTO messages ...] on the primary key [id]. *)
Definition insert_or_replace (row : Row.t) (table : list Row.t) : list Row.t :=
  (filter (fun r => Row.id r <> Row.id row) table ++ [row])%list.

Definition invoke (h : Handler) (messageData : MessageData.t) : M unit :=
  match h with
  | ProcessMessage => processMessage messageData
  | External run => emit (HandlerCall (MessageData.id messageData)) ;; lift (run messageData)
  end.

(** The blocks of [handleIncomingMessage], in the order of the source: the
    insertion into the table, the webhook, the handler chain. *)
Definition messageData_of (message : Message.t) : MessageData.t :=
  MessageData.mk (Message.id message) (Message.from message) (Message.to message)
    (Message.body message) (Message.timestamp message) (Message.type message)
    (Message.isGroupMsg message) (Message.author message)
    (Message.notifyName message) (Message.fromMe message).

Definition row_of (messageData : MessageData.t) : Row.t :=
  Row.mk (MessageData.id messageData) (MessageData.from messageData)
    (MessageData.to messageData) (MessageData.body messageData)
    (MessageData.timestamp messageData) (MessageData.type messageData)
    (if MessageData.isGroupMsg messageData then 1 else 0)%Z 0%Z.

Definition save_message (messageData : MessageData.t) : M unit :=
  try_catch
    (emit (DbRun (row_of messageData)) ;;
     lift (insert_run env (row_of messageData)) ;;
     modify (with_messages (insert_or_replace (row_of messageData))))
    (fun dbErr => logger Level.error "Failed to save message to DB:").

Definition webhookPayload_of (message : Message.t) (isGroup : bool) : WebhookPayload.t :=
  WebhookPayload.mk (Message.id_serialized message) (Message.from message)
    (Message.to message) (Message.body message) (Message.timestamp message)
    (Message.fromMe message) isGroup (Message.author message)
    (Message.notifyName message) (Message.type message).

Definition send_webhook (message : Message.t) : M unit :=
  match WEBHOOK_URL env with
  | Some url =>
      if truthy (VString url) then
        try_catch
          (isGroup <- match Message.from message with
                      | Some f => ret (includes f "@g.us")
                      | None => throw (mkError "Cannot read properties of undefined")
                      end ;;
           emit (HttpPost url (webhookPayload_of message isGroup)) ;;
           lift (axios_post env url (webhookPayload_of message isGroup)) ;;
           logger Level.info "Webhook sent successfully")
          (fun webhookError => logger Level.error "Failed to send webhook:")
      else ret tt
  | None => ret tt
  end.

Definition run_handlers (messageData : MessageData.t) : M unit :=
  handlers <- gets (fun w => messageHandlers (service w)) ;;
  for_of handlers (fun h =>
    try_catch (invoke h messageData)
              (fun handlerError => logger Level.error "Message handler error:")).

Definition handleIncomingMessage (message : Message.t) : M unit :=
  try_catch
    (let messageData := messageData_of message in
     save_message messageData ;;
     (if negb (Message.fromMe message)
      then logger Level.info "Incoming message received"
      else ret tt) ;;
     send_webhook message ;;
     run_handlers messageData)
    (fun error => logger Level.error "Error processing incoming message:").

Definition on_message (message : Message.t) : M unit :=
  try_catch (handleIncomingMessage message)
            (fun error => logger Level.error "Error handling incoming message:").

End Service.

(* ================================================================== *)
(** ** The process: constructors, client events and API calls in sequence *)
(* ================================================================== *)

(** The events of the messaging client that [setupEventHandlers] listens to. *)
Inductive ClientEvent : Type :=
| EvQr (qr : string)
| EvReady
| EvAuthenticated
| EvLoadingScreen (percent : Z) (text : string)
| EvAuthFailure (msg : string)
| EvDisconnected (reason : string)
| EvMessage (message : Message.t)
| EvError (e : Error).

Definition dispatch_event (env : Env) (ev : ClientEvent) : M unit :=
  match ev with
  | EvQr qr => on_qr env qr
  | EvReady => on_ready
  | EvAuthenticated => on_authenticated
  | EvLoadingScreen _ _ => ret tt
  | EvAuthFailure msg => on_auth_failure msg
  | EvDisconnected reason => on_disconnected reason
  | EvMessage message => on_message env message
  | EvError e => on_error e
  end.

(** What can happen to the service during the life of the process: the
    lifecycle calls, a client event, and the registration calls. *)
Inductive Operation : Type :=
| OpStart
| OpStop
| OpEvent (ev : ClientEvent)
| OpAddMessageHandler (h : Handler + jsval)
| OpAddAutoResponder (trigger : Trigger) (response : Response) (options : Options.t)
| OpSendMessage (phoneNumber message : jsval) (countryCode : string)
| OpSendToChat (chatId : string) (message : jsval).

Definition discard {A} (m : M A) : M unit := m ;; ret tt.

Definition perform (env : Env) (op : Operation) : M unit :=
  match op with
  | OpStart => start env
  | OpStop => stop env
  | OpEvent ev => dispatch_event env ev
  | OpAddMessageHandler h => addMessageHandler h
  | OpAddAutoResponder t r o => discard (addAutoResponder env t r o)
  | OpSendMessage p m c => discard (sendMessage env p m c)
  | OpSendToChat c m => discard (sendToChat env c m)
  end.

Definition world_after {A} (m : M A) (w : World) : World := fst (fst (m w)).
Definition trace_of {A} (m : M A) (w : World) : list Effect := snd (fst (m w)).
Definition outcome {A} (m : M A) (w : World) : completion A := snd (m w).

(** A caller that gets an exception back goes on with the state as the
    method left it. *)
Fixpoint run (ops : list (Env * Operation)) (w : World) : World :=
  match ops with
  | [] => w
  | (env, op) :: rest => run rest (world_after (perform env op) w)
  end.

(** [new WhatsAppService()] followed by [new MessageHandler(service)], over a
    session directory and a [messages] table found on disk. *)
Definition construct (env : Env) : M unit :=
  initializeClient env ;;
  addMessageHandler (inl ProcessMessage).

Definition blank_world (d : Dir) (table : list Row.t) : World :=
  {| service := fresh_service; handler := fresh_handler;
     messages := table; sessionDir := d |}.

Definition constructed (env : Env) (d : Dir) (table : list Row.t) : World :=
  world_after (construct env) (blank_world d table).

(** Projections of a trace. *)
Definition is_client_call (e : Effect) : bool :=
  match e with
  | ClientNew | ClientInitialize | ClientDestroy
  | ClientGetNumberId _ | ClientSendMessage _ _ => true
  | _ => false
  end.

Definition is_unlink (e : Effect) : bool :=
  match e with Unlink _ => true | _ => false end.

Definition is_reply (e : Effect) : bool :=
  match e with ServiceSendMessage _ _ _ => true | _ => false end.

Definition is_webhook (e : Effect) : bool :=
  match e with HttpPost _ _ => true | _ => false end.

Definition is_trigger_test (e : Effect) : bool :=
  match e with TriggerTest _ => true | _ => false end.

Definition replies (t : list Effect) : list Effect := List.filter is_reply t.

Definition tested (t : list Effect) : list Effect := List.filter is_trigger_test t.

(** An environment in which every collaborator answers without failing. *)
Definition quiet_env : Env :=
  {| WEBHOOK_URL := None;
     dateNow := fun _ => 1700000000000%Z;
     new_Client := Normal 1%nat;
     client_initialize := Normal tt;
     client_destroy := Normal tt;
     client_getNumberId := fun n => Normal (Some n);
     client_sendMessage := fun _ _ => Normal {| ack_id := "3EB0"; ack_timestamp := 1700000000 |};
     axios_post := fun _ _ => Normal tt;
     insert_run := fun _ => Normal tt;
     QRCode_toDataURL := fun qr => Normal ("data:image/png;base64," +:+ qr);
     QRCode_toString := fun qr => Normal qr |}.

Definition empty_dir : Dir := {| entries := ∅; writable := true |}.

(* ================================================================== *)
(** ** The remaining functions of the validator, the message handler and
       the service *)
(* ================================================================== *)

(** *** utils/validator: [validateMessage], [sanitizeInput],
        [validateSendMessageParams] *)

Module ValidationResult.
Record t : Type := mk { isValid : bool; errors : list string }.
End ValidationResult.

Definition validateMessage (message : jsval) : ValidationResult.t :=
  if negb (truthy message)
  then ValidationResult.mk false ["Message is required"]
  else match message with
       | VString m =>
           if (String.length (trim m) =? 0)%nat
           then ValidationResult.mk false ["Message cannot be empty"]
           else if (4096 <? String.length m)%nat
           then ValidationResult.mk false
                  ["Message exceeds maximum length of 4096 characters"]
           else ValidationResult.mk true []
       | _ => ValidationResult.mk false ["Message must be a string"]
       end.

Fixpoint take_chars (n : nat) (s : string) : string :=
  match n, s with
  | S n', String c s' => String c (take_chars n' s')
  | _, _ => EmptyString
  end.

(** [s.substring(0, n)]; a negative [n] counts as 0. *)
Definition substring_to (n : Z) (s : string) : string := take_chars (Z.to_nat n) s.

(** [sanitizeInput(input, options)]; [maxLength] is [options.maxLength]. *)
Definition sanitizeInput (input : jsval) (maxLength : option Z) : string :=
  match input with
  | VString i =>
      if negb (truthy input) then "" else
      let sanitized := trim i in
      match maxLength with
      | Some n =>
          if truthy (VNumber n) && (n <? Z.of_nat (String.length sanitized))%Z
          then substring_to n sanitized
          else sanitized
      | None => sanitized
      end
  | _ => ""
  end.

(** [validateSendMessageParams({phoneNumber, message})]. *)
Definition validateSendMessageParams (phoneNumber message : jsval) : ValidationResult.t :=
  let result :=
    if negb (Validator.validatePhoneNumber phoneNumber)
    then ValidationResult.mk false ["Invalid Israeli phone number format"]
    else ValidationResult.mk true [] in
  let messageValidation := validateMessage message in
  if negb (ValidationResult.isValid messageValidation)
  then ValidationResult.mk false
         (ValidationResult.errors result ++ ValidationResult.errors messageValidation)%list
  else result.

(** *** class MessageHandler: the registry and the message log *)

(** [Map.prototype.delete]. *)
Fixpoint map_delete {V} (key : string) (m : list (string * V)) : list (string * V) :=
  match m with
  | [] => []
  | (k, x) :: m' => if k =? key then m' else (k, x) :: map_delete key m'
  end.

(** [Map.prototype.has]. *)
Definition map_has {V} (key : string) (m : list (string * V)) : bool :=
  match map_get key m with Some _ => true | None => false end.

Definition removeAutoResponder (responderId : string) : M bool :=
  try_catch
    (rules <- gets (fun w => autoResponders (handler w)) ;;
     let removed := map_has responderId rules in
     modify (with_handler (fun h =>
       set_autoResponders (map_delete responderId (autoResponders h)) h)) ;;
     (if removed
      then logger Level.info ("Auto-responder removed: " +:+ responderId)
      else ret tt) ;;
     ret removed)
    (fun error =>
       logger Level.error "Error removing auto-responder:" ;;
       ret false).

Definition set_enabled (enabled : bool) (r : Responder.t) : Responder.t :=
  Responder.mk (Responder.id r) (Responder.trigger r) (Responder.response r) enabled
    (Responder.createdAt r) (Responder.description r).

(** The responder is an object held by the Map: the assignment to its
    [enabled] member changes the entry where it stands. *)
Definition toggleAutoResponder (responderId : string) (enabled : bool) : M bool :=
  try_catch
    (found <- gets (fun w => map_get responderId (autoResponders (handler w))) ;;
     match found with
     | Some responder =>
         modify (with_handler (fun h =>
           set_autoResponders
             (map_set responderId (set_enabled enabled responder) (autoResponders h)) h)) ;;
         logger Level.info ("Auto-responder " +:+ responderId +:+
                            (if enabled then " enabled" else " disabled")) ;;
         ret true
     | None => ret false
     end)
    (fun error =>
       logger Level.error "Error toggling auto-responder:" ;;
       ret false).

(** An element of the array that [getAutoResponders] returns. *)
Module ResponderView.
Record t : Type := mk {
  id : string;
  trigger : string;
  response : Response;
  enabled : bool;
  createdAt : Z;
  description : string
}.
End ResponderView.

(** [trigger.toString()]: [undefined] and [null] have no members; a string,
    a number and a boolean render as in a template literal; for a RegExp
    and a function the text is that of the object, given by [show]. *)
Definition trigger_toString (show : Trigger -> string) (trigger : Trigger)
  : completion string :=
  match trigger with
  | TPrimitive VUndefined | TPrimitive VNull =>
      Throw (mkError "Cannot read properties of undefined (reading 'toString')")
  | TPrimitive v => Normal (display v)
  | _ => Normal (show trigger)
  end.

(** [Array.prototype.map] with a callback that may throw. *)
Fixpoint map_throwing {A B} (f : A -> completion B) (l : list A) : completion (list B) :=
  match l with
  | [] => Normal []
  | x :: l' =>
      match f x with
      | Throw e => Throw e
      | Normal y =>
          match map_throwing f l' with
          | Throw e => Throw e
          | Normal ys => Normal (y :: ys)
          end
      end
  end.

Definition view_of (show : Trigger -> string) (kr : string * Responder.t)
  : completion ResponderView.t :=
  match trigger_toString show (Responder.trigger (snd kr)) with
  | Throw e => Throw e
  | Normal t =>
      Normal (ResponderView.mk (Responder.id (snd kr)) t (Responder.response (snd kr))
                (Responder.enabled (snd kr)) (Responder.createdAt (snd kr))
                (Responder.description (snd kr)))
  end.

Definition getAutoResponders (show : Trigger -> string) : M (list ResponderView.t) :=
  rules <- gets (fun w => autoResponders (handler w)) ;;
  lift (map_throwing (view_of show) rules).

(** [l.slice(start)]: a negative [start] counts from the end. *)
Definition slice_from {A} (start : Z) (l : list A) : list A :=
  let len := Z.of_nat (length l) in
  drop (Z.to_nat (if (start <? 0)%Z then Z.max (len + start) 0 else Z.min start len)) l.

(** [getRecentMessages(limit)], a read of [messageLog]. *)
Definition getRecentMessages (limit : Z) (w : World) : list LogEntry :=
  slice_from (- limit) (messageLog (handler w)).

(** The [criteria] of [searchMessages]; an absent member is [None]. The
    dates [after] and [before] are given in milliseconds. *)
Module Criteria.
Record t : Type := mk {
  from : option string;
  body : option string;
  type : option string;
  isGroupMsg : option bool;
  after : option Z;
  before : option Z
}.
Definition empty : t := mk None None None None None None.
End Criteria.

(** The time value of [new Date(ms)]; outside the range of Date it is NaN,
    which compares false with everything. *)
Definition time_value (ms : Z) : option Z :=
  if (Z.abs ms <=? 8640000000000000)%Z then Some ms else None.

Definition date_lt (a b : Z) : bool :=
  match time_value a, time_value b with
  | Some x, Some y => (x <? y)%Z
  | _, _ => false
  end.

(** The callback of the [filter] of [searchMessages]: one [if ... return
    false] after the other. *)
Definition matches_criteria (criteria : Criteria.t) (msg : LogEntry) : completion bool :=
  let m := entry msg in
  match
    (match Criteria.from criteria with
     | Some f =>
         if truthy (VString f) then
           match MessageData.from m with
           | Some sender => Normal (negb (includes sender f))
           | None => Throw (mkError "Cannot read properties of undefined (reading 'includes')")
           end
         else Normal false
     | None => Normal false
     end)
  with
  | Throw e => Throw e
  | Normal true => Normal false
  | Normal false =>
      if match Criteria.body criteria with
         | Some b =>
             truthy (VString b) &&
             negb (match MessageData.body m with
                   | Some text => includes (toLowerCase text) (toLowerCase b)
                   | None => false
                   end)
         | None => false
         end
      then Normal false
      else if match Criteria.type criteria with
              | Some t => truthy (VString t) && negb (MessageData.type m =? t)
              | None => false
              end
      then Normal false
      else if match Criteria.isGroupMsg criteria with
              | Some g => negb (Bool.eqb (MessageData.isGroupMsg m) g)
              | None => false
              end
      then Normal false
      else if match Criteria.after criteria with
              | Some a => truthy (VNumber a) && date_lt (MessageData.timestamp m * 1000) a
              | None => false
              end
      then Normal false
      else if match Criteria.before criteria with
              | Some b => truthy (VNumber b) && date_lt b (MessageData.timestamp m * 1000)
              | None => false
              end
      then Normal false
      else Normal true
  end.

(** [Array.prototype.filter] with a callback that may throw. *)
Fixpoint filter_throwing {A} (f : A -> completion bool) (l : list A) : completion (list A) :=
  match l with
  | [] => Normal []
  | x :: l' =>
      match f x with
      | Throw e => Throw e
      | Normal keep =>
          match filter_throwing f l' with
          | Throw e => Throw e
          | Normal xs => Normal (if keep then x :: xs else xs)
          end
      end
  end.

Definition searchMessages (criteria : Criteria.t) : M (list LogEntry) :=
  try_catch
    (log <- gets (fun w => messageLog (handler w)) ;;
     lift (filter_throwing (matches_criteria criteria) log))
    (fun error =>
       logger Level.error "Error searching messages:" ;;
       ret []).

(** *** class WhatsAppService: [isRegisteredNumber] and [replyToMessage] *)

Definition isRegisteredNumber (env : Env) (phoneNumber : jsval) (countryCode : string)
  : M bool :=
  try_catch
    (ready <- gets (fun w => isReady (service w)) ;;
     if negb ready then throw (mkError "WhatsApp client is not ready") else
     formattedNumber <- lift (Validator.formatPhoneNumber phoneNumber countryCode) ;;
     numberId <- on_client (ClientGetNumberId formattedNumber)
                           (client_getNumberId env formattedNumber) ;;
     ret (match numberId with Some _ => true | None => false end))
    (fun error =>
       logger Level.error "Error checking number registration:" ;;
       ret false).

(** The last element of [s.split('_')]. *)
Fixpoint last_part (s : string) : string :=
  match s with
  | EmptyString => EmptyString
  | String c s' =>
      if includes s' "_" then last_part s'
      else if Ascii.eqb c "_"%char then s' else s
  end.

(** [UPDATE messages SET processed = 1 WHERE id = ?]. *)
Definition mark_processed (messageId : string) (table : list Row.t) : list Row.t :=
  List.map (fun r =>
    if Row.id r =? messageId
    then Row.mk (Row.id r) (Row.fromNumber r) (Row.toNumber r) (Row.body r)
           (Row.timestamp r) (Row.type r) (Row.isGroupMsg r) 1%Z
    else r) table.

Module ReplyResult.
Record t : Type := mk { success : bool; message : option string; error : option string }.
End ReplyResult.

(** [replyToMessage(messageId, replyMessage)]. The two calls on the client
    side, [getMessageById(originalMessageId)] and then
    [message.reply(replyMessage)], have no [Effect] of their own: [replied]
    is how they end, and [update_run] how the UPDATE statement ends. *)
Definition replyToMessage (replied update_run : completion unit) (messageId : jsval)
  : M ReplyResult.t :=
  try_catch
    (shortId <- match messageId with
                | VString i => ret (if includes i "_" then last_part i else i)
                | _ => throw (mkError "messageId.includes is not a function")
                end ;;
     c <- gets (fun w => client (service w)) ;;
     match c with
     | None => throw (mkError "Cannot read properties of null")
     | Some _ =>
         lift replied ;;
         lift update_run ;;
         modify (with_messages (mark_processed shortId)) ;;
         logger Level.info "Reply sent successfully to message" ;;
         ret (ReplyResult.mk true (Some "Reply sent successfully") None)
     end)
    (fun error =>
       logger Level.error "Failed to reply to message:" ;;
       ret (ReplyResult.mk false None (Some (Js.message error)))).

(* ================================================================== *)
(** ** Vocabulary of the properties *)
(* ================================================================== *)

(** The registry of the message handler, and the ids of a registry in
    their order. *)
Definition registry (w : World) : list (string * Responder.t) := autoResponders (handler w).

Definition keys {V} (m : list (string * V)) : list string := List.map fst m.

(** A trigger that is [undefined] or [null]. *)
Definition nullish_trigger (t : Trigger) : bool :=
  match t with
  | TPrimitive VUndefined | TPrimitive VNull => true
  | _ => false
  end.

(** The message log of the handler. *)
Definition log_of (w : World) : list LogEntry := messageLog (handler w).

(** The message log is within its bound of 1000 entries. *)
Definition log_within_bound (w : World) : Prop :=
  maxLogSize (handler w) = 1000%nat /\ (length (messageLog (handler w)) <= 1000)%nat.

(** The session fields that [start] works on: those of a session whose
    client, if it had one, has been dropped. *)
Definition dropped_session (s : WhatsAppService) : WhatsAppService :=
  match client s with
  | Some _ => set_client None (reset_session s)
  | None => s
  end.

Definition is_handler_call (e : Effect) : bool :=
  match e with HandlerCall _ => true | _ => false end.

Definition is_external (h : Handler) : bool :=
  match h with External _ => true | ProcessMessage => false end.

(** An effect that is not the call of a handler of another module. *)
Definition not_a_handler_call (e : Effect) : Prop := is_handler_call e = false.

(** The [processed] flags of the rows with a given id. *)
Definition processed_of (messageId : string) (table : list Row.t) : list Z :=
  List.map Row.processed (List.filter (fun r => Row.id r =? messageId) table).

(** The text is made of decimal digits only. *)
Fixpoint all_digits (s : string) : bool :=
  match s with
  | EmptyString => true
  | String c s' => is_digit c && all_digits s'
  end.


(** Two worlds agree on a component; a list component only grows. *)
Definition same {B} (f : World -> B) : relation World := fun w w' => f w = f w'.

Definition grows {B} (f : World -> list B) : relation World :=
  fun w w' => f w `prefix_of` f w'.

(** [m] relates every world to the one it leaves, and emits only effects
    in [P]. *)
Definition respects (R : relation World) (P : Effect -> Prop) {A} (m : M A) : Prop :=
  forall w, R w (world_after m w) /\ Forall P (trace_of m w).

(** The handler chain of the service. *)
Definition handlers (w : World) : list Handler := messageHandlers (service w).

Definition any_effect : Effect -> Prop := fun _ => True.

(** A property of the world that holds after whenever it held before. *)
Definition keeps (I : World -> Prop) : relation World := fun w w' => I w -> I w'.

(** While the status is ['authenticated'] there is no QR code. *)
Definition no_qr_when_ready (w : World) : Prop :=
  connectionStatus (service w) = authenticated -> qrCode (service w) = None.

(** A QR code is shown and the session becomes ready; a QR code is shown
    and the phone only authenticates. *)
Definition scan_then_ready : list (Env * Operation) :=
  [(quiet_env, OpEvent (EvQr "2@pairing")); (quiet_env, OpEvent EvReady)].

Definition scan_then_authenticated : list (Env * Operation) :=
  [(quiet_env, OpEvent (EvQr "2@pairing")); (quiet_env, OpEvent EvAuthenticated)].



(** The process after its constructors and the [ready] event. *)
Definition ready_world : World :=
  run [(quiet_env, OpEvent EvReady)] (constructed quiet_env empty_dir []).

(** The three kinds of trigger that [matchesTrigger] knows: a string, a
    RegExp, a function. *)
Definition supported_trigger (t : Trigger) : bool :=
  match t with
  | TPrimitive (VString _) | TRegExp _ _ | TFunction _ => true
  | TPrimitive _ => false
  end.

(** The quiet environment with a webhook URL configured. *)
Definition hook_env : Env :=
  {| WEBHOOK_URL := Some "http://localhost:9000/hook";
     dateNow := dateNow quiet_env;
     new_Client := new_Client quiet_env;
     client_initialize := client_initialize quiet_env;
     client_destroy := client_destroy quiet_env;
     client_getNumberId := client_getNumberId quiet_env;
     client_sendMessage := client_sendMessage quiet_env;
     axios_post := axios_post quiet_env;
     insert_run := insert_run quiet_env;
     QRCode_toDataURL := QRCode_toDataURL quiet_env;
     QRCode_toString := QRCode_toString quiet_env |}.

(** A message that this account wrote itself. *)
Definition own_message : Message.t :=
  Message.mk "3EB0A1" "true_972501234567@c.us_3EB0A1" (Some "972500000000@c.us")
    (Some "972501234567@c.us") (Some "on my way") 1700000000 "chat" false None None true.

(** The log that [addToMessageLog] leaves: the entry pushed, and the last
    [n] entries kept when there are more. *)
Definition log_push (n : nat) (l : list LogEntry) (e : LogEntry) : list LogEntry :=
  if (n <? length (l ++ [e])%list)%nat then slice_last n (l ++ [e])%list else (l ++ [e])%list.

(** An inbound text message, and the same event delivered again. *)
Definition hello_message : Message.t :=
  Message.mk "3EB0C7" "false_972501234567@c.us_3EB0C7" (Some "972501234567@c.us")
    (Some "972500000000@c.us") (Some "  Hello  ") 1700000000 "chat" false None
    (Some "Dana") false.

(** The process after the same event was delivered twice. *)
Definition delivered_twice : World :=
  run [(quiet_env, OpEvent (EvMessage hello_message));
       (quiet_env, OpEvent (EvMessage hello_message))]
      (constructed quiet_env empty_dir []).

(** What [matchesTrigger] returns (a trigger that throws counts as false). *)
Definition trigger_value (messageText : string) (trigger : Trigger) : jsval :=
  match trigger with
  | TPrimitive (VString t) => VBool (includes messageText (toLowerCase t))
  | TRegExp _ test => VBool (test messageText)
  | TFunction f => match f messageText with Normal v => v | Throw _ => VBool false end
  | TPrimitive _ => VBool false
  end.

(** The rule is enabled and its trigger matches the text. *)
Definition fires (messageText : string) (responder : Responder.t) : bool :=
  Responder.enabled responder && truthy (trigger_value messageText (Responder.trigger responder)).

(** The response of a rule for a message (a producer that throws gives no
    response). *)
Definition resolved_response (responder : Responder.t) (messageData : MessageData.t) : jsval :=
  match Responder.response responder with
  | RPrimitive (VString r) => VString r
  | RFunction f => match f messageData with Normal v => v | Throw _ => VString "" end
  | RPrimitive _ => VString ""
  end.

(** The calls to [whatsappService.sendMessage] that running a rule makes. *)
Definition expected_replies (responder : Responder.t) (messageData : MessageData.t)
  : list Effect :=
  match MessageData.from messageData with
  | Some f =>
      if truthy (resolved_response responder messageData)
      then [ServiceSendMessage (VString (replace (replace f "@c.us" "") "972" ""))
              (resolved_response responder messageData) "972"]
      else []
  | None => []
  end.

(** The keys of the enabled rules, as tests of their triggers. *)
Definition tests_of (rules : list (string * Responder.t)) : list Effect :=
  List.map (fun kr => TriggerTest (fst kr))
           (List.filter (fun kr => Responder.enabled (snd kr)) rules).

(** An effect that is neither a reply nor the test of a trigger. *)
Definition silent (e : Effect) : Prop := is_reply e = false /\ is_trigger_test e = false.

(** A session that is ready, with the rule ["hello" -> "hi!"]. *)
Definition greeting_world : World :=
  run [(quiet_env, OpEvent EvReady);
       (quiet_env, OpAddAutoResponder (TPrimitive (VString "hello"))
                     (RPrimitive (VString "hi!")) Options.empty)]
      (constructed quiet_env empty_dir []).

(** Two enabled rules whose triggers both match ["hello"]; the producer of
    the first one answers with the empty string. *)
Definition muted_world : World :=
  run [(quiet_env, OpEvent EvReady);
       (quiet_env, OpAddAutoResponder (TPrimitive (VString "hello"))
                     (RFunction (fun _ => Normal (VString "")))
                     (Options.mk (Some "muted") None None));
       (quiet_env, OpAddAutoResponder (TPrimitive (VString "hel"))
                     (RPrimitive (VString "hi!"))
                     (Options.mk (Some "greeting") None None))]
      (constructed quiet_env empty_dir []).

(** The log line of an inbound message, and every other effect. *)
Definition incoming_line : Effect := Log Level.info "Incoming message received".

Definition other_line (e : Effect) : Prop := e <> incoming_line.

(** The object that the outer [catch] of a send returns: [success: false]
    and the message of the error. *)
Definition failed_with (r : SendResult.t) (text : string) : Prop :=
  SendResult.success r = false /\ SendResult.error r = Some text.

(** The test of the inner [catch] of a send:
    [sendError.message && sendError.message.includes('markedUnread')]. *)
Definition spurious (e : Error) : bool :=
  negb (Js.message e =? "") && includes (Js.message e) "markedUnread".

(** [client.sendMessage] returned, or threw the error that the inner
    [catch] takes for a delivery. *)
Definition answered (env : Env) (target : string) (message : jsval) : Prop :=
  (exists ack, client_sendMessage env target message = Normal ack) \/
  (exists e, client_sendMessage env target message = Throw e /\ spurious e = true).

(** A send gets as far as the client: the session is ready, the text is
    not empty and a client is held. *)
Definition reaches_client (w : World) (message : jsval) : Prop :=
  isReady (service w) = true /\
  message_is_empty message = Normal false /\
  is_Some (client (service w)).

(** A rule whose trigger and response are plain values: neither a pattern
    nor a function. *)
Definition plain_rule (kr : string * Responder.t) : Prop :=
  match Responder.trigger (snd kr), Responder.response (snd kr) with
  | TPrimitive _, RPrimitive _ => True
  | _, _ => False
  end.

(** A client that is up and whose [sendMessage] fails with an error of
    another kind. *)
Definition failing_env : Env :=
  {| WEBHOOK_URL := None;
     dateNow := dateNow quiet_env;
     new_Client := new_Client quiet_env;
     client_initialize := client_initialize quiet_env;
     client_destroy := client_destroy quiet_env;
     client_getNumberId := client_getNumberId quiet_env;
     client_sendMessage := fun _ _ => Throw (mkError "Evaluation failed");
     axios_post := axios_post quiet_env;
     insert_run := insert_run quiet_env;
     QRCode_toDataURL := QRCode_toDataURL quiet_env;
     QRCode_toString := QRCode_toString quiet_env |}.

(* ================================================================== *)
(** * Properties *)
(* ================================================================== *)

(** ** The examples of the specification, run on the embedding *)

Example validate_local_mobile :
  Validator.validatePhoneNumber (VString "0501234567") = true.
Proof. reflexivity. Qed.

Example validate_too_short :
  Validator.validatePhoneNumber (VString "123") = false.
Proof. reflexivity. Qed.

Example format_local_mobile :
  Validator.formatPhoneNumber (VString "0501234567") "972" = Normal "972501234567@c.us".
Proof. reflexivity. Qed.

Example trim_lower_hello : trim (toLowerCase "  Hello  ") = "hello".
Proof. reflexivity. Qed.

Example replace_first_only : replace "972509721111@c.us" "972" "" = "509721111@c.us".
Proof. reflexivity. Qed.

Example hello_gets_one_reply :
  replies (trace_of (handleIncomingMessage quiet_env hello_message) greeting_world)
  = [ServiceSendMessage (VString "501234567") (VString "hi!") "972"].
Proof. vm_compute. reflexivity. Qed.

Example log_keeps_the_last_three :
  List.map processedAt
    (slice_last 3 (List.map (fun z => {| entry := messageData_of hello_message;
                                         processedAt := z |}) [1; 2; 3; 4; 5]%Z))
  = [3; 4; 5]%Z.
Proof. reflexivity. Qed.

(** ** Running a computation step by step *)

Lemma bind_normal {A B} (m : M A) (k : A -> M B) w w1 t1 a :
  m w = (w1, t1, Normal a) ->
  bind m k w = (world_after (k a) w1, (t1 ++ trace_of (k a) w1)%list, outcome (k a) w1).
Proof.
  intros Hm. unfold bind, world_after, trace_of, outcome. rewrite Hm.
  destruct (k a w1) as [[w2 t2] r]. reflexivity.
Qed.

Lemma bind_throw {A B} (m : M A) (k : A -> M B) w w1 t1 e :
  m w = (w1, t1, Throw e) -> bind m k w = (w1, t1, Throw e).
Proof. intros Hm. unfold bind. rewrite Hm. reflexivity. Qed.

Lemma try_catch_normal {A} (m : M A) (h : Error -> M A) w w1 t1 a :
  m w = (w1, t1, Normal a) -> try_catch m h w = (w1, t1, Normal a).
Proof. intros Hm. unfold try_catch. rewrite Hm. reflexivity. Qed.

Lemma try_catch_throw {A} (m : M A) (h : Error -> M A) w w1 t1 e :
  m w = (w1, t1, Throw e) ->
  try_catch m h w = (world_after (h e) w1, (t1 ++ trace_of (h e) w1)%list, outcome (h e) w1).
Proof.
  intros Hm. unfold try_catch, world_after, trace_of, outcome. rewrite Hm.
  destruct (h e w1) as [[w2 t2] r]. reflexivity.
Qed.

Lemma surjective_run {A} (m : M A) w :
  m w = (world_after m w, trace_of m w, outcome m w).
Proof. unfold world_after, trace_of, outcome. destruct (m w) as [[? ?] ?]. reflexivity. Qed.

(** ** The lock reconciler *)

Lemma remove_stale_absent w n :
  entries (sessionDir w) !! n = None -> remove_stale n w = (w, [], Normal tt).
Proof.
  intros Hn. unfold remove_stale, existsSync, gets, bind. rewrite Hn.
  reflexivity.
Qed.

Lemma remove_stale_removed w n :
  entries (sessionDir w) !! n = Some RegularFile -> writable (sessionDir w) = true ->
  remove_stale n w =
    (with_sessionDir (remove_entry n) w,
     [Unlink n; Log Level.info ("Removed stale lock file: " +:+ n)], Normal tt).
Proof.
  intros Hn Hw. unfold remove_stale, existsSync, unlinkSync, gets, bind. rewrite Hn.
  simpl. rewrite Hn, Hw. reflexivity.
Qed.

Lemma remove_stale_stuck w n e :
  entries (sessionDir w) !! n = Some e ->
  e = Directory \/ writable (sessionDir w) = false ->
  exists err, remove_stale n w = (w, [], Throw err).
Proof.
  intros Hn Hstuck. unfold remove_stale, existsSync, unlinkSync, gets, bind. rewrite Hn.
  simpl. rewrite Hn.
  destruct e; [destruct (writable (sessionDir w)) eqn:Hw | ]; simpl.
  - destruct Hstuck; discriminate.
  - eexists; reflexivity.
  - eexists; reflexivity.
Qed.

(** The three ways in which one pass over a marker can go. *)
Lemma remove_stale_cases w n :
  (entries (sessionDir w) !! n = None /\ remove_stale n w = (w, [], Normal tt))
  \/ (entries (sessionDir w) !! n = Some RegularFile /\
      remove_stale n w =
        (with_sessionDir (remove_entry n) w,
         [Unlink n; Log Level.info ("Removed stale lock file: " +:+ n)], Normal tt))
  \/ (is_Some (entries (sessionDir w) !! n) /\ exists err, remove_stale n w = (w, [], Throw err)).
Proof.
  destruct (entries (sessionDir w) !! n) as [e|] eqn:Hn.
  - destruct e.
    + destruct (writable (sessionDir w)) eqn:Hw.
      * right; left. split; [reflexivity | by apply remove_stale_removed].
      * right; right. split; [by eexists | ]. eapply remove_stale_stuck; eauto.
    + right; right. split; [by eexists | ]. eapply remove_stale_stuck; eauto.
  - left. split; [reflexivity | by apply remove_stale_absent].
Qed.

Lemma sweep_keeps_absent names : forall w n,
  entries (sessionDir w) !! n = None ->
  entries (sessionDir (world_after (for_of names remove_stale) w)) !! n = None.
Proof.
  induction names as [|x rest IH]; intros w n Hn; [exact Hn | ].
  cbn [for_of].
  destruct (remove_stale_cases w x) as [[_ Hx] | [[_ Hx] | [_ [err Hx]]]].
  - unfold world_after at 1. rewrite (bind_normal _ _ _ _ _ _ Hx). simpl. by apply IH.
  - unfold world_after at 1. rewrite (bind_normal _ _ _ _ _ _ Hx). simpl. apply IH.
    simpl. destruct (decide (x = n)) as [->|Hne].
    + apply lookup_delete_eq.
    + rewrite lookup_delete_ne; done.
  - unfold world_after. rewrite (bind_throw _ _ _ _ _ _ Hx). exact Hn.
Qed.

Lemma sweep_twice names : forall w,
  let w1 := world_after (for_of names remove_stale) w in
  world_after (for_of names remove_stale) w1 = w1 /\
  List.filter is_unlink (trace_of (for_of names remove_stale) w1) = [].
Proof.
  induction names as [|x rest IH]; intros w; [split; reflexivity | ].
  cbn zeta. cbn [for_of].
  destruct (remove_stale_cases w x) as [[Hn Hx] | [[Hn Hx] | [Hn [err Hx]]]].
  - assert (Hw1 : world_after (remove_stale x ;; for_of rest remove_stale) w
                  = world_after (for_of rest remove_stale) w).
    { unfold world_after at 1. by rewrite (bind_normal _ _ _ _ _ _ Hx). }
    rewrite Hw1.
    pose proof (remove_stale_absent _ _ (sweep_keeps_absent rest w x Hn)) as Hx2.
    unfold world_after at 1, trace_of at 1.
    rewrite (bind_normal _ _ _ _ _ _ Hx2). simpl. apply IH.
  - assert (Hw1 : world_after (remove_stale x ;; for_of rest remove_stale) w
                  = world_after (for_of rest remove_stale)
                      (with_sessionDir (remove_entry x) w)).
    { unfold world_after at 1. by rewrite (bind_normal _ _ _ _ _ _ Hx). }
    rewrite Hw1.
    assert (Hgone : entries (sessionDir (with_sessionDir (remove_entry x) w)) !! x = None)
      by apply lookup_delete_eq.
    pose proof (remove_stale_absent _ _ (sweep_keeps_absent rest _ x Hgone)) as Hx2.
    unfold world_after at 1, trace_of at 1.
    rewrite (bind_normal _ _ _ _ _ _ Hx2). simpl. apply IH.
  - assert (Hw1 : world_after (remove_stale x ;; for_of rest remove_stale) w = w).
    { unfold world_after. by rewrite (bind_throw _ _ _ _ _ _ Hx). }
    rewrite Hw1. unfold world_after, trace_of.
    rewrite (bind_throw _ _ _ _ _ _ Hx). split; reflexivity.
Qed.

Lemma cleanupStaleLocks_runs w :
  cleanupStaleLocks w =
    (world_after (for_of lockFiles remove_stale) w, trace_of cleanupStaleLocks w, Normal tt).
Proof.
  unfold trace_of, cleanupStaleLocks, try_catch.
  rewrite (surjective_run (for_of lockFiles remove_stale) w).
  destruct (outcome (for_of lockFiles remove_stale) w) as [[]|e]; reflexivity.
Qed.

Lemma cleanupStaleLocks_unlinks w :
  List.filter is_unlink (trace_of cleanupStaleLocks w)
  = List.filter is_unlink (trace_of (for_of lockFiles remove_stale) w).
Proof.
  unfold trace_of at 1. unfold cleanupStaleLocks, try_catch.
  rewrite (surjective_run (for_of lockFiles remove_stale) w).
  destruct (outcome (for_of lockFiles remove_stale) w) as [[]|e]; simpl; [reflexivity | ].
  rewrite List.filter_app. simpl. apply app_nil_r.
Qed.

(** C7. Whatever the session directory holds, [cleanupStaleLocks] returns
    normally; run again on the directory it left, it returns normally,
    leaves the directory (and the rest of the state) as it was and unlinks
    nothing. This covers the directory in which no marker is present. *)
Theorem cleanupStaleLocks_idempotent : forall w,
  exists w1 t1 t2,
    cleanupStaleLocks w = (w1, t1, Normal tt) /\
    cleanupStaleLocks w1 = (w1, t2, Normal tt) /\
    List.filter is_unlink t2 = [].
Proof.
  intros w.
  exists (world_after (for_of lockFiles remove_stale) w),
         (trace_of cleanupStaleLocks w),
         (trace_of cleanupStaleLocks (world_after (for_of lockFiles remove_stale) w)).
  destruct (sweep_twice lockFiles w) as [Hsame Hnone].
  split; [apply cleanupStaleLocks_runs | ].
  split.
  - rewrite cleanupStaleLocks_runs. by rewrite Hsame.
  - rewrite cleanupStaleLocks_unlinks. exact Hnone.
Qed.

(** ** Frame rules: what a method leaves alone, and what it may emit *)

#[global] Instance same_preorder {B} (f : World -> B) : PreOrder (same f).
Proof. split; [intros w; reflexivity | intros a b c; unfold same; congruence]. Qed.

#[global] Instance grows_preorder {B} (f : World -> list B) : PreOrder (grows f).
Proof.
  split; [intros w; unfold grows; reflexivity | ].
  intros a b c; unfold grows; intros; by etrans.
Qed.

Section Respects.

Context (R : relation World) `{!PreOrder R} (P : Effect -> Prop).

Lemma respects_ret {A} (a : A) : respects R P (ret a).
Proof. intros w; split; [reflexivity | constructor]. Qed.

Lemma respects_throw {A} e : respects R P (@throw A e).
Proof. intros w; split; [reflexivity | constructor]. Qed.

Lemma respects_lift {A} (c : completion A) : respects R P (lift c).
Proof. intros w; split; [reflexivity | constructor]. Qed.

Lemma respects_gets {A} (f : World -> A) : respects R P (gets f).
Proof. intros w; split; [reflexivity | constructor]. Qed.

Lemma respects_emit e : P e -> respects R P (emit e).
Proof. intros He w; split; [reflexivity | by repeat constructor]. Qed.

Lemma respects_logger level text : P (Log level text) -> respects R P (logger level text).
Proof. apply respects_emit. Qed.

Lemma respects_modify f : (forall w, R w (f w)) -> respects R P (modify f).
Proof. intros Hf w; split; [apply Hf | constructor]. Qed.

Lemma respects_bind {A B} (m : M A) (k : A -> M B) :
  respects R P m -> (forall a, respects R P (k a)) -> respects R P (bind m k).
Proof.
  intros Hm Hk w. specialize (Hm w).
  unfold world_after, trace_of, bind in *.
  destruct (m w) as [[w1 t1] [a|e]]; simpl in *; [ | exact Hm].
  specialize (Hk a w1). unfold world_after, trace_of in Hk.
  destruct (k a w1) as [[w2 t2] r]; simpl in *.
  destruct Hm, Hk. split; [by etrans | by apply Forall_app].
Qed.

Lemma respects_try_catch {A} (m : M A) (h : Error -> M A) :
  respects R P m -> (forall e, respects R P (h e)) -> respects R P (try_catch m h).
Proof.
  intros Hm Hh w. specialize (Hm w).
  unfold world_after, trace_of, try_catch in *.
  destruct (m w) as [[w1 t1] [a|e]]; simpl in *; [exact Hm | ].
  specialize (Hh e w1). unfold world_after, trace_of in Hh.
  destruct (h e w1) as [[w2 t2] r]; simpl in *.
  destruct Hm, Hh. split; [by etrans | by apply Forall_app].
Qed.

Lemma respects_for_of {A} (l : list A) (body : A -> M unit) :
  (forall x, respects R P (body x)) -> respects R P (for_of l body).
Proof.
  intros Hbody. induction l as [|x l IH]; cbn [for_of].
  - apply respects_ret.
  - apply respects_bind; [apply Hbody | intros _; exact IH].
Qed.

End Respects.

(** Decompose a method along its syntax; leaves what needs a reason. *)
Ltac frame :=
  repeat first
    [ match goal with
      | |- PreOrder _ => apply _
      | |- forall _, _ => intros ?
      | |- same _ _ _ => unfold same; simpl; reflexivity
      | |- grows _ _ _ => unfold grows; simpl; reflexivity
      | |- True => exact I
      | |- _ = _ => reflexivity
      | |- respects _ _ (ret _) => apply respects_ret
      | |- respects _ _ (throw _) => apply respects_throw
      | |- respects _ _ (lift _) => apply respects_lift
      | |- respects _ _ (gets _) => apply respects_gets
      | |- respects _ _ (logger _ _) => apply respects_logger
      | |- respects _ _ (emit _) => apply respects_emit
      | |- respects _ _ (modify _) => apply respects_modify
      | |- respects _ _ (for_of _ _) => apply respects_for_of
      | |- respects _ _ (bind _ _) => apply respects_bind
      | |- respects _ _ (try_catch _ _) => apply respects_try_catch
      | |- respects _ _ (match ?x with _ => _ end) => destruct x
      end
    | solve [ auto with frames nocore ]
    | progress cbv beta ].

Create HintDb frames.

(** *** Lifecycle calls and the handler chain *)

Lemma cleanupStaleLocks_keeps_service : respects (same service) (fun _ => True) cleanupStaleLocks.
Proof. unfold cleanupStaleLocks, remove_stale, existsSync, unlinkSync. frame. Qed.

#[global] Hint Resolve cleanupStaleLocks_keeps_service : frames.

Lemma same_service_handlers {A} (m : M A) :
  respects (same service) (fun _ => True) m -> respects (same handlers) (fun _ => True) m.
Proof.
  intros H w. destruct (H w) as [Hs Ht]. split; [ | exact Ht].
  unfold same, handlers in *. by rewrite Hs.
Qed.

Lemma cleanupStaleLocks_keeps_handlers : respects (same handlers) (fun _ => True) cleanupStaleLocks.
Proof. apply same_service_handlers, cleanupStaleLocks_keeps_service. Qed.

#[global] Hint Resolve cleanupStaleLocks_keeps_handlers : frames.

Lemma initializeClient_keeps_handlers env :
  respects (same handlers) (fun _ => True) (initializeClient env).
Proof. unfold initializeClient. frame. Qed.

#[global] Hint Resolve initializeClient_keeps_handlers : frames.

Lemma start_keeps_handlers env : respects (same handlers) (fun _ => True) (start env).
Proof. unfold start, on_client. frame. Qed.

Lemma stop_keeps_handlers env : respects (same handlers) (fun _ => True) (stop env).
Proof. unfold stop, on_client. frame. Qed.

Lemma respects_weaken {A} (R R' : relation World) `{!PreOrder R} `{!PreOrder R'}
  (P P' : Effect -> Prop) (m : M A) :
  (forall w w', R w w' -> R' w w') -> (forall e, P e -> P' e) ->
  respects R P m -> respects R' P' m.
Proof.
  intros HR HP Hm w. destruct (Hm w) as [Hw Ht]. split; [by apply HR | ].
  eapply Forall_impl; eauto.
Qed.

(** *** The send path changes nothing and only talks to the client *)

Section SendFrames.

Context (R : relation World) `{!PreOrder R} (P : Effect -> Prop).
Hypothesis P_log : forall level text, P (Log level text).
Hypothesis P_client : forall e, is_client_call e = true -> P e.

Lemma on_client_respects {A} call (answer : completion A) :
  is_client_call call = true -> respects R P (on_client call answer).
Proof. intros Hcall. unfold on_client. frame; eauto. Qed.

Lemma guarded_send_respects env chatId message pending :
  respects R P (guarded_send env chatId message pending).
Proof. unfold guarded_send. frame; eauto using on_client_respects. Qed.

Lemma sendMessage_respects env phoneNumber message countryCode :
  respects R P (sendMessage env phoneNumber message countryCode).
Proof.
  unfold sendMessage.
  frame; eauto using on_client_respects, guarded_send_respects.
Qed.

Lemma sendToChat_respects env chatId message :
  respects R P (sendToChat env chatId message).
Proof. unfold sendToChat. frame; eauto using guarded_send_respects. Qed.

(** *** The auto-response engine changes nothing either *)

Hypothesis P_test : forall key, P (TriggerTest key).
Hypothesis P_reply : forall p m c, P (ServiceSendMessage p m c).

Lemma matchesTrigger_respects messageText trigger :
  respects R P (matchesTrigger messageText trigger).
Proof. unfold matchesTrigger. frame; eauto. Qed.

Lemma executeAutoResponder_respects env responder messageData :
  respects R P (executeAutoResponder env responder messageData).
Proof.
  unfold executeAutoResponder, resolve_response, send_response.
  frame; eauto using sendMessage_respects.
Qed.

Lemma responders_loop_respects env rules messageText messageData :
  respects R P (responders_loop env rules messageText messageData).
Proof.
  induction rules as [|[key responder] rest IH]; cbn [responders_loop].
  - frame.
  - apply respects_bind; try apply _.
    + destruct (Responder.enabled responder); frame; eauto using matchesTrigger_respects.
    + intros [|]; [apply executeAutoResponder_respects | exact IH].
Qed.

Lemma checkAutoResponders_respects env messageData :
  respects R P (checkAutoResponders env messageData).
Proof. unfold checkAutoResponders. frame; eauto using responders_loop_respects. Qed.

(** *** Dispatch writes the message log and the table, nothing else *)

Hypothesis R_handler : forall f w, R w (with_handler f w).

Lemma processMessage_respects env messageData :
  respects R P (processMessage env messageData).
Proof.
  unfold processMessage, addToMessageLog, logMessageDetails.
  frame; eauto using checkAutoResponders_respects.
Qed.

Hypothesis R_messages : forall f w, R w (with_messages f w).
Hypothesis P_db : forall row, P (DbRun row).
Hypothesis P_http : forall url payload, P (HttpPost url payload).
Hypothesis P_call : forall i, P (HandlerCall i).

Lemma invoke_respects env h messageData : respects R P (invoke env h messageData).
Proof. destruct h; cbn [invoke]; [apply processMessage_respects | frame; eauto]. Qed.

Lemma run_handlers_respects env messageData :
  respects R P (run_handlers env messageData).
Proof. unfold run_handlers. frame; eauto using invoke_respects. Qed.

Lemma send_webhook_respects env message :
  respects R P (send_webhook env message).
Proof. unfold send_webhook. frame; eauto. Qed.

Lemma handleIncomingMessage_respects env message :
  respects R P (handleIncomingMessage env message).
Proof.
  unfold handleIncomingMessage, save_message.
  frame; eauto using run_handlers_respects, send_webhook_respects.
Qed.

End SendFrames.

(** *** Every call and event of the process, against the handler chain *)

Lemma dispatch_event_keeps_handlers env ev :
  respects (same handlers) any_effect (dispatch_event env ev).
Proof.
  destruct ev; cbn [dispatch_event];
    unfold on_qr, on_ready, on_authenticated, on_auth_failure, on_disconnected,
           on_error, on_message, any_effect; frame.
  apply handleIncomingMessage_respects; try apply _; done.
Qed.

Lemma lifecycle_keeps_handlers env op :
  match op with OpAddMessageHandler _ => False | _ => True end ->
  respects (same handlers) any_effect (perform env op).
Proof.
  destruct op; cbn [perform]; intros Hop; try contradiction.
  - apply start_keeps_handlers.
  - apply stop_keeps_handlers.
  - apply dispatch_event_keeps_handlers.
  - unfold discard, addAutoResponder, any_effect. frame.
  - unfold discard, any_effect. frame. apply sendMessage_respects; try apply _; done.
  - unfold discard, any_effect. frame. apply sendToChat_respects; try apply _; done.
Qed.

Lemma addMessageHandler_grows h :
  respects (grows handlers) any_effect (addMessageHandler h).
Proof.
  unfold addMessageHandler, any_effect. frame.
  unfold grows, handlers. simpl. by apply prefix_app_r.
Qed.

Lemma perform_grows_handlers env op :
  respects (grows handlers) any_effect (perform env op).
Proof.
  destruct op;
    try (eapply (respects_weaken (same handlers) (grows handlers));
         [ | | apply lifecycle_keeps_handlers; exact I ];
         [ unfold same, grows; intros ? ? ->; reflexivity | done ]).
  apply addMessageHandler_grows.
Qed.

Lemma run_grows_handlers ops : forall w, handlers w `prefix_of` handlers (run ops w).
Proof.
  induction ops as [|[env op] rest IH]; intros w; cbn [run]; [reflexivity | ].
  etrans; [ | apply IH]. apply (perform_grows_handlers env op w).
Qed.

(** C10. [start] and [stop] return the handler chain they found (whether
    they return normally or throw), and so does every client event; over
    any sequence of calls and events of the process the chain only grows at
    its end, so the [handlersCount] that [getStatus] reports never
    decreases and a registered handler stays registered. *)
Theorem handler_chain_survives_lifecycle : forall env w,
  messageHandlers (service (world_after (start env) w)) = messageHandlers (service w) /\
  messageHandlers (service (world_after (stop env) w)) = messageHandlers (service w) /\
  (forall ev, messageHandlers (service (world_after (dispatch_event env ev) w))
              = messageHandlers (service w)) /\
  (forall ops env',
     messageHandlers (service w) `prefix_of` messageHandlers (service (run ops w)) /\
     (Status.handlersCount (getStatus env w)
      <= Status.handlersCount (getStatus env' (run ops w)))%nat).
Proof.
  intros env w. repeat split.
  - symmetry. apply (start_keeps_handlers env w).
  - symmetry. apply (stop_keeps_handlers env w).
  - intros ev. symmetry. apply (dispatch_event_keeps_handlers env ev w).
  - apply (run_grows_handlers ops w).
  - simpl. apply prefix_length, (run_grows_handlers ops w).
Qed.

(** ** The QR code across the session lifecycle *)

#[global] Instance keeps_preorder (I : World -> Prop) : PreOrder (keeps I).
Proof. split; [intros w H; exact H | intros a b c Hab Hbc H; auto]. Qed.

Lemma same_service_keeps {A} (m : M A) :
  respects (same service) any_effect m -> respects (keeps no_qr_when_ready) any_effect m.
Proof.
  apply respects_weaken; try apply _; [ | done].
  unfold same, keeps, no_qr_when_ready. intros w w' <-. done.
Qed.

Ltac keeps_side :=
  unfold keeps, no_qr_when_ready; simpl; intros; first [done | congruence | auto].

Lemma initializeClient_keeps env :
  respects (keeps no_qr_when_ready) any_effect (initializeClient env).
Proof.
  unfold initializeClient, any_effect. frame; try keeps_side.
  apply same_service_keeps, cleanupStaleLocks_keeps_service.
Qed.

Lemma start_keeps env : respects (keeps no_qr_when_ready) any_effect (start env).
Proof.
  unfold start, on_client, any_effect. frame; try keeps_side.
  - apply same_service_keeps, cleanupStaleLocks_keeps_service.
  - apply initializeClient_keeps.
Qed.

Lemma stop_keeps env : respects (keeps no_qr_when_ready) any_effect (stop env).
Proof. unfold stop, on_client, any_effect. frame; keeps_side. Qed.

Lemma on_qr_world env qr w :
  service (world_after (on_qr env qr) w) =
    match QRCode_toDataURL env qr with
    | Normal url => set_qrCode (Some url) (set_connectionStatus connecting (service w))
    | Throw _ => set_connectionStatus connecting (service w)
    end.
Proof.
  unfold on_qr, world_after, try_catch, bind, modify, lift, logger, emit.
  destruct (QRCode_toDataURL env qr); [ | reflexivity].
  destruct (QRCode_toString env qr); reflexivity.
Qed.

Lemma dispatch_event_keeps env ev :
  respects (keeps no_qr_when_ready) any_effect (dispatch_event env ev).
Proof.
  destruct ev; cbn [dispatch_event].
  - intros w. split; [ | apply Forall_forall; done].
    unfold keeps, no_qr_when_ready. rewrite on_qr_world.
    destruct (QRCode_toDataURL env qr); simpl; discriminate.
  - unfold on_ready, any_effect; frame; keeps_side.
  - unfold on_authenticated, any_effect; frame; keeps_side.
  - unfold any_effect; frame.
  - unfold on_auth_failure, any_effect; frame; keeps_side.
  - unfold on_disconnected, any_effect; frame; keeps_side.
  - apply same_service_keeps. unfold on_message, any_effect. frame.
    apply handleIncomingMessage_respects; try apply _; done.
  - unfold on_error, any_effect; frame.
Qed.

Lemma perform_keeps env op :
  respects (keeps no_qr_when_ready) any_effect (perform env op).
Proof.
  destruct op; cbn [perform].
  - apply start_keeps.
  - apply stop_keeps.
  - apply dispatch_event_keeps.
  - unfold addMessageHandler, any_effect. frame; keeps_side.
  - apply same_service_keeps. unfold discard, addAutoResponder, any_effect. frame.
  - apply same_service_keeps. unfold discard, any_effect. frame.
    apply sendMessage_respects; try apply _; done.
  - apply same_service_keeps. unfold discard, any_effect. frame.
    apply sendToChat_respects; try apply _; done.
Qed.

Lemma run_keeps ops : forall w, no_qr_when_ready w -> no_qr_when_ready (run ops w).
Proof.
  induction ops as [|[env op] rest IH]; intros w Hw; cbn [run]; [exact Hw | ].
  apply IH. by apply (perform_keeps env op w).
Qed.

Lemma constructed_no_qr env d table : no_qr_when_ready (constructed env d table).
Proof.
  unfold constructed, construct.
  assert (H : respects (keeps no_qr_when_ready) any_effect
                (initializeClient env ;; addMessageHandler (inl ProcessMessage))).
  { unfold addMessageHandler, any_effect. frame; try keeps_side.
    apply initializeClient_keeps. }
  apply (H (blank_world d table)). unfold no_qr_when_ready. simpl. discriminate.
Qed.

(** C2, as the code has it. In every state that the process can reach, the
    QR code is absent while the status is ['authenticated'] (the state
    entered by the [ready] event). From any such state: a [qr] event whose
    image renders stores the QR code and sets the status ['connecting'];
    the [ready] and [disconnected] events clear it, and so does a [stop]
    that destroys the client; the [authenticated] event leaves the QR code
    as it was. *)
Theorem qrCode_lifecycle : forall env0 d table ops,
  let w := run ops (constructed env0 d table) in
  (connectionStatus (service w) = authenticated -> qrCode (service w) = None) /\
  (forall env qr url,
     QRCode_toDataURL env qr = Normal url ->
     qrCode (service (world_after (on_qr env qr) w)) = Some url /\
     connectionStatus (service (world_after (on_qr env qr) w)) = connecting) /\
  qrCode (service (world_after on_ready w)) = None /\
  (forall reason, qrCode (service (world_after (on_disconnected reason) w)) = None) /\
  (forall env c,
     client (service w) = Some c -> client_destroy env = Normal tt ->
     qrCode (service (world_after (stop env) w)) = None) /\
  qrCode (service (world_after on_authenticated w)) = qrCode (service w).
Proof.
  intros env0 d table ops w. repeat split.
  - apply run_keeps, constructed_no_qr.
  - rewrite on_qr_world, H. reflexivity.
  - rewrite on_qr_world, H. reflexivity.
  - intros env c Hc Hd. clearbody w.
    unfold stop, on_client, world_after, try_catch, bind, gets, emit, lift, modify, logger.
    cbn beta. rewrite Hc. cbn beta iota. rewrite Hc, Hd. reflexivity.
Qed.

Lemma qrCode_lifecycle_witness :
  qrCode (service (run scan_then_ready (constructed quiet_env empty_dir []))) = None.
Proof.
  apply (proj1 (qrCode_lifecycle quiet_env empty_dir [] scan_then_ready)).
  reflexivity.
Defined.

(** After [qr] and then [authenticated] the status is ['connected'], no
    longer the ['connecting'] of a pending scan, and [getStatus] still
    reports a QR code: its presence is not equivalent to a pending scan. *)
Lemma qrCode_outlives_scan :
  let w := run scan_then_authenticated (constructed quiet_env empty_dir []) in
  Status.connectionStatus (getStatus quiet_env w) = connected /\
  ~ (Status.hasQrCode (getStatus quiet_env w) = true
     <-> Status.connectionStatus (getStatus quiet_env w) = connecting).
Proof.
  split; [reflexivity | ].
  intros [Hpresent _]. specialize (Hpresent eq_refl). discriminate Hpresent.
Qed.

(** ** Sending *)

Ltac run_monad :=
  unfold bind, try_catch, gets, lift, throw, ret, emit, modify, logger,
         on_client, guarded_send in *.

(** Split a method into the paths that the answers of the world select. *)
Ltac paths := repeat (case_match; run_monad; simplify_eq/=).

Lemma whitespace_only_trimStart s : whitespace_only s = true -> trimStart s = "".
Proof.
  induction s as [|c s IH]; simpl; [done | ].
  intros [Hc Hs]%andb_prop. rewrite Hc. by apply IH.
Qed.

Lemma whitespace_only_empty s :
  whitespace_only s = true -> message_is_empty (VString s) = Normal true.
Proof.
  intros Hs. unfold message_is_empty. simpl.
  destruct (s =? "") eqn:E; simpl; [done | ].
  unfold trim. by rewrite (whitespace_only_trimStart s Hs).
Qed.


(** C8. Whatever the state of the session, a text that is empty or made of
    whitespace only is refused by [sendMessage] and by [sendToChat] with a
    [success: false] result, the state is left as it was, and no call to
    the messaging client (neither [getNumberId] nor [sendMessage]) is
    made. With a ready session (and, for [sendMessage], a valid number) the
    error is the one of the empty message. *)
Theorem blank_text_rejected_before_client :
  forall env w phoneNumber countryCode chatId text,
    whitespace_only text = true ->
    (List.filter is_client_call
       (trace_of (sendMessage env phoneNumber (VString text) countryCode) w) = [] /\
     world_after (sendMessage env phoneNumber (VString text) countryCode) w = w /\
     exists r,
       outcome (sendMessage env phoneNumber (VString text) countryCode) w = Normal r /\
       SendResult.success r = false /\
       (isReady (service w) = true ->
        Validator.validatePhoneNumber phoneNumber = true ->
        SendResult.error r = Some "Message cannot be empty")) /\
    (List.filter is_client_call (trace_of (sendToChat env chatId (VString text)) w) = [] /\
     world_after (sendToChat env chatId (VString text)) w = w /\
     exists r,
       outcome (sendToChat env chatId (VString text)) w = Normal r /\
       SendResult.success r = false /\
       (isReady (service w) = true ->
        SendResult.error r = Some "Message cannot be empty")).
Proof.
  intros env w phoneNumber countryCode chatId text Hblank.
  pose proof (whitespace_only_empty text Hblank) as Hempty.
  split.
  - unfold trace_of, world_after, outcome, sendMessage. run_monad. rewrite Hempty.
    destruct (isReady (service w)); simpl;
      [destruct (Validator.validatePhoneNumber phoneNumber); simpl | ];
      (split; [reflexivity | split; [reflexivity | eexists; split; [reflexivity | ]]]);
      split; try reflexivity; intros; congruence.
  - unfold trace_of, world_after, outcome, sendToChat. run_monad. rewrite Hempty.
    destruct (isReady (service w)); simpl;
      (split; [reflexivity | split; [reflexivity | eexists; split; [reflexivity | ]]]);
      split; try reflexivity; intros; congruence.
Qed.

Lemma blank_text_rejected_witness :
  exists r,
    outcome (sendToChat quiet_env "972501234567@c.us" (VString "   "))
            (constructed quiet_env empty_dir []) = Normal r /\
    SendResult.success r = false.
Proof.
  destruct (blank_text_rejected_before_client quiet_env
              (constructed quiet_env empty_dir []) (VString "0501234567") "972"
              "972501234567@c.us" "   " eq_refl) as [_ [_ [_ [r [Hr [Hs _]]]]]].
  exists r. split; assumption.
Defined.

Lemma sendMessage_returns env w phoneNumber message countryCode :
  exists r,
    outcome (sendMessage env phoneNumber message countryCode) w = Normal r /\
    (SendResult.success r = false <-> is_Some (SendResult.error r)).
Proof.
  unfold outcome, sendMessage. run_monad. paths;
    (eexists; split; [reflexivity | simpl; split; [ | intros [? ?]]; try done; by eexists]).
Qed.

Lemma sendToChat_returns env w chatId message :
  exists r,
    outcome (sendToChat env chatId message) w = Normal r /\
    (SendResult.success r = false <-> is_Some (SendResult.error r)).
Proof.
  unfold outcome, sendToChat. run_monad. paths;
    (eexists; split; [reflexivity | simpl; split; [ | intros [? ?]]; try done; by eexists]).
Qed.

Ltac send_cases :=
  eexists; (split; [reflexivity | ]); cbn [SendResult.success SendResult.error];
  (split; [first [ split; [intros _; by eexists | done]
                 | split; [done | intros [? ?]; done] ] | ]);
  repeat match goal with
         | H : negb _ = true |- _ => apply negb_true_iff in H
         | H : negb _ = false |- _ => apply negb_false_iff in H
         end;
  repeat (split_and! || intro); destruct_and?; simplify_eq; try congruence;
  try match goal with H : is_Some None |- _ => by destruct H end;
  try (by eexists);
  try (do 2 eexists; split_and!; eauto; fail);
  eauto.

(** C9. [sendMessage] and [sendToChat] return to their caller on every
    input, in every state and whatever the messaging client answers or
    throws (an exception being an Error object with a message); the object
    returned has [success: false] exactly when it has an [error] member.
    Every failure is returned so, with the message of its error: a session
    that is not ready, a number that is refused or cannot be formatted, an
    empty text, a number that the client does not know, an error of
    [getNumberId], and an error of [client.sendMessage] other than the one
    that the inner [catch] takes for a delivery. Conversely [success: true]
    is returned only when the send got as far as [client.sendMessage] and
    that call returned or threw that one error. *)
Theorem send_never_raises :
  forall env w phoneNumber chatId message countryCode,
    (exists r,
       outcome (sendMessage env phoneNumber message countryCode) w = Normal r /\
       (SendResult.success r = false <-> is_Some (SendResult.error r)) /\
       (isReady (service w) = false -> failed_with r (Js.message not_ready)) /\
       (isReady (service w) = true ->
        Validator.validatePhoneNumber phoneNumber = false ->
        failed_with r "Invalid phone number format") /\
       (isReady (service w) = true ->
        Validator.validatePhoneNumber phoneNumber = true ->
        message_is_empty message = Normal true ->
        failed_with r "Message cannot be empty") /\
       (forall e,
          isReady (service w) = true ->
          Validator.validatePhoneNumber phoneNumber = true ->
          message_is_empty message = Normal false ->
          Validator.formatPhoneNumber phoneNumber countryCode = Throw e ->
          failed_with r (Js.message e)) /\
       (forall n,
          reaches_client w message ->
          Validator.validatePhoneNumber phoneNumber = true ->
          Validator.formatPhoneNumber phoneNumber countryCode = Normal n ->
          (forall e, client_getNumberId env n = Throw e -> failed_with r (Js.message e)) /\
          (client_getNumberId env n = Normal None ->
           failed_with r ("Phone number " +:+ display phoneNumber
                          +:+ " is not registered on WhatsApp")) /\
          (forall s e,
             client_getNumberId env n = Normal (Some s) ->
             client_sendMessage env s message = Throw e ->
             spurious e = false ->
             failed_with r (Js.message e))) /\
       (SendResult.success r = true ->
        reaches_client w message /\
        Validator.validatePhoneNumber phoneNumber = true /\
        exists n s,
          Validator.formatPhoneNumber phoneNumber countryCode = Normal n /\
          client_getNumberId env n = Normal (Some s) /\
          answered env s message)) /\
    (exists r,
       outcome (sendToChat env chatId message) w = Normal r /\
       (SendResult.success r = false <-> is_Some (SendResult.error r)) /\
       (isReady (service w) = false -> failed_with r (Js.message not_ready)) /\
       (isReady (service w) = true ->
        message_is_empty message = Normal true ->
        failed_with r "Message cannot be empty") /\
       (forall e,
          reaches_client w message ->
          client_sendMessage env chatId message = Throw e ->
          spurious e = false ->
          failed_with r (Js.message e)) /\
       (SendResult.success r = true ->
        reaches_client w message /\ answered env chatId message)).
Proof.
  intros env w phoneNumber chatId message countryCode.
  unfold failed_with, reaches_client, answered, spurious. split.
  - unfold outcome, sendMessage. run_monad. paths; send_cases.
  - unfold outcome, sendToChat. run_monad. paths; send_cases.
Qed.

(** An error of the client that is not the one of the workaround comes
    back as a failure with its message. *)
Lemma send_failure_witness :
  exists r,
    outcome (sendToChat failing_env "972501234567@c.us" (VString "hello")) ready_world
    = Normal r /\
    failed_with r "Evaluation failed".
Proof.
  destruct (send_never_raises failing_env ready_world (VString "0501234567")
              "972501234567@c.us" (VString "hello") "972")
    as [_ [r [Hr [_ [_ [_ [Hfail _]]]]]]].
  exists r. split; [exact Hr | ].
  apply (Hfail (mkError "Evaluation failed")).
  - split; [reflexivity | split; [reflexivity | by eexists]].
  - reflexivity.
  - reflexivity.
Defined.




(** ** Registering a responder *)

Lemma map_get_set {V} key (v : V) m : map_get key (map_set key v m) = Some v.
Proof.
  induction m as [|[k x] m IH]; simpl.
  - by rewrite String.eqb_refl.
  - destruct (k =? key) eqn:E; simpl; [by rewrite String.eqb_refl | by rewrite E].
Qed.

(** C4, as the code has it. [addAutoResponder] does not look at the kind of
    the trigger: for every trigger, supported or not, it returns an id
    normally and the rule is stored under that id with the trigger as
    given. A trigger that is none of the three kinds is never matched by
    [matchesTrigger]. *)
Theorem addAutoResponder_stores_any_trigger :
  forall env w trigger response options,
    (exists key r,
       outcome (addAutoResponder env trigger response options) w = Normal key /\
       map_get key
         (autoResponders (handler (world_after (addAutoResponder env trigger response options) w)))
         = Some r /\
       Responder.trigger r = trigger) /\
    (forall messageText w',
       supported_trigger trigger = false ->
       outcome (matchesTrigger messageText trigger) w' = Normal (VBool false)).
Proof.
  intros env w trigger response options. split.
  - unfold outcome, world_after, addAutoResponder. run_monad. simpl.
    eexists _, _. split; [reflexivity | ]. split; [apply map_get_set | reflexivity].
  - intros messageText w' Hkind.
    destruct trigger as [[]| |]; try discriminate Hkind; reflexivity.
Qed.

Lemma addAutoResponder_stores_witness :
  supported_trigger (TPrimitive VNull) = false /\
  outcome (matchesTrigger "hello" (TPrimitive VNull)) (blank_world empty_dir [])
  = Normal (VBool false).
Proof.
  split; [reflexivity | ].
  apply (proj2 (addAutoResponder_stores_any_trigger quiet_env (blank_world empty_dir [])
                  (TPrimitive VNull) (RPrimitive (VString "hi")) Options.empty)).
  reflexivity.
Defined.

(** A number as trigger is accepted: the call returns an id, and the rule
    is in the registry. *)
Lemma addAutoResponder_accepts_number :
  let call := addAutoResponder quiet_env (TPrimitive (VNumber 42))
                (RPrimitive (VString "hi")) Options.empty in
  let w := constructed quiet_env empty_dir [] in
  supported_trigger (TPrimitive (VNumber 42)) = false /\
  outcome call w = Normal "responder_1700000000000" /\
  List.map fst (autoResponders (handler (world_after call w))) = ["responder_1700000000000"].
Proof. vm_compute. repeat split. Qed.

(** ** Dispatch of an inbound message *)

Lemma truthy_nonempty s : s <> "" -> truthy (VString s) = true.
Proof. intros Hs. simpl. by destruct s. Qed.

(** *** The log line of an inbound message is written in one place *)

Ltac lines := frame; try (unfold other_line, incoming_line; discriminate).

Lemma sendMessage_other_lines env phoneNumber message countryCode :
  respects (same (fun _ => tt)) other_line (sendMessage env phoneNumber message countryCode).
Proof. unfold sendMessage, guarded_send, on_client. lines. Qed.

Lemma responders_loop_other_lines env rules messageText messageData :
  respects (same (fun _ => tt)) other_line (responders_loop env rules messageText messageData).
Proof.
  induction rules as [|[key responder] rest IH]; cbn [responders_loop].
  - lines.
  - apply respects_bind; try apply _.
    + unfold matchesTrigger. lines.
    + intros [|]; [ | exact IH].
      unfold executeAutoResponder, resolve_response, send_response. lines.
      apply sendMessage_other_lines.
Qed.

Lemma invoke_other_lines env h messageData :
  respects (same (fun _ => tt)) other_line (invoke env h messageData).
Proof.
  destruct h; cbn [invoke]; [ | lines].
  unfold processMessage, addToMessageLog, logMessageDetails, checkAutoResponders. lines.
  all: apply responders_loop_other_lines.
Qed.

Lemma run_handlers_other_lines env messageData :
  respects (same (fun _ => tt)) other_line (run_handlers env messageData).
Proof. unfold run_handlers. lines. apply invoke_other_lines. Qed.

Lemma incoming_line_logged env message w :
  In incoming_line (trace_of (handleIncomingMessage env message) w)
  <-> Message.fromMe message = false.
Proof.
  split.
  - intros Hin. destruct (Message.fromMe message) eqn:Hme; [exfalso | reflexivity].
    assert (Hq : respects (same (fun _ => tt)) other_line (handleIncomingMessage env message)).
    { unfold handleIncomingMessage, save_message, send_webhook. rewrite Hme. cbn [negb].
      lines. apply run_handlers_other_lines. }
    destruct (Hq w) as [_ Ht]. rewrite List.Forall_forall in Ht. by apply (Ht _ Hin).
  - intros Hme. unfold trace_of, handleIncomingMessage, save_message.
    rewrite Hme. cbn [negb]. run_monad.
    unfold emit. destruct (insert_run env _); cbn -[send_webhook run_handlers];
      match goal with |- context [send_webhook ?e ?m ?x] =>
        destruct (send_webhook e m x) as [[? ?] [?|?]] end;
      cbn -[send_webhook run_handlers];
      try match goal with |- context [run_handlers ?e ?d ?x] =>
        destruct (run_handlers e d x) as [[? ?] [?|?]] end;
      cbn -[send_webhook run_handlers];
      rewrite ?in_app_iff; cbn [In]; auto 20.
Qed.

(** C1, as the code has it. With a webhook URL configured, every inbound
    message that has a sender address is posted to the webhook, whether it
    was written by this account or not; the payload carries the [fromMe]
    flag of the message. What depends on [fromMe] is the log line of the
    inbound message: it is written exactly when [fromMe] is false. *)
Theorem webhook_sent_regardless_of_fromMe :
  forall env w message url f,
    WEBHOOK_URL env = Some url -> url <> "" ->
    Message.from message = Some f ->
    (exists payload,
       In (HttpPost url payload) (trace_of (handleIncomingMessage env message) w) /\
       WebhookPayload.fromMe payload = Message.fromMe message /\
       WebhookPayload.id payload = Message.id_serialized message) /\
    (In incoming_line (trace_of (handleIncomingMessage env message) w)
     <-> Message.fromMe message = false).
Proof.
  intros env w message url f Hurl Hne Hfrom.
  split; [ | apply incoming_line_logged].
  exists (webhookPayload_of message (includes f "@g.us")).
  split; [ | split; reflexivity].
  unfold trace_of, handleIncomingMessage, save_message, send_webhook.
  rewrite Hurl, (truthy_nonempty url Hne), Hfrom. run_monad.
  destruct (insert_run env _); destruct (Message.fromMe message);
    destruct (axios_post env url _); simpl;
    match goal with |- context [run_handlers ?e ?d ?x] =>
      destruct (run_handlers e d x) as [[? ?] [?|?]] end;
    simpl; rewrite ?in_app_iff; simpl; auto 20.
Qed.

Lemma webhook_sent_witness :
  (exists payload,
     In (HttpPost "http://localhost:9000/hook" payload)
        (trace_of (handleIncomingMessage hook_env own_message)
                  (constructed quiet_env empty_dir [])) /\
     WebhookPayload.fromMe payload = true /\
     WebhookPayload.id payload = "true_972501234567@c.us_3EB0A1") /\
  (In incoming_line
      (trace_of (handleIncomingMessage hook_env own_message)
                (constructed quiet_env empty_dir []))
   <-> Message.fromMe own_message = false).
Proof.
  apply (webhook_sent_regardless_of_fromMe hook_env (constructed quiet_env empty_dir [])
           own_message "http://localhost:9000/hook" "972500000000@c.us");
    [reflexivity | discriminate | reflexivity].
Defined.

(** The message of the account itself reaches the webhook. *)
Lemma webhook_sent_for_own_message :
  Message.fromMe own_message = true /\
  List.filter is_webhook
    (trace_of (handleIncomingMessage hook_env own_message)
              (constructed quiet_env empty_dir []))
  = [HttpPost "http://localhost:9000/hook"
       (webhookPayload_of own_message false)].
Proof. vm_compute. split; reflexivity. Qed.

(** *** The table and the message log across a redelivery *)

Lemma respects_unchanged {A} (m : M A) (P : Effect -> Prop) :
  respects (same (fun w => w)) P m -> forall w, world_after m w = w.
Proof. intros H w. symmetry. apply (H w). Qed.

Lemma world_after_seq {A B} (m : M A) (k : A -> M B) (h : Error -> M B) w w1 t1 a :
  m w = (w1, t1, Normal a) ->
  world_after (try_catch (bind m k) h) w = world_after (try_catch (k a) h) w1.
Proof.
  intros Hm. unfold world_after, try_catch, bind. rewrite Hm.
  destruct (k a w1) as [[w2 t2] [b|e]]; simpl; [reflexivity | ].
  destruct (h e w2) as [[w3 t3] r]. reflexivity.
Qed.

Lemma save_message_run env messageData w :
  exists t,
    save_message env messageData w =
      (match insert_run env (row_of messageData) with
       | Normal _ => with_messages (insert_or_replace (row_of messageData)) w
       | Throw _ => w
       end, t, Normal tt).
Proof.
  unfold save_message. run_monad.
  destruct (insert_run env (row_of messageData)) as [[]|e]; eexists; reflexivity.
Qed.

Lemma send_webhook_run env message w :
  exists t, send_webhook env message w = (w, t, Normal tt).
Proof.
  unfold send_webhook. run_monad. paths; eexists; reflexivity.
Qed.

Lemma addToMessageLog_run env messageData w :
  addToMessageLog env messageData w =
    (with_handler
       (set_messageLog
          (log_push (maxLogSize (handler w)) (messageLog (handler w))
             {| entry := messageData; processedAt := dateNow env 0 |})) w,
     [], Normal tt).
Proof.
  unfold addToMessageLog, log_push. run_monad. simpl.
  destruct (maxLogSize (handler w) <? _)%nat; reflexivity.
Qed.

Lemma processMessage_world env messageData w :
  world_after (processMessage env messageData) w =
    with_handler
      (set_messageLog
         (log_push (maxLogSize (handler w)) (messageLog (handler w))
            {| entry := messageData; processedAt := dateNow env 0 |})) w.
Proof.
  unfold processMessage.
  rewrite (world_after_seq _ _ _ _ _ _ _ (addToMessageLog_run env messageData w)).
  apply (respects_unchanged _ any_effect).
  unfold logMessageDetails, any_effect. frame.
  all: apply checkAutoResponders_respects; try apply _; done.
Qed.

Lemma logged_returns (m : M unit) level text w :
  outcome (try_catch m (fun _ => logger level text)) w = Normal tt.
Proof.
  unfold outcome, try_catch, logger, emit.
  destruct (m w) as [[w1 t1] [[]|e]]; reflexivity.
Qed.

Lemma logged_world (m : M unit) level text w :
  world_after (try_catch m (fun _ => logger level text)) w = world_after m w.
Proof.
  unfold world_after, try_catch, logger, emit.
  destruct (m w) as [[w1 t1] [[]|e]]; reflexivity.
Qed.

Lemma run_handlers_world env messageData w :
  messageHandlers (service w) = [ProcessMessage] ->
  world_after (run_handlers env messageData) w
  = world_after (processMessage env messageData) w.
Proof.
  intros Hh. unfold run_handlers.
  unfold world_after at 1. unfold bind at 1, gets. rewrite Hh. cbn [for_of invoke].
  pose proof (logged_returns (processMessage env messageData) Level.error
                "Message handler error:" w) as Hret.
  pose proof (logged_world (processMessage env messageData) Level.error
                "Message handler error:" w) as Hw.
  unfold outcome in Hret. unfold world_after at 1 in Hw.
  unfold bind, ret.
  destruct (try_catch (processMessage env messageData) _ w) as [[w1 t1] r1].
  simpl in Hret, Hw. subst. reflexivity.
Qed.

Lemma handleIncomingMessage_steps env message w :
  world_after (handleIncomingMessage env message) w =
    world_after (run_handlers env (messageData_of message))
      (match insert_run env (row_of (messageData_of message)) with
       | Normal _ => with_messages (insert_or_replace (row_of (messageData_of message))) w
       | Throw _ => w
       end).
Proof.
  unfold handleIncomingMessage. cbn zeta.
  destruct (save_message_run env (messageData_of message) w) as [t Hsave].
  rewrite (world_after_seq _ _ _ _ _ _ _ Hsave).
  set (w1 := match insert_run env _ with Normal _ => _ | Throw _ => w end).
  assert (Hlog : exists t', (if negb (Message.fromMe message)
                             then logger Level.info "Incoming message received"
                             else ret tt) w1 = (w1, t', Normal tt)).
  { destruct (Message.fromMe message); eexists; reflexivity. }
  destruct Hlog as [t' Hlog].
  rewrite (world_after_seq _ _ _ _ _ _ _ Hlog).
  destruct (send_webhook_run env message w1) as [t'' Hhook].
  rewrite (world_after_seq _ _ _ _ _ _ _ Hhook).
  apply logged_world.
Qed.

Lemma handleIncomingMessage_messages env message w :
  messages (world_after (handleIncomingMessage env message) w) =
    match insert_run env (row_of (messageData_of message)) with
    | Normal _ => insert_or_replace (row_of (messageData_of message)) (messages w)
    | Throw _ => messages w
    end.
Proof.
  rewrite handleIncomingMessage_steps.
  assert (H : respects (same messages) any_effect
                (run_handlers env (messageData_of message))).
  { apply run_handlers_respects; try apply _; done. }
  match goal with |- messages (world_after _ ?w1) = _ =>
    destruct (H w1) as [Hm _]; unfold same in Hm; rewrite <- Hm end.
  destruct (insert_run env _); reflexivity.
Qed.

Lemma handleIncomingMessage_world env message w :
  messageHandlers (service w) = [ProcessMessage] ->
  world_after (handleIncomingMessage env message) w =
    world_after (processMessage env (messageData_of message))
      (match insert_run env (row_of (messageData_of message)) with
       | Normal _ => with_messages (insert_or_replace (row_of (messageData_of message))) w
       | Throw _ => w
       end).
Proof.
  intros Hh. rewrite handleIncomingMessage_steps. apply run_handlers_world.
  destruct (insert_run env _); exact Hh.
Qed.

Lemma filter_out_then_in {A} (P : A -> Prop) `{!forall x, Decision (P x)} (l : list A) :
  filter P (filter (fun x => ~ P x) l) = [].
Proof.
  induction l as [|x l IH]; [reflexivity | ].
  rewrite (filter_cons (fun x => ~ P x)). destruct (decide (~ P x)) as [Hn|Hp].
  - rewrite filter_cons. destruct (decide (P x)); [contradiction | exact IH].
  - exact IH.
Qed.

Lemma insert_or_replace_unique row table :
  filter (fun r => Row.id r = Row.id row) (insert_or_replace row table) = [row].
Proof.
  unfold insert_or_replace. rewrite filter_app.
  rewrite (filter_out_then_in (fun r => Row.id r = Row.id row)).
  rewrite filter_cons. destruct (decide (Row.id row = Row.id row)); [reflexivity | contradiction].
Qed.

Lemma log_push_last n l e :
  (1 <= n)%nat -> log_push n l e = (drop (length l + 1 - n) l ++ [e])%list.
Proof.
  intros Hn. unfold log_push, slice_last. rewrite length_app. simpl.
  destruct (n <? length l + 1)%nat eqn:E.
  - apply Nat.ltb_lt in E. destruct (n =? 0)%nat eqn:E0; [apply Nat.eqb_eq in E0; lia | ].
    rewrite drop_app_le by lia. reflexivity.
  - apply Nat.ltb_ge in E. replace (length l + 1 - n)%nat with 0%nat by lia. reflexivity.
Qed.

Lemma log_push_twice n l e1 e2 :
  (2 <= n)%nat -> exists older, log_push n (log_push n l e1) e2 = (older ++ [e1; e2])%list.
Proof.
  intros Hn. rewrite (log_push_last n l e1) by lia.
  rewrite log_push_last by lia.
  set (kept := drop (length l + 1 - n) l).
  assert (Hkept : (length kept <= length l)%nat) by (subst kept; rewrite length_drop; lia).
  rewrite length_app. simpl.
  assert (Hlen : (length kept + 1 + 1 - n <= length kept)%nat) by lia.
  rewrite drop_app_le by exact Hlen.
  exists (drop (length kept + 1 + 1 - n) kept). by rewrite <- app_assoc.
Qed.

(** C3, as the code has it. When an event is delivered again with the same
    id, the [messages] table holds exactly one row with that id, the row of
    the second delivery, provided the second insertion is accepted. The
    message log is not keyed by id: with the message handler registered,
    each delivery appends an entry, so after the second delivery the log
    ends with two entries that carry this id. *)
Theorem redelivery_replaces_row_and_appends_log :
  forall env1 env2 w m1 m2,
    Message.id m2 = Message.id m1 ->
    let w1 := world_after (handleIncomingMessage env1 m1) w in
    let w2 := world_after (handleIncomingMessage env2 m2) w1 in
    (insert_run env2 (row_of (messageData_of m2)) = Normal tt ->
     filter (fun r => Row.id r = Message.id m1) (messages w2)
     = [row_of (messageData_of m2)]) /\
    (messageHandlers (service w) = [ProcessMessage] ->
     (2 <= maxLogSize (handler w))%nat ->
     exists older e1 e2,
       messageLog (handler w2) = (older ++ [e1; e2])%list /\
       MessageData.id (entry e1) = Message.id m1 /\
       MessageData.id (entry e2) = Message.id m1).
Proof.
  intros env1 env2 w m1 m2 Hid w1 w2.
  assert (Hw1 : w1 = world_after (handleIncomingMessage env1 m1) w) by reflexivity.
  assert (Hw2 : w2 = world_after (handleIncomingMessage env2 m2) w1) by reflexivity.
  clearbody w1 w2.
  split.
  - intros Hok. rewrite Hw2, handleIncomingMessage_messages, Hok.
    rewrite <- Hid. apply (insert_or_replace_unique (row_of (messageData_of m2))).
  - intros Hh Hsize.
    rewrite (handleIncomingMessage_world env1 m1 w Hh), processMessage_world in Hw1.
    assert (Hh1 : messageHandlers (service w1) = [ProcessMessage]).
    { subst w1. destruct (insert_run env1 _); exact Hh. }
    rewrite (handleIncomingMessage_world env2 m2 w1 Hh1), processMessage_world in Hw2.
    assert (Hlog2 : messageLog (handler w2) =
              log_push (maxLogSize (handler w))
                (log_push (maxLogSize (handler w)) (messageLog (handler w))
                   {| entry := messageData_of m1; processedAt := dateNow env1 0 |})
                {| entry := messageData_of m2; processedAt := dateNow env2 0 |}).
    { subst w2 w1.
      destruct (insert_run env2 _); destruct (insert_run env1 _); reflexivity. }
    destruct (log_push_twice (maxLogSize (handler w)) (messageLog (handler w))
                {| entry := messageData_of m1; processedAt := dateNow env1 0 |}
                {| entry := messageData_of m2; processedAt := dateNow env2 0 |} Hsize)
      as [older Holder].
    exists older, {| entry := messageData_of m1; processedAt := dateNow env1 0 |},
           {| entry := messageData_of m2; processedAt := dateNow env2 0 |}.
    split; [by rewrite Hlog2 | split; [reflexivity | exact Hid]].
Qed.

Lemma redelivery_witness :
  filter (fun r => Row.id r = "3EB0C7")
    (messages (world_after (handleIncomingMessage quiet_env hello_message)
                 (world_after (handleIncomingMessage quiet_env hello_message)
                    (constructed quiet_env empty_dir []))))
  = [row_of (messageData_of hello_message)].
Proof.
  apply (proj1 (redelivery_replaces_row_and_appends_log quiet_env quiet_env
                  (constructed quiet_env empty_dir []) hello_message hello_message
                  eq_refl)).
  reflexivity.
Defined.

(** After the second delivery the table has one row with the id, and the
    message log has two entries with it. *)
Lemma redelivery_duplicates_log_entry :
  List.map Row.id (messages delivered_twice) = ["3EB0C7"] /\
  List.map (fun e => MessageData.id (entry e)) (messageLog (handler delivered_twice))
  = ["3EB0C7"; "3EB0C7"].
Proof. vm_compute. split; reflexivity. Qed.

(** ** The auto-response engine *)

Lemma silent_trace t : Forall silent t -> replies t = [] /\ tested t = [].
Proof.
  induction 1 as [|e t [Hr Ht] _ [IHr IHt]]; [split; reflexivity | ].
  unfold replies, tested in *. simpl. rewrite Hr, Ht. split; assumption.
Qed.

Lemma matchesTrigger_run messageText trigger w :
  exists t, matchesTrigger messageText trigger w
            = (w, t, Normal (trigger_value messageText trigger)) /\
            Forall silent t.
Proof.
  unfold matchesTrigger, trigger_value. run_monad.
  destruct trigger as [[]| |f]; try (eexists; split; [reflexivity | constructor]).
  destruct (f messageText); eexists; (split; [reflexivity | ]); repeat constructor.
Qed.

Lemma sendMessage_run env phoneNumber message countryCode w :
  exists t r, sendMessage env phoneNumber message countryCode w = (w, t, Normal r) /\
              Forall silent t.
Proof.
  destruct (sendMessage_returns env w phoneNumber message countryCode) as [r [Hr _]].
  assert (Hq : respects (same (fun w => w)) silent
                 (sendMessage env phoneNumber message countryCode)).
  { apply sendMessage_respects; try apply _; [by split | ].
    intros e He. destruct e; try discriminate He; by split. }
  destruct (Hq w) as [Hw Ht]. unfold same in Hw.
  exists (trace_of (sendMessage env phoneNumber message countryCode) w), r.
  split; [ | exact Ht].
  rewrite (surjective_run (sendMessage env phoneNumber message countryCode) w).
  by rewrite <- Hw, Hr.
Qed.

Lemma send_response_run env messageData response w :
  match MessageData.from messageData with
  | Some f =>
      exists t, send_response env messageData response w = (w, t, Normal tt) /\
                replies t = [ServiceSendMessage (VString (replace (replace f "@c.us" "") "972" ""))
                               response "972"] /\
                tested t = []
  | None => exists e, send_response env messageData response w = (w, [], Throw e)
  end.
Proof.
  unfold send_response.
  destruct (MessageData.from messageData) as [f|]; [ | eexists; reflexivity].
  set (senderNumber := replace (replace f "@c.us" "") "972" "").
  destruct (sendMessage_run env (VString senderNumber) response "972" w)
    as [ts [r [Hrun Hsilent]]].
  destruct (silent_trace ts Hsilent) as [Hr Ht].
  exists (ServiceSendMessage (VString senderNumber) response "972"
          :: ts ++ [Log (if SendResult.success r then Level.info else Level.error)
                      (if SendResult.success r then "Auto-response sent"
                       else "Failed to send auto-response")])%list.
  split.
  - unfold bind, ret, emit, logger. rewrite Hrun. destruct (SendResult.success r); reflexivity.
  - unfold replies, tested in *. simpl. rewrite !List.filter_app, Hr, Ht. split; reflexivity.
Qed.

Lemma resolve_response_run responder messageData w :
  exists c, resolve_response responder messageData w = (w, [], c) /\
            resolved_response responder messageData
            = match c with Normal v => v | Throw _ => VString "" end.
Proof.
  unfold resolve_response, resolved_response.
  destruct (Responder.response responder) as [[]|f]; eexists; split; reflexivity.
Qed.

Lemma executeAutoResponder_run env responder messageData w :
  exists t, executeAutoResponder env responder messageData w = (w, t, Normal tt) /\
            replies t = expected_replies responder messageData /\
            tested t = [].
Proof.
  unfold executeAutoResponder, expected_replies.
  destruct (resolve_response_run responder messageData w) as [c [Hres ->]].
  pose proof (send_response_run env messageData) as Hsend.
  destruct c as [v|e].
  - unfold try_catch. rewrite (bind_normal _ _ _ _ _ _ Hres).
    unfold world_after, trace_of, outcome.
    destruct (truthy v).
    + specialize (Hsend v w). destruct (MessageData.from messageData) as [f|].
      * destruct Hsend as [t [-> [Hr Ht]]]. simpl. eexists; split; [reflexivity | by split].
      * destruct Hsend as [e ->]. simpl. eexists; split; [reflexivity | by split].
    + simpl. eexists; split; [reflexivity | ].
      destruct (MessageData.from messageData); by split.
  - unfold try_catch. rewrite (bind_throw _ _ _ _ _ _ Hres). simpl.
    eexists; split; [reflexivity | ]. destruct (MessageData.from messageData); by split.
Qed.

Lemma test_rule_run messageText key responder w :
  exists t,
    (if Responder.enabled responder
     then emit (TriggerTest key) ;;
          v <- matchesTrigger messageText (Responder.trigger responder) ;;
          ret (truthy v)
     else ret false) w = (w, t, Normal (fires messageText responder)) /\
    replies t = [] /\
    tested t = if Responder.enabled responder then [TriggerTest key] else [].
Proof.
  unfold fires. destruct (Responder.enabled responder); simpl.
  - destruct (matchesTrigger_run messageText (Responder.trigger responder) w)
      as [tm [Hrun Hsilent]].
    destruct (silent_trace tm Hsilent) as [Hr Ht].
    exists (TriggerTest key :: tm ++ [])%list. split.
    + unfold bind, emit, ret. rewrite Hrun. reflexivity.
    + unfold replies, tested in *. simpl. rewrite !List.filter_app, Hr, Ht. by split.
  - exists []. by split.
Qed.

Lemma responders_loop_first_match env messageText messageData key responder post w :
  fires messageText responder = true ->
  forall pre,
    Forall (fun kr => fires messageText (snd kr) = false) pre ->
    exists t,
      responders_loop env (pre ++ (key, responder) :: post) messageText messageData w
      = (w, t, Normal tt) /\
      replies t = expected_replies responder messageData /\
      tested t = (tests_of pre ++ [TriggerTest key])%list.
Proof.
  intros Hfire pre Hpre.
  induction Hpre as [|[k x] pre Hx _ IH]; cbn [app responders_loop].
  - destruct (test_rule_run messageText key responder w) as [t1 [Hrun [Hr Ht]]].
    rewrite Hfire in Hrun. rewrite (bind_normal _ _ _ _ _ _ Hrun).
    destruct (executeAutoResponder_run env responder messageData w) as [t2 [Hexec [Hr2 Ht2]]].
    unfold world_after, trace_of, outcome. rewrite Hexec. simpl.
    eexists; split; [reflexivity | ].
    unfold replies, tested in *. rewrite !List.filter_app, Hr, Ht, Hr2, Ht2.
    apply andb_prop in Hfire as [-> _]. split; [reflexivity | apply app_nil_r].
  - destruct (test_rule_run messageText k x w) as [t1 [Hrun [Hr Ht]]].
    simpl in Hx. rewrite Hx in Hrun. rewrite (bind_normal _ _ _ _ _ _ Hrun).
    destruct IH as [t2 [Hrest [Hr2 Ht2]]].
    unfold world_after, trace_of, outcome. rewrite Hrest. simpl.
    eexists; split; [reflexivity | ].
    unfold replies, tested, tests_of in *. rewrite !List.filter_app, Hr, Ht, Hr2, Ht2.
    split; [reflexivity | ]. simpl. destruct (Responder.enabled x); reflexivity.
Qed.

Lemma expected_replies_at_most_one responder messageData :
  (length (expected_replies responder messageData) <= 1)%nat.
Proof.
  unfold expected_replies. destruct (MessageData.from messageData); simpl; [ | lia].
  destruct (truthy _); simpl; lia.
Qed.

(** C6, as the code has it. For a message of type ['chat'] with a text,
    when the registry holds, after rules that are disabled or do not
    match, an enabled rule whose trigger matches: the triggers tested are
    those of the enabled rules up to that rule and none after it, and at
    most one reply is sent. The reply is the response of that rule, sent to
    the sender's address without ['@c.us'] and ['972'], when the response is
    not empty; when the response is empty, or its producer throws, no reply
    is sent and the later rules are still not tried. *)
Theorem first_match_runs_alone :
  forall env w messageData b pre key responder post,
    MessageData.type messageData = "chat" ->
    MessageData.body messageData = Some b ->
    autoResponders (handler w) = (pre ++ (key, responder) :: post)%list ->
    Forall (fun kr => fires (trim (toLowerCase b)) (snd kr) = false) pre ->
    fires (trim (toLowerCase b)) responder = true ->
    let t := trace_of (checkAutoResponders env messageData) w in
    outcome (checkAutoResponders env messageData) w = Normal tt /\
    tested t = (tests_of pre ++ [TriggerTest key])%list /\
    (length (replies t) <= 1)%nat /\
    replies t = expected_replies responder messageData /\
    (forall s f,
       Responder.response responder = RPrimitive (VString s) -> s <> "" ->
       MessageData.from messageData = Some f ->
       replies t = [ServiceSendMessage (VString (replace (replace f "@c.us" "") "972" ""))
                      (VString s) "972"]).
Proof.
  intros env w messageData b pre key responder post Htype Hbody Hrules Hpre Hfire t.
  destruct (responders_loop_first_match env (trim (toLowerCase b)) messageData key
              responder post w Hfire pre Hpre) as [tl [Hloop [Hr Ht]]].
  assert (Hrun : checkAutoResponders env messageData w = (w, tl, Normal tt)).
  { unfold checkAutoResponders. rewrite Htype, Hbody. simpl.
    unfold try_catch, bind, ret, gets. rewrite Hrules, Hloop. reflexivity. }
  subst t. unfold trace_of, outcome. rewrite Hrun. simpl.
  split; [reflexivity | ]. split; [exact Ht | ].
  split; [rewrite Hr; apply expected_replies_at_most_one | ].
  split; [exact Hr | ].
  intros s f Hresp Hs Hfrom. rewrite Hr. unfold expected_replies, resolved_response.
  rewrite Hfrom, Hresp, (truthy_nonempty s Hs). reflexivity.
Qed.

Lemma first_match_witness :
  replies (trace_of (checkAutoResponders quiet_env (messageData_of hello_message))
                    greeting_world)
  = [ServiceSendMessage (VString "501234567") (VString "hi!") "972"].
Proof.
  pose proof (first_match_runs_alone quiet_env greeting_world (messageData_of hello_message)
                "  Hello  " [] "responder_1700000000000"
                (Responder.mk "responder_1700000000000" (TPrimitive (VString "hello"))
                   (RPrimitive (VString "hi!")) true 1700000000000 "")
                [] eq_refl eq_refl eq_refl (List.Forall_nil _) eq_refl) as H.
  cbv zeta in H. destruct H as (_ & _ & _ & _ & H).
  apply (H "hi!" "972501234567@c.us"); [reflexivity | discriminate | reflexivity].
Defined.

(** Both rules fire on the text, and no reply is sent. *)
Lemma matching_rule_without_reply :
  List.map (fun kr => fires "hello" (snd kr)) (autoResponders (handler muted_world))
  = [true; true] /\
  replies (trace_of (checkAutoResponders quiet_env (messageData_of hello_message))
                    muted_world) = [].
Proof. vm_compute. split; reflexivity. Qed.

(* ================================================================== *)
(** * Further properties of the code *)
(* ================================================================== *)

(** ** Phone numbers *)

Lemma remove_non_digits_all_digits s : all_digits (remove_non_digits s) = true.
Proof.
  induction s as [|c s IH]; simpl; [reflexivity | ].
  destruct (is_digit c) eqn:E; simpl; [by rewrite E | exact IH].
Qed.

Lemma remove_non_digits_fixed s : all_digits s = true -> remove_non_digits s = s.
Proof.
  induction s as [|c s IH]; simpl; [reflexivity | ].
  intros [Hc Hs]%andb_prop. rewrite Hc. by rewrite IH.
Qed.

Lemma remove_non_digits_idempotent s :
  remove_non_digits (remove_non_digits s) = remove_non_digits s.
Proof. apply remove_non_digits_fixed, remove_non_digits_all_digits. Qed.

Lemma drop_chars_all_digits n s : all_digits s = true -> all_digits (drop_chars n s) = true.
Proof.
  revert s. induction n as [|n IH]; intros [|c s] H; simpl; try done.
  apply andb_prop in H as [_ H]. by apply IH.
Qed.

Lemma startsWith_cons s c p :
  startsWith s (String c p) = true -> exists s', s = String c s' /\ startsWith s' p = true.
Proof.
  destruct s as [|d s']; cbn [startsWith]; [discriminate | ].
  intros [Hc Hp]%andb_prop. apply Ascii.eqb_eq in Hc. subst d. by exists s'.
Qed.

Lemma truthy_digits p :
  remove_non_digits p <> "" -> truthy (VString p) = true.
Proof. intros H. apply truthy_nonempty. intros ->. by apply H. Qed.

(** X1. Only the digits of a number count: a text with at least one digit
    is validated and formatted exactly as its digits alone are, under
    every country code. *)
Theorem phone_number_punctuation_ignored :
  forall p countryCode,
    remove_non_digits p <> "" ->
    Validator.validatePhoneNumber (VString p)
    = Validator.validatePhoneNumber (VString (remove_non_digits p)) /\
    Validator.formatPhoneNumber (VString p) countryCode
    = Validator.formatPhoneNumber (VString (remove_non_digits p)) countryCode.
Proof.
  intros p countryCode Hd.
  unfold Validator.validatePhoneNumber, Validator.formatPhoneNumber.
  rewrite (truthy_digits p Hd), (truthy_nonempty _ Hd), remove_non_digits_idempotent.
  split; reflexivity.
Qed.

Lemma phone_number_punctuation_witness :
  Validator.formatPhoneNumber (VString "+972 (50) 123-4567") "972"
  = Validator.formatPhoneNumber (VString "972501234567") "972".
Proof.
  apply (proj2 (phone_number_punctuation_ignored "+972 (50) 123-4567" "972"
                  ltac:(discriminate))).
Defined.

(** X2. Whatever [formatPhoneNumber] returns under the country code 972 is
    ['972'], nine digits of which the first is 5, and ['@c.us']. *)
Theorem formatted_israeli_number_shape :
  forall phoneNumber r,
    Validator.formatPhoneNumber phoneNumber "972" = Normal r ->
    exists d,
      r = "972" +:+ d +:+ "@c.us" /\
      String.length d = 9%nat /\ startsWith d "5" = true /\ all_digits d = true.
Proof.
  intros phoneNumber r. unfold Validator.formatPhoneNumber.
  destruct (negb (truthy phoneNumber)); [discriminate | ].
  destruct phoneNumber as [| | | |p]; try discriminate.
  change ("972" =? "972") with true. cbv iota.
  set (c0 := remove_non_digits p).
  set (c1 := if startsWith c0 "0" then substring_from 1 c0 else c0).
  set (c2 := if startsWith c1 "972" then substring_from 3 c1 else c1).
  destruct ((String.length c2 =? 9)%nat && startsWith c2 "5") eqn:E; [ | discriminate].
  intros [= <-]. apply andb_prop in E as [Hlen H5]. apply Nat.eqb_eq in Hlen.
  exists c2. repeat split; try assumption.
  assert (H0 : all_digits c0 = true) by apply remove_non_digits_all_digits.
  assert (H1 : all_digits c1 = true).
  { subst c1. destruct (startsWith c0 "0"); [by apply drop_chars_all_digits | exact H0]. }
  subst c2. destruct (startsWith c1 "972"); [by apply drop_chars_all_digits | exact H1].
Qed.

Lemma formatted_israeli_number_witness :
  exists d, "972501234567@c.us" = "972" +:+ d +:+ "@c.us" /\
            String.length d = 9%nat /\ startsWith d "5" = true /\ all_digits d = true.
Proof.
  apply (formatted_israeli_number_shape (VString "050-1234567") "972501234567@c.us").
  reflexivity.
Defined.

(** X3. A mobile number of nine digits that starts with 5 is accepted in
    its three writings (as it is, with the trunk 0, with the prefix 972)
    and the three are formatted to the same address. *)
Theorem israeli_mobile_writings_agree :
  forall d,
    all_digits d = true -> String.length d = 9%nat -> startsWith d "5" = true ->
    Forall (fun p =>
              Validator.validatePhoneNumber (VString p) = true /\
              Validator.formatPhoneNumber (VString p) "972"
              = Normal ("972" +:+ d +:+ "@c.us"))
           [d; String "0" d; String "9" (String "7" (String "2" d))].
Proof.
  intros d Hd Hlen H5.
  destruct (startsWith_cons _ _ _ H5) as [d' [-> _]].
  simpl in Hlen. injection Hlen as Hlen.
  assert (Hd0 : all_digits (String "0" (String "5" d')) = true) by exact Hd.
  assert (Hd9 : all_digits (String "9" (String "7" (String "2" (String "5" d')))) = true)
    by exact Hd.
  repeat constructor;
    unfold Validator.validatePhoneNumber, Validator.formatPhoneNumber;
    rewrite ?(remove_non_digits_fixed _ Hd), ?(remove_non_digits_fixed _ Hd0),
            ?(remove_non_digits_fixed _ Hd9);
    simpl; rewrite Hlen; reflexivity.
Qed.

Lemma israeli_mobile_writings_witness :
  Forall (fun p =>
            Validator.validatePhoneNumber (VString p) = true /\
            Validator.formatPhoneNumber (VString p) "972"
            = Normal ("972" +:+ "501234567" +:+ "@c.us"))
         ["501234567"; "0501234567"; "972501234567"].
Proof.
  apply (israeli_mobile_writings_agree "501234567"); reflexivity.
Defined.

(** X4. A number that [validatePhoneNumber] accepts and whose digits start
    with 0 or with 5 is always formatted under 972: to ['972'], its digits
    without the leading 0, and ['@c.us']. *)
Theorem accepted_local_number_is_formatted :
  forall p,
    Validator.validatePhoneNumber (VString p) = true ->
    startsWith (remove_non_digits p) "0" = true \/
    startsWith (remove_non_digits p) "5" = true ->
    Validator.formatPhoneNumber (VString p) "972"
    = Normal ("972" +:+ (if startsWith (remove_non_digits p) "0"
                         then substring_from 1 (remove_non_digits p)
                         else remove_non_digits p) +:+ "@c.us").
Proof.
  intros p Hv Hstart.
  unfold Validator.validatePhoneNumber in Hv. unfold Validator.formatPhoneNumber.
  destruct (negb (truthy (VString p))); [discriminate | ].
  change ("972" =? "972") with true. cbv iota.
  set (c := remove_non_digits p) in *.
  destruct ((String.length c <? 9)%nat || (12 <? String.length c)%nat); [discriminate | ].
  destruct (startsWith c "0") eqn:H0.
  - apply andb_prop in Hv as [Hlen H05]. apply Nat.eqb_eq in Hlen.
    destruct (startsWith_cons _ _ _ H05) as [c' [Hc H5]].
    destruct (startsWith_cons _ _ _ H5) as [c'' [-> _]].
    rewrite Hc in *. simpl in Hlen. injection Hlen as Hlen.
    simpl. rewrite Hlen. reflexivity.
  - destruct Hstart as [? | H5]; [discriminate | ].
    rewrite H5 in Hv. apply Nat.eqb_eq in Hv.
    destruct (startsWith_cons _ _ _ H5) as [c' [Hc _]].
    rewrite Hc in *. simpl in Hv. injection Hv as Hv. simpl. rewrite Hv. reflexivity.
Qed.

Lemma accepted_local_number_witness :
  Validator.formatPhoneNumber (VString "050-123-4567") "972" = Normal "972501234567@c.us".
Proof.
  apply (accepted_local_number_is_formatted "050-123-4567"); [reflexivity | by left].
Defined.

(** ** Messages *)

Lemma trimStart_shorter s : (String.length (trimStart s) <= String.length s)%nat.
Proof.
  induction s as [|c s IH]; simpl; [lia | ].
  destruct (is_whitespace c); simpl; lia.
Qed.

Lemma trimEnd_shorter s : (String.length (trimEnd s) <= String.length s)%nat.
Proof.
  induction s as [|c s IH]; simpl; [lia | ].
  destruct (trimEnd s); [destruct (is_whitespace c) | ]; simpl in *; lia.
Qed.

Lemma trim_shorter s : (String.length (trim s) <= String.length s)%nat.
Proof.
  unfold trim. etrans; [apply trimEnd_shorter | apply trimStart_shorter].
Qed.

Lemma trimStart_head s :
  trimStart s = "" \/ exists c s', trimStart s = String c s' /\ is_whitespace c = false.
Proof.
  induction s as [|c s IH]; simpl; [by left | ].
  destruct (is_whitespace c) eqn:E; [exact IH | right; by exists c, s].
Qed.

Lemma trimEnd_head c s :
  is_whitespace c = false -> exists s', trimEnd (String c s) = String c s'.
Proof. intros Hc. simpl. rewrite Hc. destruct (trimEnd s); by eexists. Qed.

Lemma trimEnd_idempotent s : trimEnd (trimEnd s) = trimEnd s.
Proof.
  induction s as [|c s IH]; simpl; [reflexivity | ].
  destruct (trimEnd s) as [|d r] eqn:E.
  - destruct (is_whitespace c) eqn:Hc; simpl; [reflexivity | by rewrite Hc].
  - simpl in *. by rewrite IH.
Qed.

Lemma trim_idempotent s : trim (trim s) = trim s.
Proof.
  unfold trim. destruct (trimStart_head s) as [-> | [c [s' [-> Hc]]]]; [reflexivity | ].
  destruct (trimEnd_head c s' Hc) as [u Hu]. rewrite Hu.
  cbn [trimStart]. rewrite Hc, <- Hu. apply trimEnd_idempotent.
Qed.

(** X5. A message that [validateMessage] accepts is a string of at most
    4096 characters which the test of [sendMessage] and [sendToChat] does
    not take for empty; and a result is valid exactly when it lists no
    error. *)
Theorem validateMessage_accepts :
  forall message,
    (ValidationResult.isValid (validateMessage message) = true <->
     ValidationResult.errors (validateMessage message) = []) /\
    (ValidationResult.isValid (validateMessage message) = true ->
     exists m, message = VString m /\ (String.length m <= 4096)%nat /\
               message_is_empty message = Normal false).
Proof.
  intros message. unfold validateMessage, message_is_empty.
  destruct (negb (truthy message)); [by split | ].
  destruct message as [| | | |m]; try by split.
  destruct (String.length (trim m) =? 0)%nat; [by split | ].
  destruct (4096 <? String.length m)%nat eqn:E; [by split | ].
  apply Nat.ltb_ge in E. split; [done | ]. intros _. by exists m.
Qed.

Lemma validateMessage_accepts_witness :
  exists m, VString "hello" = VString m /\ (String.length m <= 4096)%nat /\
            message_is_empty (VString "hello") = Normal false.
Proof.
  apply (proj2 (validateMessage_accepts (VString "hello"))). reflexivity.
Defined.

Lemma validateSendMessageParams_isValid phoneNumber message :
  ValidationResult.isValid (validateSendMessageParams phoneNumber message)
  = Validator.validatePhoneNumber phoneNumber
    && ValidationResult.isValid (validateMessage message).
Proof.
  unfold validateSendMessageParams.
  destruct (Validator.validatePhoneNumber phoneNumber);
    destruct (ValidationResult.isValid (validateMessage message)); reflexivity.
Qed.

(** X6. [validateSendMessageParams] accepts exactly when the number and the
    message are both accepted, which is exactly when it lists no error; it
    lists at most two errors, the one of the number first. *)
Theorem validateSendMessageParams_accepts :
  forall phoneNumber message,
    let result := validateSendMessageParams phoneNumber message in
    (ValidationResult.isValid result
     = Validator.validatePhoneNumber phoneNumber
       && ValidationResult.isValid (validateMessage message)) /\
    (ValidationResult.isValid result = true <-> ValidationResult.errors result = []) /\
    (length (ValidationResult.errors result) <= 2)%nat /\
    (Validator.validatePhoneNumber phoneNumber = false ->
     head (ValidationResult.errors result) = Some "Invalid Israeli phone number format").
Proof.
  intros phoneNumber message. cbv zeta. unfold validateSendMessageParams, validateMessage.
  destruct (Validator.validatePhoneNumber phoneNumber);
    destruct (negb (truthy message)); simpl; try by repeat split; try lia.
  all: destruct message as [| | | |m]; simpl; try (repeat split; done || lia).
  all: destruct (String.length (trim m) =? 0)%nat; simpl; try (repeat split; done || lia).
  all: destruct (4096 <? String.length m)%nat; simpl; repeat split; done || lia.
Qed.

Lemma validateSendMessageParams_witness :
  head (ValidationResult.errors (validateSendMessageParams (VString "123") (VString "")))
  = Some "Invalid Israeli phone number format".
Proof.
  apply (validateSendMessageParams_accepts (VString "123") (VString "")). reflexivity.
Defined.

Lemma take_chars_length n s : (String.length (take_chars n s) <= n)%nat.
Proof.
  revert s. induction n as [|n IH]; intros [|c s]; simpl; try lia.
  specialize (IH s). lia.
Qed.

Lemma sanitizeInput_string i n :
  (0 < n)%Z ->
  sanitizeInput (VString i) (Some n)
  = if (n <? Z.of_nat (String.length (trim i)))%Z then substring_to n (trim i) else trim i.
Proof.
  intros Hn. unfold sanitizeInput. simpl.
  destruct (i =? "") eqn:Ei; simpl.
  - apply String.eqb_eq in Ei. subst i.
    change (trim "") with "". change (Z.of_nat (String.length "")) with 0%Z.
    destruct (n <? 0)%Z eqn:E; [apply Z.ltb_lt in E; lia | reflexivity].
  - destruct (n =? 0)%Z eqn:E0; [apply Z.eqb_eq in E0; lia | reflexivity].
Qed.

(** X7. With a positive [maxLength], the text that [sanitizeInput] returns
    has at most [maxLength] characters; it is the trimmed input when that
    is short enough, and its first [maxLength] characters otherwise. *)
Theorem sanitizeInput_bounded :
  forall i n,
    (0 < n)%Z ->
    (Z.of_nat (String.length (sanitizeInput (VString i) (Some n))) <= n)%Z /\
    sanitizeInput (VString i) (Some n)
    = if (n <? Z.of_nat (String.length (trim i)))%Z then substring_to n (trim i) else trim i.
Proof.
  intros i n Hn. split; [ | by apply sanitizeInput_string].
  rewrite (sanitizeInput_string i n Hn).
  destruct (n <? Z.of_nat (String.length (trim i)))%Z eqn:E.
  - unfold substring_to. pose proof (take_chars_length (Z.to_nat n) (trim i)). lia.
  - apply Z.ltb_ge in E. exact E.
Qed.

Lemma sanitizeInput_bounded_witness :
  (Z.of_nat (String.length (sanitizeInput (VString "  hello world  ") (Some 5%Z))) <= 5)%Z.
Proof.
  apply (proj1 (sanitizeInput_bounded "  hello world  " 5%Z ltac:(lia))).
Defined.

(** X8. The request path of the server: what [validateSendMessageParams]
    accepts, once passed through [sanitizeInput] with [maxLength: 4096], is
    the trimmed message, and passes the two tests that [sendMessage] makes
    itself before it turns to the client. *)
Theorem accepted_request_passes_send_checks :
  forall phoneNumber message,
    ValidationResult.isValid (validateSendMessageParams phoneNumber message) = true ->
    exists m,
      message = VString m /\
      sanitizeInput message (Some 4096%Z) = trim m /\
      Validator.validatePhoneNumber phoneNumber = true /\
      message_is_empty (VString (sanitizeInput message (Some 4096%Z))) = Normal false.
Proof.
  intros phoneNumber message Hvalid.
  rewrite validateSendMessageParams_isValid in Hvalid. apply andb_prop in Hvalid as [Hp Hm].
  pose proof Hm as Hm'. unfold validateMessage in Hm'.
  destruct (negb (truthy message)) eqn:Ht; [discriminate | ].
  destruct message as [| | | |m]; try discriminate.
  destruct (String.length (trim m) =? 0)%nat eqn:Hblank; [discriminate | ].
  destruct (4096 <? String.length m)%nat eqn:Hlong; [discriminate | ].
  apply Nat.ltb_ge in Hlong. apply Nat.eqb_neq in Hblank.
  assert (Hs : sanitizeInput (VString m) (Some 4096%Z) = trim m).
  { rewrite (sanitizeInput_string m 4096%Z ltac:(lia)).
    pose proof (trim_shorter m).
    destruct (4096 <? Z.of_nat (String.length (trim m)))%Z eqn:E; [ | reflexivity].
    apply Z.ltb_lt in E. lia. }
  exists m. split; [reflexivity | ]. split; [exact Hs | ]. split; [exact Hp | ].
  rewrite Hs. unfold message_is_empty.
  rewrite truthy_nonempty by (intros E; rewrite E in Hblank; by apply Hblank).
  cbv iota. rewrite trim_idempotent.
  destruct (String.length (trim m) =? 0)%nat eqn:E; [apply Nat.eqb_eq in E; lia | reflexivity].
Qed.

Lemma accepted_request_witness :
  exists m,
    VString "  hi  " = VString m /\
    sanitizeInput (VString "  hi  ") (Some 4096%Z) = trim m /\
    Validator.validatePhoneNumber (VString "0501234567") = true /\
    message_is_empty (VString (sanitizeInput (VString "  hi  ") (Some 4096%Z))) = Normal false.
Proof.
  apply (accepted_request_passes_send_checks (VString "0501234567") (VString "  hi  ")).
  reflexivity.
Defined.

(** ** The registry of responders *)

Lemma map_has_get {V} key (m : list (string * V)) :
  map_has key m = true <-> is_Some (map_get key m).
Proof. unfold map_has. destruct (map_get key m); split; try done; by intros [? ?]. Qed.

Lemma map_get_keys {V} key (m : list (string * V)) :
  map_has key m = true <-> In key (keys m).
Proof.
  unfold map_has, keys. induction m as [|[k x] m IH]; simpl; [split; [done | tauto] | ].
  destruct (String.eqb_spec k key) as [->|Hne]; [split; auto | ].
  rewrite IH. split; [auto | intros [? | ?]; [contradiction | assumption]].
Qed.

Lemma map_set_keys {V} key (v : V) m :
  keys (map_set key v m) = if map_has key m then keys m else (keys m ++ [key])%list.
Proof.
  unfold map_has, keys. induction m as [|[k x] m IH]; simpl; [reflexivity | ].
  destruct (String.eqb_spec k key) as [->|Hne]; simpl; [reflexivity | ].
  rewrite IH. destruct (map_get key m); reflexivity.
Qed.

Lemma map_get_set_other {V} key key' (v : V) m :
  key' <> key -> map_get key' (map_set key v m) = map_get key' m.
Proof.
  intros Hne. induction m as [|[k x] m IH]; simpl.
  - destruct (String.eqb_spec key key'); [congruence | reflexivity].
  - destruct (String.eqb_spec k key) as [->|Hk]; simpl.
    + destruct (String.eqb_spec key key'); [congruence | reflexivity].
    + by rewrite IH.
Qed.

Lemma map_set_nodup {V} key (v : V) m : List.NoDup (keys m) -> List.NoDup (keys (map_set key v m)).
Proof.
  intros Hm. rewrite map_set_keys. destruct (map_has key m) eqn:E; [exact Hm | ].
  apply NoDup_ListNoDup, NoDup_app. apply NoDup_ListNoDup in Hm.
  split; [exact Hm | ]. split; [ | apply NoDup_singleton].
  intros k Hk Hin. apply list_elem_of_singleton in Hin. subst k.
  apply list_elem_of_In, map_get_keys in Hk. congruence.
Qed.

Lemma map_delete_keys_subset {V} key (m : list (string * V)) k :
  In k (keys (map_delete key m)) -> In k (keys m).
Proof.
  unfold keys. induction m as [|[k0 x] m IH]; simpl; [done | ].
  destruct (k0 =? key); simpl; [auto | intros [? | ?]; auto].
Qed.

Lemma map_delete_nodup {V} key (m : list (string * V)) :
  List.NoDup (keys m) -> List.NoDup (keys (map_delete key m)).
Proof.
  unfold keys. induction m as [|[k x] m IH]; simpl; [done | ].
  intros Hm. inversion Hm as [|? ? Hk Hrest]; subst.
  destruct (k =? key); [exact Hrest | ]. simpl. constructor; [ | by apply IH].
  intros Hin. apply Hk. by apply (map_delete_keys_subset key m).
Qed.

Lemma map_get_delete {V} key (m : list (string * V)) :
  List.NoDup (keys m) -> map_get key (map_delete key m) = None.
Proof.
  unfold keys. induction m as [|[k x] m IH]; simpl; [done | ].
  intros Hm. inversion Hm as [|? ? Hk Hrest]; subst.
  destruct (String.eqb_spec k key) as [->|Hne].
  - destruct (map_get key m) eqn:E; [ | reflexivity].
    exfalso. apply Hk. apply (map_get_keys key m). unfold map_has. by rewrite E.
  - simpl. destruct (String.eqb_spec k key); [contradiction | by apply IH].
Qed.


Lemma map_delete_absent {V} key (m : list (string * V)) :
  map_has key m = false -> map_delete key m = m.
Proof.
  unfold map_has. induction m as [|[k x] m IH]; simpl; [reflexivity | ].
  destruct (k =? key); [discriminate | ]. intros H. by rewrite IH.
Qed.

(** X9. [addAutoResponder] puts a new id at the end of the registry, the
    place of lowest priority, and leaves an id that is already registered
    where it stands (its rule is replaced); the other rules are untouched
    and the ids of the registry stay distinct. *)
Theorem addAutoResponder_keeps_order :
  forall env w trigger response options,
    exists key,
      outcome (addAutoResponder env trigger response options) w = Normal key /\
      registry (world_after (addAutoResponder env trigger response options) w)
      = map_set key
          (Responder.mk (match Options.id options with Some i => i | None => key end)
             trigger response
             (match Options.enabled options with Some b => b | None => true end)
             (dateNow env 1)
             (match Options.description options with Some d => d | None => "" end))
          (registry w) /\
      keys (registry (world_after (addAutoResponder env trigger response options) w))
      = (if map_has key (registry w) then keys (registry w)
         else (keys (registry w) ++ [key])%list) /\
      (forall key', key' <> key ->
         map_get key' (registry (world_after (addAutoResponder env trigger response options) w))
         = map_get key' (registry w)) /\
      (List.NoDup (keys (registry w)) ->
       List.NoDup (keys (registry (world_after (addAutoResponder env trigger response options) w)))).
Proof.
  intros env w trigger response options.
  unfold outcome, world_after, addAutoResponder, registry. run_monad. cbn [fst snd].
  eexists. split; [reflexivity | ]. cbn [handler with_handler autoResponders set_autoResponders].
  split; [ | split; [apply map_set_keys | split; [intros; by apply map_get_set_other | apply map_set_nodup]]].
  f_equal. destruct options as [[i|] [[|]|] [d|]]; simpl; try reflexivity;
    f_equal; destruct d; reflexivity.
Qed.



(** X11. [toggleAutoResponder] answers whether the id is registered. For a
    registered id it sets the [enabled] member of that rule and nothing
    else: the rule keeps its place, its trigger and its response, and the
    other rules are as before; for an id that is not registered the
    registry is as before. *)
Theorem toggleAutoResponder_sets_enabled :
  forall w responderId enabled,
    let w' := world_after (toggleAutoResponder responderId enabled) w in
    outcome (toggleAutoResponder responderId enabled) w
    = Normal (map_has responderId (registry w)) /\
    keys (registry w') = keys (registry w) /\
    map_get responderId (registry w')
    = option_map (set_enabled enabled) (map_get responderId (registry w)) /\
    (forall key', key' <> responderId -> map_get key' (registry w') = map_get key' (registry w)) /\
    (map_has responderId (registry w) = false -> w' = w).
Proof.
  intros w responderId enabled w'. subst w'.
  unfold outcome, world_after, toggleAutoResponder, registry, map_has. do 2 run_monad.
  destruct (map_get responderId (autoResponders (handler w))) as [r|] eqn:E;
    cbn [fst snd handler with_handler autoResponders set_autoResponders option_map].
  - split; [reflexivity | ].
    split; [rewrite map_set_keys; unfold map_has; by rewrite E | ].
    split; [apply map_get_set | ].
    split; [intros; by apply map_get_set_other | discriminate].
  - rewrite E. repeat split; reflexivity.
Qed.

(** ** Which rules are tried *)

Lemma tested_app t1 t2 : tested (t1 ++ t2)%list = (tested t1 ++ tested t2)%list.
Proof. apply List.filter_app. Qed.

Lemma replies_app t1 t2 : replies (t1 ++ t2)%list = (replies t1 ++ replies t2)%list.
Proof. apply List.filter_app. Qed.

Lemma calls_app t1 t2 :
  List.filter is_client_call (t1 ++ t2)%list
  = (List.filter is_client_call t1 ++ List.filter is_client_call t2)%list.
Proof. apply List.filter_app. Qed.

Lemma responders_loop_run env messageText messageData w rules :
  exists t,
    responders_loop env rules messageText messageData w = (w, t, Normal tt) /\
    tested t `prefix_of` tests_of rules /\
    (length (replies t) <= 1)%nat /\
    (Forall (fun kr => fires messageText (snd kr) = false) rules ->
     replies t = [] /\ tested t = tests_of rules).
Proof.
  induction rules as [|[k x] rest IH]; cbn [responders_loop].
  - exists []. repeat split; simpl; try reflexivity; lia.
  - destruct (test_rule_run messageText k x w) as [t1 [Hrun [Hr Ht]]].
    rewrite (bind_normal _ _ _ _ _ _ Hrun).
    assert (Hhead : tests_of ((k, x) :: rest)
                    = ((if Responder.enabled x then [TriggerTest k] else []) ++ tests_of rest)%list).
    { unfold tests_of. simpl. destruct (Responder.enabled x); reflexivity. }
    destruct (fires messageText x) eqn:Hfire.
    + destruct (executeAutoResponder_run env x messageData w) as [t2 [Hexec [Hr2 Ht2]]].
      unfold world_after, trace_of, outcome. rewrite Hexec. cbn [fst snd].
      eexists. split; [reflexivity | ].
      rewrite tested_app, replies_app, Hr, Ht, Hr2, Ht2, Hhead, app_nil_r.
      split; [apply prefix_app_r; reflexivity | ].
      split; [apply expected_replies_at_most_one | ].
      intros Hall. inversion Hall as [|? ? Hx _]; subst. simpl in Hx. congruence.
    + destruct IH as [t2 [Hrest [Hpre [Hone Hnone]]]].
      unfold world_after, trace_of, outcome. rewrite Hrest. cbn [fst snd].
      eexists. split; [reflexivity | ].
      rewrite tested_app, replies_app, Hr, Ht, Hhead.
      split; [by apply prefix_app | ].
      split; [exact Hone | ].
      intros Hall. inversion Hall as [|? ? _ Hrest']; subst.
      destruct (Hnone Hrest') as [-> ->]. by split.
Qed.

Lemma checkAutoResponders_run env messageData w :
  exists t,
    checkAutoResponders env messageData w = (w, t, Normal tt) /\
    tested t `prefix_of` tests_of (registry w) /\
    (length (replies t) <= 1)%nat /\
    (MessageData.type messageData <> "chat" -> t = []) /\
    (forall b,
       MessageData.type messageData = "chat" -> MessageData.body messageData = Some b ->
       Forall (fun kr => fires (trim (toLowerCase b)) (snd kr) = false) (registry w) ->
       replies t = [] /\ tested t = tests_of (registry w)).
Proof.
  unfold checkAutoResponders, registry.
  destruct (String.eqb_spec (MessageData.type messageData) "chat") as [Htype|Htype]; cbn [negb].
  - destruct (MessageData.body messageData) as [b|] eqn:Hbody.
    + destruct (responders_loop_run env (trim (toLowerCase b)) messageData w
                  (autoResponders (handler w))) as [t [Hrun [Hpre [Hone Hnone]]]].
      exists t. split.
      { unfold try_catch, bind, ret, gets. rewrite Hrun. reflexivity. }
      split; [exact Hpre | ]. split; [exact Hone | ]. split; [congruence | ].
      intros b' _ [= <-]. exact Hnone.
    + eexists. split; [reflexivity | ].
      split; [apply prefix_nil | ]. split; [simpl; lia | ].
      split; [congruence | ]. intros b' _ Hb. discriminate Hb.
  - exists []. split; [reflexivity | ]. split; [apply prefix_nil | ].
    split; [simpl; lia | ]. split; [reflexivity | ]. intros b Hb. contradiction.
Qed.

Lemma tested_in key t : In (TriggerTest key) t <-> In (TriggerTest key) (tested t).
Proof.
  unfold tested. rewrite List.filter_In. split; [intros H; by split | by intros [H _]].
Qed.

Lemma tests_of_in key rules :
  In (TriggerTest key) (tests_of rules) ->
  exists r, In (key, r) rules /\ Responder.enabled r = true.
Proof.
  unfold tests_of. rewrite List.in_map_iff. intros [[k r] [[= ->] Hin]].
  apply List.filter_In in Hin as [Hin Hen]. by exists r.
Qed.

Lemma map_get_in {V} key (v : V) m :
  List.NoDup (keys m) -> In (key, v) m -> map_get key m = Some v.
Proof.
  unfold keys. induction m as [|[k x] m IH]; simpl; [done | ].
  intros Hm [Hin|Hin]; inversion Hm as [|? ? Hk Hrest]; subst.
  - injection Hin as -> ->. by rewrite String.eqb_refl.
  - destruct (String.eqb_spec k key) as [->|Hne]; [ | by apply IH].
    exfalso. apply Hk. apply List.in_map_iff. by exists (key, v).
Qed.

(** X12. No message makes [checkAutoResponders] test the trigger of a rule
    that [toggleAutoResponder] has disabled or that [removeAutoResponder]
    has removed: its pattern is not run and its predicate is not called. *)
Theorem disabled_or_removed_rule_is_never_tested :
  forall w responderId env messageData,
    List.NoDup (keys (registry w)) ->
    ~ In (TriggerTest responderId)
         (trace_of (checkAutoResponders env messageData)
                   (world_after (toggleAutoResponder responderId false) w)) /\
    ~ In (TriggerTest responderId)
         (trace_of (checkAutoResponders env messageData)
                   (world_after (removeAutoResponder responderId) w)).
Proof.
  intros w responderId env messageData Hnodup.
  assert (Hnever : forall w',
            List.NoDup (keys (registry w')) ->
            (forall r, map_get responderId (registry w') = Some r -> Responder.enabled r = false) ->
            ~ In (TriggerTest responderId) (trace_of (checkAutoResponders env messageData) w')).
  { intros w' Hk Hoff Hin.
    destruct (checkAutoResponders_run env messageData w') as [t [Hrun [Hpre _]]].
    unfold trace_of in Hin. rewrite Hrun in Hin. cbn [fst snd] in Hin.
    apply tested_in in Hin. destruct Hpre as [rest Hrest].
    assert (Hin' : In (TriggerTest responderId) (tests_of (registry w'))).
    { rewrite Hrest. apply List.in_or_app. by left. }
    destruct (tests_of_in _ _ Hin') as [r [Hr Hen]].
    rewrite (Hoff r (map_get_in _ _ _ Hk Hr)) in Hen. discriminate. }
  split.
  - assert (Hw' : registry (world_after (toggleAutoResponder responderId false) w)
                  = match map_get responderId (registry w) with
                    | Some r => map_set responderId (set_enabled false r) (registry w)
                    | None => registry w
                    end).
    { unfold world_after, toggleAutoResponder, registry. do 2 run_monad.
      destruct (map_get responderId (autoResponders (handler w))); reflexivity. }
    apply Hnever; rewrite Hw'.
    + destruct (map_get responderId (registry w)); [by apply map_set_nodup | exact Hnodup].
    + destruct (map_get responderId (registry w)) as [r0|] eqn:E.
      * intros r. rewrite map_get_set. by intros [= <-].
      * intros r. rewrite E. discriminate.
  - assert (Hw' : registry (world_after (removeAutoResponder responderId) w)
                  = map_delete responderId (registry w)).
    { unfold world_after, removeAutoResponder, registry. do 2 run_monad.
      destruct (map_has responderId (autoResponders (handler w))); reflexivity. }
    apply Hnever; rewrite Hw'.
    + by apply map_delete_nodup.
    + intros r. rewrite map_get_delete by exact Hnodup. discriminate.
Qed.

Lemma disabled_rule_witness :
  ~ In (TriggerTest "responder_1700000000000")
       (trace_of (checkAutoResponders quiet_env (messageData_of hello_message))
                 (world_after (toggleAutoResponder "responder_1700000000000" false)
                              greeting_world)).
Proof.
  apply (disabled_or_removed_rule_is_never_tested greeting_world
           "responder_1700000000000" quiet_env (messageData_of hello_message)).
  vm_compute. repeat constructor. by intros [].
Defined.

(** X13. When no enabled rule matches the text of a ['chat'] message,
    [checkAutoResponders] tests every enabled rule once, in the order of
    the registry, sends no reply and returns normally. *)
Theorem no_match_tests_all_and_replies_nothing :
  forall env w messageData b,
    MessageData.type messageData = "chat" ->
    MessageData.body messageData = Some b ->
    Forall (fun kr => fires (trim (toLowerCase b)) (snd kr) = false) (registry w) ->
    outcome (checkAutoResponders env messageData) w = Normal tt /\
    tested (trace_of (checkAutoResponders env messageData) w) = tests_of (registry w) /\
    replies (trace_of (checkAutoResponders env messageData) w) = [].
Proof.
  intros env w messageData b Htype Hbody Hall.
  destruct (checkAutoResponders_run env messageData w) as [t [Hrun [_ [_ [_ Hnone]]]]].
  unfold outcome, trace_of. rewrite Hrun. cbn [fst snd].
  destruct (Hnone b Htype Hbody Hall) as [Hr Ht]. by repeat split.
Qed.

Lemma no_match_witness :
  replies (trace_of (checkAutoResponders quiet_env (messageData_of own_message))
                    greeting_world) = [].
Proof.
  apply (no_match_tests_all_and_replies_nothing quiet_env greeting_world
           (messageData_of own_message) "on my way" eq_refl eq_refl).
  vm_compute. repeat constructor.
Defined.

(** X14. A group message, a message of the account itself and a message
    that is not of type ['chat'] are entered in the message log by
    [processMessage] and nothing more: no trigger is tested, no reply is
    sent and the messaging client is not called. *)
Theorem excluded_messages_are_only_logged :
  forall env w messageData,
    MessageData.isGroupMsg messageData = true \/
    MessageData.fromMe messageData = true \/
    MessageData.type messageData <> "chat" ->
    let t := trace_of (processMessage env messageData) w in
    outcome (processMessage env messageData) w = Normal tt /\
    tested t = [] /\ replies t = [] /\ List.filter is_client_call t = [] /\
    messageLog (handler (world_after (processMessage env messageData) w))
    = log_push (maxLogSize (handler w)) (messageLog (handler w))
        {| entry := messageData; processedAt := dateNow env 0 |}.
Proof.
  intros env w messageData Hexcluded t. subst t.
  split; [apply logged_returns | ].
  split; [ | split; [ | split; [ | by rewrite processMessage_world]]].
  all: unfold trace_of, processMessage, try_catch;
    rewrite (bind_normal _ _ _ _ _ _ (addToMessageLog_run env messageData w));
    set (w1 := with_handler _ w);
    unfold shouldProcessGroupMessages, isOwnMessage, world_after, trace_of, outcome;
    cbn [negb]; rewrite andb_true_r, orb_false_r.
  all: destruct (MessageData.isGroupMsg messageData) eqn:Hg; [reflexivity | ].
  all: destruct (MessageData.fromMe messageData) eqn:Hown; [reflexivity | ].
  all: destruct Hexcluded as [? | [? | Htype]]; try discriminate.
  all: destruct (checkAutoResponders_run env messageData w1) as [tc [Hrun [_ [_ [Hnil _]]]]].
  all: rewrite (Hnil Htype) in Hrun.
  all: rewrite (bind_normal _ _ _ _ _ _ Hrun); cbn [negb].
  all: unfold world_after, trace_of, outcome, logMessageDetails, throw, logger, emit.
  all: destruct (8640000000000000 <? _)%Z; reflexivity.
Qed.

Lemma excluded_messages_witness :
  replies (trace_of (processMessage quiet_env (messageData_of own_message)) greeting_world)
  = [].
Proof.
  apply (excluded_messages_are_only_logged quiet_env greeting_world
           (messageData_of own_message)).
  right. by left.
Defined.

(** ** Listing the rules *)

Lemma map_throwing_normal {A B} (f : A -> completion B) l :
  Forall (fun x => exists y, f x = Normal y) l ->
  exists ys, map_throwing f l = Normal ys /\ Forall2 (fun x y => f x = Normal y) l ys.
Proof.
  induction 1 as [|x l [y Hy] _ [ys [Hys Hall]]]; simpl.
  - exists []. by split.
  - rewrite Hy, Hys. exists (y :: ys). split; [reflexivity | by constructor].
Qed.

Lemma map_throwing_throw {A B} (f : A -> completion B) l :
  Exists (fun x => exists e, f x = Throw e) l -> exists e, map_throwing f l = Throw e.
Proof.
  induction 1 as [x l [e He] | x l _ [e He]]; simpl.
  - rewrite He. by exists e.
  - destruct (f x); [rewrite He | ]; by eexists.
Qed.

Lemma view_of_run show kr :
  if nullish_trigger (Responder.trigger (snd kr))
  then exists e, view_of show kr = Throw e
  else exists v, view_of show kr = Normal v /\
                 ResponderView.id v = Responder.id (snd kr) /\
                 ResponderView.enabled v = Responder.enabled (snd kr).
Proof.
  unfold view_of, trigger_toString.
  destruct (Responder.trigger (snd kr)) as [[]| |]; simpl; eauto.
Qed.

Lemma map_set_in {V} key (v : V) m : In (key, v) (map_set key v m).
Proof.
  induction m as [|[k x] m IH]; simpl; [by left | ].
  destruct (k =? key); simpl; auto.
Qed.

Lemma forallb_false {A} (p : A -> bool) l :
  forallb p l = false -> Exists (fun x => p x = false) l.
Proof.
  induction l as [|x l IH]; simpl; [discriminate | ].
  destruct (p x) eqn:E; simpl; [intros H; right; by apply IH | intros _; by left].
Qed.

Lemma addAutoResponder_registers env w trigger response options :
  exists key r,
    registry (world_after (addAutoResponder env trigger response options) w)
    = map_set key r (registry w) /\
    Responder.trigger r = trigger.
Proof.
  unfold world_after, addAutoResponder, registry. do 2 run_monad. cbn [fst snd].
  eexists _, _. split; reflexivity.
Qed.

(** X15. [getAutoResponders] returns one view for each rule, in the order
    of the registry and with its id and its [enabled] flag, when no
    trigger is [undefined] or [null]; when one is, the call of [toString]
    on it throws and the exception reaches the caller. So after
    [addAutoResponder] has taken such a trigger, the listing throws. *)
Theorem getAutoResponders_lists_or_throws :
  forall show w,
    (if forallb (fun kr => negb (nullish_trigger (Responder.trigger (snd kr)))) (registry w)
     then exists views,
            outcome (getAutoResponders show) w = Normal views /\
            List.map ResponderView.id views
            = List.map (fun kr => Responder.id (snd kr)) (registry w) /\
            List.map ResponderView.enabled views
            = List.map (fun kr => Responder.enabled (snd kr)) (registry w)
     else exists e, outcome (getAutoResponders show) w = Throw e) /\
    (forall env trigger response options,
       nullish_trigger trigger = true ->
       exists e,
         outcome (getAutoResponders show)
                 (world_after (addAutoResponder env trigger response options) w)
         = Throw e).
Proof.
  intros show w.
  assert (Hrun : forall w0, outcome (getAutoResponders show) w0
                            = map_throwing (view_of show) (registry w0)).
  { intros w0. unfold outcome, getAutoResponders, registry. run_monad. reflexivity. }
  assert (Hthrow : forall w0,
            Exists (fun kr => nullish_trigger (Responder.trigger (snd kr)) = true) (registry w0) ->
            exists e, outcome (getAutoResponders show) w0 = Throw e).
  { intros w0 Hex. rewrite Hrun. apply map_throwing_throw.
    eapply Exists_impl; [exact Hex | ]. intros kr Hkr.
    pose proof (view_of_run show kr) as Hv. by rewrite Hkr in Hv. }
  split.
  - destruct (forallb _ (registry w)) eqn:Hall.
    + rewrite Hrun.
      assert (Hok : Forall (fun kr => nullish_trigger (Responder.trigger (snd kr)) = false)
                      (registry w)).
      { apply Forall_forall. intros kr Hin.
        rewrite forallb_forall in Hall. specialize (Hall kr (proj1 (list_elem_of_In _ _) Hin)).
        by apply negb_true_iff in Hall. }
      clear Hall Hthrow. induction Hok as [|kr rules Hkr _ IH]; simpl.
      * exists []. by repeat split.
      * pose proof (view_of_run show kr) as Hv. rewrite Hkr in Hv.
        destruct Hv as [v [-> [Hid Hen]]]. destruct IH as [vs [-> [Hids Hens]]].
        exists (v :: vs). simpl. rewrite Hid, Hen, Hids, Hens. by repeat split.
    + apply Hthrow. apply forallb_false in Hall.
      eapply Exists_impl; [exact Hall | ]. intros kr Hkr. by apply negb_false_iff in Hkr.
  - intros env trigger response options Hnull. apply Hthrow.
    destruct (addAutoResponder_registers env w trigger response options)
      as [key [r [Hreg Htrig]]].
    apply Exists_exists. exists (key, r). split.
    + apply list_elem_of_In. rewrite Hreg. apply map_set_in.
    + simpl. by rewrite Htrig.
Qed.

(** ** The message log *)

Lemma log_push_bounded n l e :
  (1 <= n)%nat -> (length l <= n)%nat -> (length (log_push n l e) <= n)%nat.
Proof.
  intros Hn Hl. rewrite log_push_last by exact Hn.
  rewrite length_app, length_drop. simpl. lia.
Qed.

Lemma processMessage_keeps_bound env messageData :
  respects (keeps log_within_bound) any_effect (processMessage env messageData).
Proof.
  intros w. split; [ | apply Forall_forall; done].
  unfold keeps, log_within_bound. rewrite processMessage_world. simpl.
  intros [Hmax Hlen]. split; [exact Hmax | ].
  rewrite Hmax. apply log_push_bounded; lia.
Qed.

Lemma same_handler_keeps_bound {A} (m : M A) :
  respects (same handler) any_effect m -> respects (keeps log_within_bound) any_effect m.
Proof.
  apply respects_weaken; try apply _; [ | done].
  unfold same, keeps, log_within_bound. intros w w' <-. done.
Qed.

Lemma cleanupStaleLocks_keeps_handler : respects (same handler) any_effect cleanupStaleLocks.
Proof. unfold cleanupStaleLocks, remove_stale, existsSync, unlinkSync, any_effect. frame. Qed.

Lemma lifecycle_keeps_handler env :
  respects (same handler) any_effect (start env) /\
  respects (same handler) any_effect (stop env).
Proof.
  split.
  - unfold start, initializeClient, on_client, any_effect. frame.
    all: apply cleanupStaleLocks_keeps_handler.
  - unfold stop, on_client, any_effect. frame.
Qed.

Lemma handleIncomingMessage_keeps_bound env message :
  respects (keeps log_within_bound) any_effect (handleIncomingMessage env message).
Proof.
  intros w. split; [ | apply Forall_forall; done].
  rewrite handleIncomingMessage_steps.
  assert (Hh : respects (keeps log_within_bound) any_effect
                 (run_handlers env (messageData_of message))).
  { unfold run_handlers, any_effect. frame.
    match goal with h : Handler |- _ => destruct h end; cbn [invoke].
    - apply processMessage_keeps_bound.
    - apply same_handler_keeps_bound. unfold any_effect. frame. }
  intros Hw. apply Hh. destruct (insert_run env _); exact Hw.
Qed.

Lemma perform_keeps_bound env op :
  respects (keeps log_within_bound) any_effect (perform env op).
Proof.
  destruct op; cbn [perform].
  - apply same_handler_keeps_bound, lifecycle_keeps_handler.
  - apply same_handler_keeps_bound, lifecycle_keeps_handler.
  - destruct ev; cbn [dispatch_event];
      try solve [apply same_handler_keeps_bound;
                 unfold on_qr, on_ready, on_authenticated, on_auth_failure,
                        on_disconnected, on_error, any_effect; frame].
    unfold on_message, any_effect. frame. apply handleIncomingMessage_keeps_bound.
  - apply same_handler_keeps_bound. unfold addMessageHandler, any_effect. frame.
  - unfold discard, addAutoResponder, any_effect. frame.
    unfold keeps, log_within_bound. simpl. done.
  - apply same_handler_keeps_bound. unfold discard, any_effect. frame.
    apply sendMessage_respects; try apply _; done.
  - apply same_handler_keeps_bound. unfold discard, any_effect. frame.
    apply sendToChat_respects; try apply _; done.
Qed.

(** X16. In every state that the process reaches from its constructors,
    through lifecycle calls, client events, inbound messages, sends and
    registrations in any order, the message log holds at most 1000
    entries. *)
Theorem message_log_never_exceeds_bound :
  forall env0 d table ops,
    (length (messageLog (handler (run ops (constructed env0 d table)))) <= 1000)%nat.
Proof.
  intros env0 d table ops.
  assert (Hrun : forall ops w, log_within_bound w -> log_within_bound (run ops w)).
  { clear ops. induction ops as [|[env op] rest IH]; intros w Hw; cbn [run]; [exact Hw | ].
    apply IH. by apply (perform_keeps_bound env op w). }
  apply Hrun.
  assert (Hc : respects (same handler) any_effect (construct env0)).
  { unfold construct, initializeClient, addMessageHandler, any_effect. frame.
    apply cleanupStaleLocks_keeps_handler. }
  unfold constructed, log_within_bound.
  destruct (Hc (blank_world d table)) as [<- _]. simpl. split; [reflexivity | lia].
Qed.

Lemma slice_from_last {A} (n : nat) (l : list A) :
  slice_from (- Z.of_nat n) l = slice_last n l.
Proof.
  unfold slice_from, slice_last. destruct n as [|n].
  - change (- Z.of_nat 0)%Z with 0%Z. change (0 <? 0)%Z with false.
    change (0 =? 0)%nat with true. cbv iota.
    replace (Z.to_nat (Z.min 0 (Z.of_nat (length l)))) with 0%nat by lia. reflexivity.
  - destruct (- Z.of_nat (S n) <? 0)%Z eqn:E; [ | apply Z.ltb_ge in E; lia].
    change (S n =? 0)%nat with false. cbv iota. f_equal. lia.
Qed.

(** X17. [getRecentMessages(limit)] with a positive limit returns the last
    [limit] entries of the log, in the order of the log, and the whole log
    when it is shorter; with the limit 0 it returns the whole log, and with
    a negative limit [-k] the log without its first [k] entries. *)
Theorem getRecentMessages_returns_tail :
  forall w limit,
    ((0 < limit)%Z ->
     getRecentMessages limit w = drop (length (log_of w) - Z.to_nat limit) (log_of w) /\
     length (getRecentMessages limit w) = Nat.min (Z.to_nat limit) (length (log_of w))) /\
    getRecentMessages 0 w = log_of w /\
    ((limit < 0)%Z -> getRecentMessages limit w = drop (Z.to_nat (- limit)) (log_of w)).
Proof.
  intros w limit. unfold getRecentMessages, log_of, slice_from.
  set (l := messageLog (handler w)). split; [ | split].
  - intros Hpos. destruct (- limit <? 0)%Z eqn:E; [ | apply Z.ltb_ge in E; lia].
    assert (Hk : Z.to_nat (Z.max (Z.of_nat (length l) + - limit) 0)
                 = (length l - Z.to_nat limit)%nat) by lia.
    rewrite Hk. split; [reflexivity | ]. rewrite length_drop. lia.
  - change (- 0)%Z with 0%Z. change (0 <? 0)%Z with false. cbv iota.
    replace (Z.to_nat (Z.min 0 (Z.of_nat (length l)))) with 0%nat by lia. reflexivity.
  - intros Hneg. destruct (- limit <? 0)%Z eqn:E; [apply Z.ltb_lt in E; lia | ].
    destruct (Z.min_spec (- limit) (Z.of_nat (length l))) as [[Hlt ->] | [Hge ->]].
    + reflexivity.
    + rewrite Nat2Z.id. rewrite !drop_ge; [reflexivity | lia | lia].
Qed.

(** X18. With a bound of at least one entry, [getRecentMessages(1)] taken
    after [processMessage] returns the message just processed, and
    nothing else. *)
Theorem processed_message_is_most_recent :
  forall env w messageData,
    (1 <= maxLogSize (handler w))%nat ->
    getRecentMessages 1 (world_after (processMessage env messageData) w)
    = [{| entry := messageData; processedAt := dateNow env 0 |}].
Proof.
  intros env w messageData Hmax.
  change 1%Z with (Z.of_nat 1). unfold getRecentMessages.
  rewrite slice_from_last, processMessage_world. simpl.
  rewrite (log_push_last _ _ _ Hmax). unfold slice_last. simpl.
  rewrite length_app. simpl.
  rewrite drop_app_le by lia.
  replace (length (drop _ (messageLog (handler w))) + 1 - 1)%nat
    with (length (drop (length (messageLog (handler w)) + 1 - maxLogSize (handler w))
                       (messageLog (handler w)))) by lia.
  by rewrite drop_all.
Qed.

Lemma processed_message_witness :
  getRecentMessages 1 (world_after (processMessage quiet_env (messageData_of hello_message))
                                   greeting_world)
  = [{| entry := messageData_of hello_message; processedAt := 1700000000000 |}].
Proof.
  apply (processed_message_is_most_recent quiet_env greeting_world
           (messageData_of hello_message)).
  apply Nat.leb_le. reflexivity.
Defined.

(** ** Searching the message log *)

Lemma filter_throwing_normal {A} (f : A -> completion bool) l xs :
  filter_throwing f l = Normal xs ->
  xs `sublist_of` l /\ Forall (fun x => f x = Normal true) xs.
Proof.
  revert xs. induction l as [|x l IH]; simpl; intros xs.
  - intros [= <-]. by split.
  - destruct (f x) as [keep|] eqn:Hx; [ | discriminate].
    destruct (filter_throwing f l) as [ys|]; [ | discriminate].
    destruct (IH ys eq_refl) as [Hsub Hall].
    intros [= <-]. destruct keep.
    + split; [by apply sublist_skip | by constructor].
    + split; [by apply sublist_cons | exact Hall].
Qed.

Lemma filter_throwing_all {A} (f : A -> completion bool) l :
  Forall (fun x => f x = Normal true) l -> filter_throwing f l = Normal l.
Proof. induction 1 as [|x l Hx _ IH]; simpl; [reflexivity | by rewrite Hx, IH]. Qed.

Lemma filter_throwing_throw {A} (f : A -> completion bool) l :
  Exists (fun x => exists e, f x = Throw e) l -> exists e, filter_throwing f l = Throw e.
Proof.
  induction 1 as [x l [e He] | x l _ [e He]]; simpl.
  - rewrite He. by exists e.
  - destruct (f x); [rewrite He | ]; by eexists.
Qed.

(** X19. [searchMessages] always returns to its caller and changes
    nothing. What it returns is a selection of the log in the order of the
    log, of entries that pass every criterion; with no criterion it is the
    whole log. When a sender is asked for and some entry of the log has no
    sender, the search of the whole log fails inside and the result is
    empty. *)
Theorem searchMessages_selects_from_log :
  forall criteria w,
    exists found,
      outcome (searchMessages criteria) w = Normal found /\
      world_after (searchMessages criteria) w = w /\
      found `sublist_of` log_of w /\
      Forall (fun e => matches_criteria criteria e = Normal true) found /\
      (criteria = Criteria.empty -> found = log_of w) /\
      (forall f,
         Criteria.from criteria = Some f -> f <> "" ->
         Exists (fun e => MessageData.from (entry e) = None) (log_of w) ->
         found = []).
Proof.
  intros criteria w. unfold outcome, world_after, searchMessages, log_of. do 2 run_monad.
  destruct (filter_throwing (matches_criteria criteria) (messageLog (handler w)))
    as [xs|e] eqn:Hrun; cbn [fst snd].
  - exists xs. destruct (filter_throwing_normal _ _ _ Hrun) as [Hsub Hall].
    split; [reflexivity | ]. split; [reflexivity | ]. split; [exact Hsub | ].
    split; [exact Hall | ]. split.
    + intros ->. rewrite filter_throwing_all in Hrun; [by injection Hrun | ].
      apply Forall_forall. reflexivity.
    + intros f Hf Hne Hex. exfalso.
      destruct (filter_throwing_throw (matches_criteria criteria) (messageLog (handler w)))
        as [e He]; [ | congruence].
      eapply Exists_impl; [exact Hex | ]. intros x Hx.
      unfold matches_criteria. rewrite Hf, (truthy_nonempty f Hne), Hx. by eexists.
  - exists []. split; [reflexivity | ]. split; [reflexivity | ].
    split; [apply sublist_nil_l | ]. split; [constructor | ]. split; [ | reflexivity].
    intros ->. rewrite filter_throwing_all in Hrun; [discriminate | ].
    apply Forall_forall. reflexivity.
Qed.

(** ** The readiness gate and the frame of the send path *)

(** X20. [isRegisteredNumber] always returns to its caller and changes
    nothing. It answers [true] exactly when the session is ready, the
    number can be formatted, a client is held and the client knows the
    formatted number. *)
Theorem isRegisteredNumber_answers :
  forall env w phoneNumber countryCode,
    exists b,
      outcome (isRegisteredNumber env phoneNumber countryCode) w = Normal b /\
      world_after (isRegisteredNumber env phoneNumber countryCode) w = w /\
      (b = true <->
       isReady (service w) = true /\
       exists f c i,
         Validator.formatPhoneNumber phoneNumber countryCode = Normal f /\
         client (service w) = Some c /\
         client_getNumberId env f = Normal (Some i)).
Proof.
  intros env w phoneNumber countryCode.
  unfold outcome, world_after, isRegisteredNumber. do 2 run_monad.
  destruct (isReady (service w)); cbn [negb fst snd];
    [ | eexists; split; [reflexivity | split; [reflexivity | ]];
        split; [discriminate | by intros [? _]]].
  destruct (Validator.formatPhoneNumber phoneNumber countryCode) as [f|e]; cbn [fst snd];
    [ | eexists; split; [reflexivity | split; [reflexivity | ]];
        split; [discriminate | by intros [_ (? & ? & ? & ? & _)]]].
  destruct (client (service w)) as [c|]; cbn [fst snd];
    [ | eexists; split; [reflexivity | split; [reflexivity | ]];
        split; [discriminate | by intros [_ (? & ? & ? & _ & ? & _)]]].
  destruct (client_getNumberId env f) as [[i|]|e] eqn:Hid; cbn [fst snd];
    eexists; (split; [reflexivity | split; [reflexivity | ]]).
  - split; [intros _; split; [reflexivity | by exists f, c, i] | reflexivity].
  - split; [discriminate | intros [_ (f' & ? & ? & [= <-] & _ & H)]; congruence].
  - split; [discriminate | intros [_ (f' & ? & ? & [= <-] & _ & H)]; congruence].
Qed.

(** X21. [sendMessage] hands a text to [client.sendMessage] only for a
    number that [isRegisteredNumber] answers [true] for, in the same state
    and with the same client. *)
Theorem sent_number_is_registered :
  forall env w phoneNumber message countryCode target content,
    In (ClientSendMessage target content)
       (trace_of (sendMessage env phoneNumber message countryCode) w) ->
    outcome (isRegisteredNumber env phoneNumber countryCode) w = Normal true.
Proof.
  intros env w phoneNumber message countryCode target content.
  unfold trace_of, outcome, sendMessage, isRegisteredNumber. run_monad.
  paths; simpl; intros Hin;
    repeat (destruct Hin as [Hin | Hin]; simplify_eq/=); try done; try congruence.
Qed.

Lemma sent_number_witness :
  outcome (isRegisteredNumber quiet_env (VString "0501234567") "972") ready_world
  = Normal true.
Proof.
  apply (sent_number_is_registered quiet_env ready_world (VString "0501234567")
           (VString "hello") "972" "972501234567@c.us" (VString "hello")).
  vm_compute. auto.
Defined.

(** X22. While the session is not ready, [sendMessage], [sendToChat] and
    [isRegisteredNumber] make no call to the messaging client, whatever
    their arguments; the two sends return [success: false] with the
    message of the session that is not ready, and [isRegisteredNumber]
    answers [false]. *)
Theorem not_ready_blocks_client_calls :
  forall env w phoneNumber message countryCode chatId,
    isReady (service w) = false ->
    (List.filter is_client_call
       (trace_of (sendMessage env phoneNumber message countryCode) w) = [] /\
     exists r, outcome (sendMessage env phoneNumber message countryCode) w = Normal r /\
               SendResult.success r = false /\
               SendResult.error r = Some (Js.message not_ready)) /\
    (List.filter is_client_call (trace_of (sendToChat env chatId message) w) = [] /\
     exists r, outcome (sendToChat env chatId message) w = Normal r /\
               SendResult.success r = false /\
               SendResult.error r = Some (Js.message not_ready)) /\
    (List.filter is_client_call
       (trace_of (isRegisteredNumber env phoneNumber countryCode) w) = [] /\
     outcome (isRegisteredNumber env phoneNumber countryCode) w = Normal false).
Proof.
  intros env w phoneNumber message countryCode chatId Hready.
  unfold trace_of, outcome, sendMessage, sendToChat, isRegisteredNumber. do 2 run_monad.
  rewrite Hready. cbn [negb fst snd].
  repeat split; try reflexivity; eexists; repeat split; reflexivity.
Qed.

Lemma not_ready_witness :
  List.filter is_client_call
    (trace_of (sendMessage quiet_env (VString "0501234567") (VString "hello") "972")
              (constructed quiet_env empty_dir [])) = [].
Proof.
  apply (not_ready_blocks_client_calls quiet_env (constructed quiet_env empty_dir [])
           (VString "0501234567") (VString "hello") "972" "972501234567@c.us").
  reflexivity.
Defined.

(** X23. [sendMessage] and [sendToChat] change nothing of the state:
    neither the session, nor the registry, the message log, the table or
    the session directory. Nor does [checkAutoResponders], when the
    triggers and the responses of the registry are plain values (a
    pattern keeps its [lastIndex], and a function may keep or change
    anything: see [Trigger]). *)
Theorem sending_changes_nothing :
  forall env w phoneNumber message countryCode chatId messageData,
    world_after (sendMessage env phoneNumber message countryCode) w = w /\
    world_after (sendToChat env chatId message) w = w /\
    (Forall plain_rule (registry w) ->
     world_after (checkAutoResponders env messageData) w = w).
Proof.
  intros env w phoneNumber message countryCode chatId messageData. repeat split.
  - apply (respects_unchanged _ any_effect). apply sendMessage_respects; try apply _; done.
  - apply (respects_unchanged _ any_effect). apply sendToChat_respects; try apply _; done.
  - intros _. apply (respects_unchanged _ any_effect).
    apply checkAutoResponders_respects; try apply _; done.
Qed.

Lemma plain_rules_witness :
  world_after (checkAutoResponders quiet_env (messageData_of hello_message)) greeting_world
  = greeting_world.
Proof.
  apply (sending_changes_nothing quiet_env greeting_world (VString "0501234567")
           (VString "hi") "972" "972501234567@c.us" (messageData_of hello_message)).
  repeat constructor.
Defined.

(** ** Stopping and starting *)

(** X24. [stop] on a session that holds a client: when [destroy] returns,
    the session is reset (not ready, ['disconnected'], no QR code) but the
    client is still held, so a second [stop] calls [destroy] again; when
    [destroy] throws, the same error reaches the caller and the state is
    left as it was. Without a client [stop] does nothing. *)
Theorem stop_resets_but_keeps_client :
  forall env w,
    (forall c,
       client (service w) = Some c ->
       match client_destroy env with
       | Normal _ =>
           outcome (stop env) w = Normal tt /\
           world_after (stop env) w = with_service reset_session w /\
           client (service (world_after (stop env) w)) = Some c /\
           In ClientDestroy (trace_of (stop env) (world_after (stop env) w))
       | Throw e =>
           outcome (stop env) w = Throw e /\ world_after (stop env) w = w
       end) /\
    (client (service w) = None -> stop env w = (w, [], Normal tt)).
Proof.
  intros env w. split.
  - intros c Hc.
    assert (Hrun : forall w0 c0, client (service w0) = Some c0 ->
              stop env w0 =
                match client_destroy env with
                | Normal _ => (with_service reset_session w0,
                               [ClientDestroy; Log Level.info "WhatsApp client stopped successfully"],
                               Normal tt)
                | Throw e => (w0, [ClientDestroy; Log Level.error "Failed to stop WhatsApp client:"],
                              Throw e)
                end).
    { intros w0 c0 H0. unfold stop. do 2 run_monad. rewrite H0. cbn beta iota.
      rewrite H0. destruct (client_destroy env) as [[]|e]; reflexivity. }
    unfold outcome, world_after, trace_of. rewrite (Hrun w c Hc).
    destruct (client_destroy env) as [[]|e] eqn:Hd; cbn [fst snd].
    + split; [reflexivity | ]. split; [reflexivity | ]. split; [exact Hc | ].
      rewrite (Hrun (with_service reset_session w) c Hc). rewrite ?Hd. by left.
    + by split.
  - intros Hnone. unfold stop. do 2 run_monad. rewrite Hnone. reflexivity.
Qed.

Lemma cleanupStaleLocks_result w :
  exists w1 t,
    cleanupStaleLocks w = (w1, t, Normal tt) /\
    service w1 = service w /\ handler w1 = handler w /\ messages w1 = messages w.
Proof.
  exists (world_after (for_of lockFiles remove_stale) w), (trace_of cleanupStaleLocks w).
  split; [apply cleanupStaleLocks_runs | ].
  pose proof (cleanupStaleLocks_runs w) as Hrun.
  assert (Hw : world_after cleanupStaleLocks w = world_after (for_of lockFiles remove_stale) w).
  { unfold world_after at 1. by rewrite Hrun. }
  rewrite <- Hw.
  destruct (cleanupStaleLocks_keeps_service w) as [Hs _].
  destruct (cleanupStaleLocks_keeps_handler w) as [Hh _].
  assert (Hm : respects (same messages) any_effect cleanupStaleLocks).
  { unfold cleanupStaleLocks, remove_stale, existsSync, unlinkSync, any_effect. frame. }
  destruct (Hm w) as [Hmsg _]. unfold same in *. by rewrite <- Hs, <- Hh, <- Hmsg.
Qed.

Lemma initializeClient_run env w :
  exists w1 t,
    service w1 = service w /\
    initializeClient env w =
      match new_Client env with
      | Normal c => (with_service (set_client (Some c)) w1, t, Normal tt)
      | Throw _ => (w1, t, Throw (mkError "Client initialization failed"))
      end.
Proof.
  destruct (cleanupStaleLocks_result w) as [w1 [t1 [Hrun [Hs _]]]].
  exists w1.
  unfold initializeClient. unfold try_catch. rewrite (bind_normal _ _ _ _ _ _ Hrun).
  unfold world_after, trace_of, outcome. do 2 run_monad.
  destruct (new_Client env) as [c|e]; cbn [fst snd]; eexists; split; try exact Hs; reflexivity.
Qed.

(** X25. What [start] leaves of the session. A client that was held is
    dropped and the session reset, whether its [destroy] returned or
    threw. Then: when a new client is created it is held, and [start]
    returns normally if [initialize] returns and throws the error of
    [initialize] otherwise (the new client stays held); when no client can
    be created, [start] throws ['Client initialization failed'] and no
    client is held. *)
Theorem start_replaces_client :
  forall env w,
    match new_Client env with
    | Normal c =>
        service (world_after (start env) w)
        = set_client (Some c) (dropped_session (service w)) /\
        outcome (start env) w
        = match client_initialize env with Normal _ => Normal tt | Throw e => Throw e end
    | Throw _ =>
        service (world_after (start env) w) = dropped_session (service w) /\
        outcome (start env) w = Throw (mkError "Client initialization failed")
    end.
Proof.
  intros env w. unfold dropped_session.
  assert (Hrest : forall w0,
            let rest := (logger Level.info "Reinitializing WhatsApp client..." ;;
                         initializeClient env ;;
                         logger Level.info "Starting WhatsApp client..." ;;
                         on_client ClientInitialize (client_initialize env) ;;
                         logger Level.info "WhatsApp client initialization completed") in
            match new_Client env with
            | Normal c =>
                service (world_after rest w0) = set_client (Some c) (service w0) /\
                outcome rest w0
                = match client_initialize env with Normal _ => Normal tt | Throw e => Throw e end
            | Throw _ =>
                service (world_after rest w0) = service w0 /\
                outcome rest w0 = Throw (mkError "Client initialization failed")
            end).
  { intros w0. cbv zeta.
    destruct (initializeClient_run env w0) as [w1 [t [Hs Hinit]]].
    unfold world_after, outcome.
    rewrite (bind_normal _ _ w0 w0 [Log Level.info "Reinitializing WhatsApp client..."] tt
               eq_refl).
    unfold world_after, trace_of, outcome.
    destruct (new_Client env) as [c|e].
    - rewrite (bind_normal _ _ _ _ _ _ Hinit). unfold world_after, trace_of, outcome.
      do 2 run_monad. cbn [service with_service client set_client].
      destruct (client_initialize env) as [[]|e]; cbn [fst snd];
        (split; [simpl; by rewrite Hs | reflexivity]).
    - rewrite (bind_throw _ _ _ _ _ _ Hinit). cbn [fst snd]. by split. }
  assert (Hcatch : forall (body : M unit) w0,
            service (world_after (try_catch body (fun error =>
               logger Level.error "Failed to start WhatsApp client:" ;; throw error)) w0)
            = service (world_after body w0) /\
            outcome (try_catch body (fun error =>
               logger Level.error "Failed to start WhatsApp client:" ;; throw error)) w0
            = outcome body w0).
  { intros body w0. unfold world_after, outcome, try_catch. do 2 run_monad.
    destruct (body w0) as [[w1 t1] [[]|e]]; by split. }
  unfold start. 
  match goal with |- context [try_catch ?b _] => set (body := b) end.
  destruct (Hcatch body w) as [-> ->]. subst body.
  unfold world_after, outcome.
  rewrite (bind_normal _ _ w w [] (client (service w)) eq_refl).
  unfold world_after, trace_of, outcome.
  destruct (client (service w)) as [c0|] eqn:Hc.
  - assert (Hdrop : exists w0 t0,
              (try_catch
                 (logger Level.info "Destroying existing client before reconnecting..." ;;
                  on_client ClientDestroy (client_destroy env))
                 (fun destroyError =>
                    logger Level.warn
                      "Could not destroy existing client (may not be running):") ;;
               modify (with_service (fun s => set_client None (reset_session s))) ;;
               cleanupStaleLocks) w = (w0, t0, Normal tt) /\
              service w0 = set_client None (reset_session (service w))).
    { destruct (cleanupStaleLocks_result
                  (with_service (fun s => set_client None (reset_session s)) w))
        as [w1 [t1 [Hrun [Hs _]]]].
      exists w1. do 2 run_monad. rewrite Hc.
      destruct (client_destroy env) as [[]|e]; cbn [fst snd]; rewrite Hrun;
        eexists; split; try reflexivity; exact Hs. }
    destruct Hdrop as [w0 [t0 [Hrun Hs0]]].
    rewrite (bind_normal _ _ _ _ _ _ Hrun). cbn [fst snd].
    specialize (Hrest w0). cbv zeta in Hrest.
    destruct (new_Client env); rewrite <- Hs0; exact Hrest.
  - rewrite (bind_normal _ _ w w [] tt eq_refl). cbn [fst snd].
    exact (Hrest w).
Qed.

(** ** Failure isolation in the dispatch *)

Lemma quiet_trace t :
  Forall not_a_handler_call t -> List.filter is_handler_call t = [].
Proof.
  induction 1 as [|e t He _ IH]; [reflexivity | ]. simpl.
  unfold not_a_handler_call in He. by rewrite He.
Qed.

Lemma handler_step_run env messageData h w :
  exists w1 t,
    try_catch (invoke env h messageData)
      (fun handlerError => logger Level.error "Message handler error:") w
    = (w1, t, Normal tt) /\
    service w1 = service w /\
    List.filter is_handler_call t
    = if is_external h then [HandlerCall (MessageData.id messageData)] else [].
Proof.
  destruct h as [|run]; cbn [invoke is_external].
  - assert (Hp : respects (same service) not_a_handler_call (processMessage env messageData)).
    { apply processMessage_respects; try apply _; try done.
      intros e He. destruct e; try discriminate He; done. }
    destruct (Hp w) as [Hs Ht].
    pose proof (logged_returns (processMessage env messageData) Level.error
                  "Message handler error:" w) as Hret.
    unfold outcome in Hret. unfold world_after, trace_of, same in *.
    unfold try_catch, logger, emit in *.
    destruct (processMessage env messageData w) as [[w1 t1] [[]|e]]; cbn [fst snd] in *.
    + exists w1, t1. split; [reflexivity | ]. split; [by rewrite Hs | by apply quiet_trace].
    + exists w1. eexists. split; [reflexivity | ]. split; [by rewrite Hs | ].
      rewrite List.filter_app, (quiet_trace _ Ht). reflexivity.
  - do 2 run_monad. destruct (run messageData) as [[]|e]; cbn [fst snd];
      exists w; eexists; (split; [reflexivity | split; reflexivity]).
Qed.

Lemma handlers_loop_run env messageData hs : forall w,
  exists w1 t,
    for_of hs (fun h =>
      try_catch (invoke env h messageData)
        (fun handlerError => logger Level.error "Message handler error:")) w
    = (w1, t, Normal tt) /\
    List.filter is_handler_call t
    = List.map (fun _ => HandlerCall (MessageData.id messageData))
               (List.filter is_external hs).
Proof.
  induction hs as [|h hs IH]; intros w; cbn [for_of].
  - exists w, []. by split.
  - destruct (handler_step_run env messageData h w) as [w1 [t1 [Hrun [_ Hcalls]]]].
    rewrite (bind_normal _ _ _ _ _ _ Hrun).
    destruct (IH w1) as [w2 [t2 [Hrest Hcalls2]]].
    unfold world_after, trace_of, outcome. rewrite Hrest. cbn [fst snd].
    exists w2. eexists. split; [reflexivity | ].
    rewrite List.filter_app, Hcalls, Hcalls2. simpl. by destruct (is_external h).
Qed.

Lemma handler_calls_of_dispatch env message w :
  List.filter is_handler_call (trace_of (handleIncomingMessage env message) w)
  = List.map (fun _ => HandlerCall (Message.id message))
             (List.filter is_external (messageHandlers (service w))).
Proof.
  unfold trace_of, handleIncomingMessage. cbn zeta.
  assert (Hquiet : forall (m : M unit) w0,
            respects (same service) not_a_handler_call m ->
            service (world_after m w0) = service w0 /\
            List.filter is_handler_call (trace_of m w0) = []).
  { intros m w0 Hm. destruct (Hm w0) as [Hs Ht]. split; [by rewrite <- Hs | by apply quiet_trace]. }
  destruct (save_message_run env (messageData_of message) w) as [t1 Hsave].
  destruct (Hquiet (save_message env (messageData_of message)) w) as [Hs1 Hq1].
  { unfold save_message, not_a_handler_call. frame. }
  unfold world_after, trace_of in Hs1, Hq1. rewrite Hsave in Hs1, Hq1. cbn [fst snd] in Hs1, Hq1.
  set (w1 := match insert_run env _ with Normal _ => _ | Throw _ => w end) in *.
  assert (Hlog : exists t2, (if negb (Message.fromMe message)
                             then logger Level.info "Incoming message received"
                             else ret tt) w1 = (w1, t2, Normal tt) /\
                            List.filter is_handler_call t2 = []).
  { destruct (Message.fromMe message); eexists; split; reflexivity. }
  destruct Hlog as [t2 [Hlog Hq2]].
  destruct (send_webhook_run env message w1) as [t3 Hhook].
  destruct (Hquiet (send_webhook env message) w1) as [_ Hq3].
  { apply send_webhook_respects; try apply _; done. }
  unfold trace_of in Hq3. rewrite Hhook in Hq3. cbn [fst snd] in Hq3.
  destruct (handlers_loop_run env (messageData_of message) (messageHandlers (service w1)) w1)
    as [w4 [t4 [Hloop Hq4]]].
  assert (Hrun : run_handlers env (messageData_of message) w1 = (w4, t4, Normal tt)).
  { unfold run_handlers. rewrite (bind_normal _ _ w1 w1 [] (messageHandlers (service w1)) eq_refl).
    unfold world_after, trace_of, outcome. rewrite Hloop. reflexivity. }
  unfold try_catch.
  rewrite (bind_normal _ _ _ _ _ _ Hsave). unfold world_after, trace_of, outcome.
  rewrite (bind_normal _ _ _ _ _ _ Hlog). unfold world_after, trace_of, outcome.
  rewrite (bind_normal _ _ _ _ _ _ Hhook). unfold world_after, trace_of, outcome.
  rewrite Hrun. cbn [fst snd].
  rewrite !List.filter_app, Hq1, Hq2, Hq3, Hq4, Hs1. reflexivity.
Qed.

(** X26. [handleIncomingMessage] always returns to its caller, and it makes
    as many calls to handlers of other modules as there are such handlers
    registered, each with the message of the event: a failed insertion
    into the table, a failed webhook or a handler that throws ends neither
    the dispatch nor the loop over the handlers. *)
Theorem failures_do_not_cut_dispatch_short :
  forall env w message,
    let calls :=
      List.filter is_handler_call (trace_of (handleIncomingMessage env message) w) in
    outcome (handleIncomingMessage env message) w = Normal tt /\
    length calls = length (List.filter is_external (messageHandlers (service w))) /\
    Forall (fun e => e = HandlerCall (Message.id message)) calls.
Proof.
  intros env w message calls. subst calls.
  split; [apply logged_returns | ].
  rewrite handler_calls_of_dispatch. split; [apply List.length_map | ].
  induction (List.filter is_external (messageHandlers (service w))); by constructor.
Qed.

(** ** Replies and the [processed] flag *)

Lemma append_cons c a b : String c a +:+ b = String c (a +:+ b).
Proof. reflexivity. Qed.

Lemma includes_underscore_after pre i : includes (pre +:+ String "_" i) "_" = true.
Proof.
  induction pre as [|c pre IH].
  - reflexivity.
  - rewrite append_cons. cbn [includes]. rewrite IH. apply orb_true_r.
Qed.

Lemma last_part_of_serialized pre i :
  includes i "_" = false -> last_part (pre +:+ String "_" i) = i.
Proof.
  intros Hi. induction pre as [|c pre IH].
  - change ("" +:+ String "_" i) with (String "_" i). cbn [last_part]. rewrite Hi. reflexivity.
  - rewrite append_cons. cbn [last_part]. rewrite includes_underscore_after. exact IH.
Qed.

Lemma mark_processed_ids messageId table :
  List.map Row.id (mark_processed messageId table) = List.map Row.id table.
Proof.
  unfold mark_processed. rewrite List.map_map. apply List.map_ext.
  intros r. by destruct (Row.id r =? messageId).
Qed.

Lemma processed_of_marked messageId table :
  processed_of messageId (mark_processed messageId table)
  = List.map (fun _ => 1%Z) (processed_of messageId table).
Proof.
  unfold processed_of, mark_processed. induction table as [|r table IH]; [reflexivity | ].
  simpl. destruct (Row.id r =? messageId) eqn:E; simpl; rewrite ?E; simpl; by rewrite IH.
Qed.

Lemma processed_of_other messageId other table :
  other <> messageId ->
  processed_of other (mark_processed messageId table) = processed_of other table.
Proof.
  intros Hne. unfold processed_of, mark_processed.
  induction table as [|r table IH]; [reflexivity | ]. simpl.
  destruct (String.eqb_spec (Row.id r) messageId) as [Hid|Hid]; simpl.
  - rewrite Hid. destruct (String.eqb_spec messageId other); [congruence | exact IH].
  - destruct (Row.id r =? other); simpl; by rewrite IH.
Qed.

Lemma replyToMessage_run replied update_run messageId w :
  replyToMessage replied update_run (VString messageId) w =
    let shortId := if includes messageId "_" then last_part messageId else messageId in
    match client (service w), replied, update_run with
    | Some _, Normal _, Normal _ =>
        (with_messages (mark_processed shortId) w,
         [Log Level.info "Reply sent successfully to message"],
         Normal (ReplyResult.mk true (Some "Reply sent successfully") None))
    | None, _, _ =>
        (w, [Log Level.error "Failed to reply to message:"],
         Normal (ReplyResult.mk false None (Some "Cannot read properties of null")))
    | Some _, Throw e, _ | Some _, Normal _, Throw e =>
        (w, [Log Level.error "Failed to reply to message:"],
         Normal (ReplyResult.mk false None (Some (Js.message e))))
    end.
Proof.
  unfold replyToMessage. do 2 run_monad.
  destruct (client (service w)); [ | reflexivity].
  destruct replied as [[]|e]; [ | reflexivity].
  destruct update_run as [[]|e]; reflexivity.
Qed.

(** X27. [replyToMessage] with a string as id always returns to its
    caller. When a client is held, the reply is sent and the UPDATE runs,
    it returns [success: true], every row whose id is the last part of the
    given id (after its last ['_']) has [processed = 1], the rows with
    another id keep their flag, and the ids of the table and the rest of
    the state are as before. When the reply or the UPDATE fails it returns
    [success: false] with the message of that error, and when no client
    is held [success: false] with an error; the state is then as it was. *)
Theorem replyToMessage_marks_processed :
  forall replied update_run messageId w,
    let shortId := if includes messageId "_" then last_part messageId else messageId in
    let call := replyToMessage replied update_run (VString messageId) in
    let failed e :=
      outcome call w = Normal (ReplyResult.mk false None (Some (Js.message e))) /\
      world_after call w = w in
    match client (service w) with
    | Some _ =>
        match replied with
        | Normal _ =>
            match update_run with
            | Normal _ =>
                outcome call w
                = Normal (ReplyResult.mk true (Some "Reply sent successfully") None) /\
                List.map Row.id (messages (world_after call w))
                = List.map Row.id (messages w) /\
                processed_of shortId (messages (world_after call w))
                = List.map (fun _ => 1%Z) (processed_of shortId (messages w)) /\
                (forall other,
                   other <> shortId ->
                   processed_of other (messages (world_after call w))
                   = processed_of other (messages w)) /\
                service (world_after call w) = service w /\
                handler (world_after call w) = handler w /\
                sessionDir (world_after call w) = sessionDir w
            | Throw e => failed e
            end
        | Throw e => failed e
        end
    | None => exists e, failed e
    end.
Proof.
  intros replied update_run messageId w shortId call failed. subst call failed.
  unfold outcome, world_after. rewrite replyToMessage_run. cbv zeta. fold shortId.
  destruct (client (service w)); [destruct replied as [[]|e]; [destruct update_run as [[]|e] | ] | ];
    cbn [fst snd]; try (split; reflexivity).
  - split; [reflexivity | ]. cbn [messages with_messages].
    split; [apply mark_processed_ids | ].
    split; [apply processed_of_marked | ].
    split; [intros; by apply processed_of_other | by destruct w].
  - exists (mkError "Cannot read properties of null"). split; reflexivity.
Qed.

(** X28. The [processed] flag of a message. After an inbound message was
    stored, a reply addressed with its serialized id (['..._<id>'] with
    an [id] free of ['_']) sets the flag of its row to 1; when the same
    event is delivered again and stored, the flag of the row is 0 again. *)
Theorem processed_flag_set_by_reply_reset_by_redelivery :
  forall env env' w message prefix,
    Message.id_serialized message = prefix +:+ String "_" (Message.id message) ->
    includes (Message.id message) "_" = false ->
    insert_run env (row_of (messageData_of message)) = Normal tt ->
    insert_run env' (row_of (messageData_of message)) = Normal tt ->
    forall c, client (service w) = Some c ->
    let stored := world_after (handleIncomingMessage env message) w in
    let replied :=
      world_after (replyToMessage (Normal tt) (Normal tt)
                     (VString (Message.id_serialized message))) stored in
    let redelivered := world_after (handleIncomingMessage env' message) replied in
    processed_of (Message.id message) (messages stored) = [0%Z] /\
    processed_of (Message.id message) (messages replied) = [1%Z] /\
    processed_of (Message.id message) (messages redelivered) = [0%Z].
Proof.
  intros env env' w message prefix Hser Hid Hok Hok' c Hc stored replied redelivered.
  assert (Hfresh : forall table,
            processed_of (Message.id message)
              (insert_or_replace (row_of (messageData_of message)) table) = [0%Z]).
  { intros table. unfold processed_of.
    assert (Hf : List.filter (fun r => Row.id r =? Message.id message)
                   (insert_or_replace (row_of (messageData_of message)) table)
                 = [row_of (messageData_of message)]).
    { unfold insert_or_replace. rewrite List.filter_app. simpl.
      rewrite String.eqb_refl.
      assert (Hnone : List.filter (fun r => Row.id r =? Message.id message)
                        (filter (fun r => Row.id r <> Message.id message) table) = []).
      { induction table as [|r table IH]; [reflexivity | ].
        rewrite filter_cons. destruct (decide (Row.id r <> Message.id message)) as [Hne|He].
        - simpl. destruct (String.eqb_spec (Row.id r) (Message.id message));
            [contradiction | exact IH].
        - exact IH. }
      change (Row.id (row_of (messageData_of message))) with (Message.id message).
      by rewrite Hnone. }
    by rewrite Hf. }
  assert (Hstored : messages stored
                    = insert_or_replace (row_of (messageData_of message)) (messages w)).
  { subst stored. by rewrite handleIncomingMessage_messages, Hok. }
  assert (Hclient : client (service stored) = Some c).
  { subst stored.
    assert (Hs : respects (same service) any_effect (handleIncomingMessage env message))
      by (apply handleIncomingMessage_respects; try apply _; done).
    destruct (Hs w) as [<- _]. exact Hc. }
  assert (Hreplied : messages replied = mark_processed (Message.id message) (messages stored)).
  { subst replied. unfold world_after. rewrite replyToMessage_run. cbv zeta.
    rewrite Hclient. cbn [fst snd messages with_messages].
    rewrite Hser, includes_underscore_after, (last_part_of_serialized _ _ Hid). reflexivity. }
  split; [rewrite Hstored; apply Hfresh | ].
  split.
  - rewrite Hreplied, processed_of_marked, Hstored, Hfresh. reflexivity.
  - subst redelivered. rewrite handleIncomingMessage_messages, Hok'. apply Hfresh.
Qed.

Lemma processed_flag_witness :
  processed_of "3EB0C7"
    (messages
       (world_after (replyToMessage (Normal tt) (Normal tt)
                       (VString "false_972501234567@c.us_3EB0C7"))
          (world_after (handleIncomingMessage quiet_env hello_message)
             (constructed quiet_env empty_dir [])))) = [1%Z].
Proof.
  apply (processed_flag_set_by_reply_reset_by_redelivery quiet_env quiet_env
           (constructed quiet_env empty_dir []) hello_message "false_972501234567@c.us"
           eq_refl eq_refl eq_refl eq_refl 1%nat eq_refl).
Defined.
